(** * The canary executor of the rollout-run controller

    A shallow embedding of [pkg/controllers/rolloutrun/executor/canary.go]:
    the step handlers [doInit], [doPreStepHook], [doCanary],
    [doPostStepHook], [doRecycle], the helper [modifyTraffic], the patch
    augmentation [appendBuiltinPodTemplateMetadataPatch] and the entry point
    [Do].

    The handlers talk to collaborators whose code lives outside the file
    (workload registry, canary strategies, traffic manager, webhook
    executor).  They are taken as an interface, every operation being a
    transformer of an abstract external world.  A handler is a computation
    that threads the executor's state and emits, next to its result, the
    list of collaborator calls it made, in order.  Logger calls are left
    out. *)

From Stdlib Require Import ZArith Bool Lia.
From stdpp Require Import base option list gmap strings pretty.

Local Open Scope string_scope.
Local Open Scope list_scope.
Local Open Scope Z_scope.

(** ** Plain data *)

(** [time.Duration]: a signed count of nanoseconds. *)
Definition Duration := Z.

(** [controllerutil.OperationResult] is a string type; the no-op value is
    the constant [OperationResultNone]. *)
Definition OperationResult := string.
Definition OperationResultNone : OperationResult := "unchanged".
Definition OperationResultCreated : OperationResult := "created".
Definition OperationResultUpdated : OperationResult := "updated".

(** [rolloutv1alpha1.CodeReasonMessage]. *)
Record CodeReasonMessage := mkCodeReasonMessage {
  Code : string;
  Reason : string;
  Message : string
}.

(** An error handed back by a collaborator is known by its text (what
    [%v] prints). *)
Definition GoError := string.

(** The [error] a handler returns: one of the executor's structured errors
    or whatever the webhook executor or the state machine handed back. *)
Inductive error :=
| StructuredError (e : CodeReasonMessage)
| ForeignError (msg : GoError).

Definition newDoCanaryError (reason msg : string) : CodeReasonMessage :=
  {| Code := "DoCanaryError"; Reason := reason; Message := msg |}.

(** [ctrl.Result]. *)
Record Result := mkResult {
  Requeue : bool;
  RequeueAfter : Duration
}.

Record CrossClusterObjectNameReference := mkRef {
  Cluster : string;
  Name : string
}.

(** One canary target of the rollout-run spec; the desired replica count is
    only handed through to [CreateOrUpdate]. *)
Record Target := mkTarget {
  CrossClusterObjectNameReference_of : CrossClusterObjectNameReference;
  Replicas : Z
}.

(** The two hook phases the canary executor asks for. *)
Inductive HookType := PreCanaryStepHook | PostCanaryStepHook.

(** ** Patch objects on the heap

    A [*MetadataPatch] is a pointer and its [Labels] field is a Go map, a
    reference too.  Both kinds of object live in stores addressed by
    locations, so that two holders of one pointer see each other's
    writes. *)
Definition loc := positive.

Record MetadataPatch := mkMetadataPatch {
  Labels : option loc;
  Annotations : option loc
}.

#[global] Instance MetadataPatch_inhabited : Inhabited MetadataPatch :=
  populate {| Labels := None; Annotations := None |}.

Record Heap := mkHeap {
  patches : gmap loc MetadataPatch;
  maps : gmap loc (gmap string string)
}.

(** What a callee sees when it reads through a patch pointer. *)
Record PatchView := mkPatchView {
  viewLabels : option (gmap string string);
  viewAnnotations : option (gmap string string)
}.

Definition readMap (h : Heap) (m : loc) : gmap string string :=
  maps h !!! m.

Definition readPatch (h : Heap) (p : loc) : PatchView :=
  let o := patches h !!! p in
  {| viewLabels := readMap h <$> Labels o;
     viewAnnotations := readMap h <$> Annotations o |}.

(** [&MetadataPatch{}]: a fresh object with both fields nil. *)
Definition allocPatch (h : Heap) : loc * Heap :=
  let p := fresh (dom (patches h)) in
  (p, {| patches := <[p := {| Labels := None; Annotations := None |}]> (patches h);
         maps := maps h |}).

(** [map[string]string{}]: a fresh empty map. *)
Definition allocMap (h : Heap) : loc * Heap :=
  let m := fresh (dom (maps h)) in
  (m, {| patches := patches h; maps := <[m := ∅]> (maps h) |}).

(** [patch.Labels = m]. *)
Definition setLabels (p : loc) (m : loc) (h : Heap) : Heap :=
  {| patches := <[p := {| Labels := Some m;
                          Annotations := Annotations (patches h !!! p) |}]> (patches h);
     maps := maps h |}.

(** [m[k] = v]. *)
Definition mapStore (m : loc) (k v : string) (h : Heap) : Heap :=
  {| patches := patches h;
     maps := <[m := <[k := v]> (readMap h m)]> (maps h) |}.

(** ** The collaborators

    The types the executor only handles by reference. *)
Class ExternalTypes := {
  World : Type;              (* the external systems the collaborators act on *)
  WorkloadAccessor : Type;   (* what [ctx.Workloads.Get] hands back *)
  CanaryStrategy : Type;     (* [workload.CanaryStrategy] *)
  Info : Type;               (* what [GetCanaryInfo] hands back *)
  TrafficStrategy : Type     (* the traffic section of the rollout-run spec *)
}.

(** The parts of [ExecutorContext] the canary executor reads.  They do not
    change while a handler runs. *)
Record ExecutorContext `{ExternalTypes} := mkExecutorContext {
  Rollout_Name : string;
  RolloutRun_Name : string;
  Canary_Targets : list Target;
  Canary_Traffic : option TrafficStrategy;
  Canary_PodTemplateMetadataPatch : option loc
}.

(** The persisted step state, [rolloutv1alpha1.RolloutStepState], a string
    type whose empty value means that no state follows. *)
Definition StepState := string.

(** What a handler can change: the external world, the heap of patch
    objects, the step state kept in [ctx.NewStatus.CanaryStatus.State] and
    the pause signal of the context. *)
Record State `{ExternalTypes} := mkState {
  world : World;
  heap : Heap;
  canaryState : StepState;
  paused : bool
}.

(** Constants and formatting declared in other files of the repository;
    they are taken as they come. *)
Class Constants := {
  retryStop : Duration;
  retryDefault : Duration;
  retryImmediately : Duration;
  ReasonWorkloadInterfaceNotExist : string;
  LabelCanary : string;
  LabelPodRevision : string;
  (* how [%s] prints a cross-cluster reference *)
  fmtRef : CrossClusterObjectNameReference -> string
}.

(** The operations of the collaborators.  Each one may change the external
    world and hands back what the Go method returns; a method returning
    [(value, error)] whose value is read only when the error is nil is a
    sum. *)
Class Collaborators `{ExternalTypes} := {
  (* ctx.inCanary() *)
  inCanary : ExecutorContext -> State -> bool;
  (* ctx.Workloads.Get(cluster, name) *)
  Workloads_Get : string -> string -> World -> option WorkloadAccessor * World;
  (* wi.CanaryStrategy() *)
  Workload_CanaryStrategy : WorkloadAccessor -> World -> (GoError + CanaryStrategy) * World;
  (* canaryStrategy.Initialize(rollout, rolloutRun) *)
  Strategy_Initialize : CanaryStrategy -> string -> string -> World -> option GoError * World;
  (* canaryStrategy.CreateOrUpdate(replicas, patch) *)
  Strategy_CreateOrUpdate :
    CanaryStrategy -> Z -> PatchView -> World -> (OperationResult * option GoError) * World;
  (* canaryStrategy.GetCanaryInfo() *)
  Strategy_GetCanaryInfo : CanaryStrategy -> World -> Info * World;
  (* info.Status.Replicas *)
  Info_Status_Replicas : Info -> Z;
  (* info.CheckPartitionReady(partition) *)
  Info_CheckPartitionReady : Info -> Z -> World -> bool * World;
  (* canaryStrategy.Delete() *)
  Strategy_Delete : CanaryStrategy -> World -> option GoError * World;
  (* ctx.TrafficManager.With(logger, targets, traffic) *)
  TrafficManager_With : list Target -> option TrafficStrategy -> World -> World;
  TrafficManager_ForkStable : World -> (OperationResult * option GoError) * World;
  TrafficManager_ForkCanary : World -> (OperationResult * option GoError) * World;
  TrafficManager_RevertStable : World -> (OperationResult * option GoError) * World;
  TrafficManager_RevertCanary : World -> (OperationResult * option GoError) * World;
  TrafficManager_CheckReady : World -> bool * World;
  (* e.webhook.Do(ctx, hookType) *)
  webhook_Do : ExecutorContext -> HookType -> World -> (bool * Duration * option error) * World
}.

Section Executor.
Context `{Collaborators} `{Constants}.

(** ** Calls made, as observed from outside

    One event per call a handler makes on a collaborator, with the item it
    is made for and what came back.  The events are ghost data: no
    handler reads them. *)
Inductive Event :=
| EvWith (targets : list Target) (traffic : option TrafficStrategy)
| EvTraffic (op : string) (result : OperationResult) (err : option GoError)
| EvCheckReady (ready : bool)
| EvGet (item : Target) (found : bool)
| EvCanaryStrategy (item : Target) (err : option GoError)
| EvInitialize (item : Target) (rollout rolloutRun : string) (err : option GoError)
| EvCreateOrUpdate (item : Target) (replicas : Z) (patch : loc) (seen : PatchView)
                   (result : OperationResult) (err : option GoError)
| EvGetCanaryInfo (cw : CanaryStrategy)
| EvCheckPartitionReady (info : Info) (partition : Z) (ready : bool)
| EvDelete (item : Target) (err : option GoError)
| EvWebhook (hook : HookType) (done : bool) (retry : Duration) (err : option error)
| EvPause
| EvHandler (from : StepState).

(** ** Computations

    A computation takes the state and gives a value, the state after, and
    the events emitted on the way. *)
Definition Exec (A : Type) : Type := State -> A * State * list Event.

#[global] Instance Exec_ret : MRet Exec := λ A (a : A) st, (a, st, []).

#[global] Instance Exec_bind : MBind Exec := λ A B (f : A -> Exec B) (m : Exec A) st,
  let '(a, st1, tr1) := m st in
  let '(b, st2, tr2) := f a st1 in
  (b, st2, tr1 ++ tr2).

Definition setWorld (w : World) (st : State) : State :=
  {| world := w; heap := heap st; canaryState := canaryState st; paused := paused st |}.

Definition setHeap (h : Heap) (st : State) : State :=
  {| world := world st; heap := h; canaryState := canaryState st; paused := paused st |}.

Definition setCanaryState (s : StepState) (st : State) : State :=
  {| world := world st; heap := heap st; canaryState := s; paused := paused st |}.

(** A call on a collaborator: run it on the world and record it. *)
Definition call {R : Type} (op : World -> R * World) (ev : R -> Event) : Exec R :=
  λ st, let '(r, w) := op (world st) in (r, setWorld w st, [ev r]).

(** A step on the heap; nothing is recorded. *)
Definition onHeap {R : Type} (op : Heap -> R * Heap) : Exec R :=
  λ st, let '(r, h) := op (heap st) in (r, setHeap h st, []).

Definition getHeap : Exec Heap := λ st, (heap st, st, []).

(** Modelled from the spec: [ctx.Pause()], whose body is in another file;
    it raises the pause signal the execution context carries. *)
Definition Pause : Exec unit :=
  λ st, (tt, {| world := world st; heap := heap st;
                canaryState := canaryState st; paused := true |}, [EvPause]).

(** What a step handler returns: [(bool, time.Duration, error)]. *)
Definition HandlerResult : Type := bool * Duration * option error.

(** [return false, retryStop, newDoCanaryError(reason, msg)]. *)
Definition fatal (reason msg : string) : HandlerResult :=
  (false, retryStop, Some (StructuredError (newDoCanaryError reason msg))).

(** [ctx.Workloads.Get(item.Cluster, item.Name)]; [None] is nil. *)
Definition get_workload (item : Target) : Exec (option WorkloadAccessor) :=
  call (Workloads_Get (Cluster (CrossClusterObjectNameReference_of item))
                      (Name (CrossClusterObjectNameReference_of item)))
       (λ r, EvGet item (bool_decide (is_Some r))).

Definition errOf {A : Type} (r : GoError + A) : option GoError :=
  match r with inl e => Some e | inr _ => None end.

(** [wi.CanaryStrategy()]. *)
Definition get_strategy (item : Target) (wi : WorkloadAccessor)
  : Exec (GoError + CanaryStrategy) :=
  call (Workload_CanaryStrategy wi) (λ r, EvCanaryStrategy item (errOf r)).

(** ** doInit *)

Fixpoint doInit_loop (ctx : ExecutorContext) (items : list Target)
  : Exec (option HandlerResult) :=
  match items with
  | [] => mret None
  | item :: rest =>
      wi ← get_workload item;
      match wi with
      | None =>
          mret (Some (fatal ReasonWorkloadInterfaceNotExist
                        ("the workload (" +:+ fmtRef (CrossClusterObjectNameReference_of item)
                           +:+ ") does not exists")))
      | Some wi =>
          cs ← get_strategy item wi;
          match cs with
          | inl err =>
              mret (Some (fatal "InternalError"
                            ("failed to get canary strategy, err: " +:+ err)))
          | inr canaryStrategy =>
              err ← call (Strategy_Initialize canaryStrategy (Rollout_Name ctx) (RolloutRun_Name ctx))
                         (EvInitialize item (Rollout_Name ctx) (RolloutRun_Name ctx));
              match err with
              | Some err =>
                  mret (Some (fatal "InitializeFailed"
                                ("failed to initialize canary strategy, err: " +:+ err)))
              | None => doInit_loop ctx rest
              end
          end
      end
  end.

Definition doInit (ctx : ExecutorContext) : Exec HandlerResult :=
  r ← doInit_loop ctx (Canary_Targets ctx);
  match r with
  | Some r => mret r
  | None => mret (true, retryDefault, None)
  end.

(** ** The webhook handlers *)

Definition do_webhook (ctx : ExecutorContext) (hook : HookType) : Exec HandlerResult :=
  call (webhook_Do ctx hook) (λ r, EvWebhook hook r.1.1 r.1.2 r.2).

Definition doPreStepHook (ctx : ExecutorContext) : Exec HandlerResult :=
  do_webhook ctx PreCanaryStepHook.

Definition doPostStepHook (ctx : ExecutorContext) : Exec HandlerResult :=
  '(done, retry, err) ← do_webhook ctx PostCanaryStepHook;
  _ ← (if done : bool then Pause else mret tt);
  mret (done, retry, err).

(** ** modifyTraffic *)

(** The [switch] on the operation name: the manager method a name stands
    for, none for any other name. *)
Definition traffic_method (op : string)
  : option (World -> (OperationResult * option GoError) * World) :=
  match op with
  | "forkStable" => Some TrafficManager_ForkStable
  | "forkCanary" => Some TrafficManager_ForkCanary
  | "revertStable" => Some TrafficManager_RevertStable
  | "revertCanary" => Some TrafficManager_RevertCanary
  | _ => None
  end.

Definition traffic_call (op : string) : Exec (OperationResult * option GoError) :=
  match traffic_method op with
  | Some method => call method (λ r, EvTraffic op r.1 r.2)
  | None => mret (OperationResultNone, None)
  end.

Definition modifyTraffic (ctx : ExecutorContext) (op : string) : Exec (bool * Duration) :=
  (* 1.a. do traffic initialization *)
  r ← match Canary_Traffic ctx with
      | Some _ => traffic_call op
      | None => mret (OperationResultNone, None)
      end;
  match r with
  | (_, Some err) => mret (false, retryDefault)
  | (opResult, None) =>
      if negb (String.eqb opResult OperationResultNone) then mret (false, retryDefault)
      else
        (* 1.b. waiting for traffic *)
        match Canary_Traffic ctx with
        | Some _ =>
            ready ← call TrafficManager_CheckReady EvCheckReady;
            if negb ready then mret (false, retryDefault)
            else mret (true, retryImmediately)
        | None => mret (true, retryImmediately)
        end
  end.

(** ** doCanary *)

(** The patch is changed where it lives: a nil pointer gets a fresh
    object, a nil [Labels] gets a fresh map, and the two built-in labels
    are stored into the map the patch refers to. *)
Definition appendBuiltinPodTemplateMetadataPatch (patch : option loc) (h : Heap)
  : loc * Heap :=
  let '(patch, h) := match patch with
                     | None => allocPatch h
                     | Some p => (p, h)
                     end in
  let '(labels, h) := match Labels (patches h !!! patch) with
                      | None => let '(m, h) := allocMap h in (m, setLabels patch m h)
                      | Some m => (m, h)
                      end in
  let h := mapStore labels LabelCanary "true" h in
  let h := mapStore labels LabelPodRevision "canary" h in
  (patch, h).

(** 2.a. the loop over the targets, with its two accumulators; [inl] is a
    [return] from inside the loop. *)
Fixpoint doCanary_loop (patch : loc) (items : list Target)
    (changed : bool) (canaryWorkloads : list CanaryStrategy)
  : Exec (HandlerResult + bool * list CanaryStrategy) :=
  match items with
  | [] => mret (inr (changed, canaryWorkloads))
  | item :: rest =>
      wi ← get_workload item;
      match wi with
      | None =>
          mret (inl (fatal ReasonWorkloadInterfaceNotExist
                       ("the workload (" +:+ fmtRef (CrossClusterObjectNameReference_of item)
                          +:+ ") does not exists")))
      | Some wi =>
          cs ← get_strategy item wi;
          match cs with
          | inl err =>
              mret (inl (fatal "InternalError"
                           ("failed to get canary strategy, err: " +:+ err)))
          | inr canaryStrategy =>
              h ← getHeap;
              r ← call (Strategy_CreateOrUpdate canaryStrategy (Replicas item) (readPatch h patch))
                       (λ r, EvCreateOrUpdate item (Replicas item) patch (readPatch h patch) r.1 r.2);
              match r with
              | (_, Some err) =>
                  mret (inl (fatal "CreateOrUpdateFailed"
                               ("failed to ensure canary resource for workload("
                                  +:+ fmtRef (CrossClusterObjectNameReference_of item)
                                  +:+ "), err: " +:+ err)))
              | (result, None) =>
                  doCanary_loop patch rest
                    (if negb (String.eqb result OperationResultNone) then true else changed)
                    (canaryWorkloads ++ [canaryStrategy])
              end
          end
      end
  end.

(** 2.b. waiting canary workload ready; [Some] is a [return] from inside
    the loop. *)
Fixpoint doCanary_ready_loop (canaryWorkloads : list CanaryStrategy)
  : Exec (option HandlerResult) :=
  match canaryWorkloads with
  | [] => mret None
  | cw :: rest =>
      info ← call (Strategy_GetCanaryInfo cw) (λ _, EvGetCanaryInfo cw);
      ready ← call (Info_CheckPartitionReady info (Info_Status_Replicas info))
                   (EvCheckPartitionReady info (Info_Status_Replicas info));
      if negb ready then mret (Some (false, retryDefault, None))
      else doCanary_ready_loop rest
  end.

Definition doCanary (ctx : ExecutorContext) : Exec HandlerResult :=
  (* 1. do traffic initialization *)
  '(prepareDone, retry) ← modifyTraffic ctx "forkStable";
  if negb prepareDone then mret (false, retry, None)
  else
    (* 2.a. do create canary resources *)
    patch ← onHeap (appendBuiltinPodTemplateMetadataPatch (Canary_PodTemplateMetadataPatch ctx));
    r ← doCanary_loop patch (Canary_Targets ctx) false [];
    match r with
    | inl res => mret res
    | inr (changed, canaryWorkloads) =>
        if changed : bool then mret (false, retryDefault, None)
        else
          (* 2.b. waiting canary workload ready *)
          r ← doCanary_ready_loop canaryWorkloads;
          match r with
          | Some res => mret res
          | None =>
              (* 3 do canary traffic routing *)
              '(trafficCanaryDone, retry) ← modifyTraffic ctx "forkCanary";
              if negb trafficCanaryDone then mret (false, retry, None)
              else mret (true, retryImmediately, None)
          end
    end.

(** ** doRecycle *)

Fixpoint doRecycle_loop (items : list Target) : Exec (option HandlerResult) :=
  match items with
  | [] => mret None
  | item :: rest =>
      wi ← get_workload item;
      match wi with
      | None =>
          mret (Some (fatal ReasonWorkloadInterfaceNotExist
                        ("the workload (" +:+ fmtRef (CrossClusterObjectNameReference_of item)
                           +:+ ") does not exists")))
      | Some wi =>
          cs ← get_strategy item wi;
          match cs with
          | inl err =>
              mret (Some (fatal "InternalError"
                            ("failed to get canary strategy, err: " +:+ err)))
          | inr canaryStrategy =>
              err ← call (Strategy_Delete canaryStrategy) (EvDelete item);
              match err with
              | Some err =>
                  mret (Some (fatal "DeleteFailed"
                                ("failed to delete canary resource for workload("
                                   +:+ fmtRef (CrossClusterObjectNameReference_of item)
                                   +:+ "), err: " +:+ err)))
              | None => doRecycle_loop rest
              end
          end
      end
  end.

Definition doRecycle (ctx : ExecutorContext) : Exec HandlerResult :=
  '(done, retry) ← modifyTraffic ctx "revertCanary";
  if negb done then mret (false, retry, None)
  else
    r ← doRecycle_loop (Canary_Targets ctx);
    match r with
    | Some res => mret res
    | None =>
        '(done, retry) ← modifyTraffic ctx "revertStable";
        if negb done then mret (false, retry, None)
        else mret (true, retryDefault, None)
    end.

(** ** The step state machine *)

(** Modelled from the spec: the step states [StepPending] ...
    [StepSucceeded], constants declared in another file; the spec names
    the six states of the canary sequence in this order. *)
Definition StepPending : StepState := "Pending".
Definition StepPreCanaryStepHook : StepState := "PreCanaryStepHook".
Definition StepRunning : StepState := "Running".
Definition StepPostCanaryStepHook : StepState := "PostCanaryStepHook".
Definition StepResourceRecycling : StepState := "ResourceRecycling".
Definition StepSucceeded : StepState := "Succeeded".

Definition Handler : Type := ExecutorContext -> Exec HandlerResult.

(** Modelled from the spec: [skipStep], declared in another file; the
    no-op handler of the terminal state, which always reports done,
    immediately. *)
Definition skipStep : Handler := λ _, mret (true, retryImmediately, None).

(** Modelled from the spec: the type [stepStateMachine], declared in
    another file; the registered transitions [(from, (to, handler))], at
    most one for a [from] state. *)
Definition stepStateMachine : Type := list (StepState * (StepState * Handler)).

(** Modelled from the spec: [newStepStateMachine], declared in another
    file; a machine without transitions. *)
Definition newStepStateMachine : stepStateMachine := [].

(** The transition registered for a state, if any. *)
Fixpoint lookupStep (m : stepStateMachine) (s : StepState) : option (StepState * Handler) :=
  match m with
  | [] => None
  | (from, entry) :: rest => if String.eqb from s then Some entry else lookupStep rest s
  end.

(** Modelled from the spec: [stepStateMachine.add], declared in another
    file; it registers one handler for a [from] state and rejects a
    second registration for the same state, which leaves the machine as
    it was. *)
Definition add (from to : StepState) (h : Handler) (m : stepStateMachine)
  : stepStateMachine :=
  match lookupStep m from with
  | Some _ => m
  | None => m ++ [(from, (to, h))]
  end.

(** Modelled from the spec: how a requeue intent becomes a [ctrl.Result]:
    stop asks for no requeue, immediate for a requeue now, anything else
    for a requeue after that delay. *)
Definition requeueResult (retry : Duration) : Result :=
  if Z.eqb retry retryStop then {| Requeue := false; RequeueAfter := 0 |}
  else if Z.eqb retry retryImmediately then {| Requeue := true; RequeueAfter := 0 |}
  else {| Requeue := false; RequeueAfter := retry |}.

(** Records that the handler of a state is about to run. *)
Definition emit (e : Event) : Exec unit := λ st, (tt, st, [e]).

(** Reading and writing [ctx.NewStatus.CanaryStatus.State]. *)
Definition loadCanaryState : Exec StepState := λ st, (canaryState st, st, []).

Definition storeCanaryState (s : StepState) : Exec unit :=
  λ st, (tt, setCanaryState s st, []).

(** Modelled from the spec: [stepStateMachine.do], declared in another
    file.  The handler registered for the current state runs; a missing
    handler or a handler error stops the machine with that error; a
    handler that is not done leaves the state where it is; a handler that
    is done with an empty next state reports the whole step done; a
    handler that is done otherwise moves the state on and, when it asked
    for an immediate requeue, the handler of the next state runs within
    the same call.  The number of handlers run in one call is capped
    ([fuel]); at the cap control goes back to the caller with an immediate
    requeue. *)
Fixpoint stateMachine_do_upto (fuel : nat) (m : stepStateMachine)
    (ctx : ExecutorContext) (currentState : StepState)
  : Exec (bool * Result * option error) :=
  match fuel with
  | O => mret (false, requeueResult retryImmediately, None)
  | S fuel =>
      match lookupStep m currentState with
      | None =>
          mret (false, {| Requeue := false; RequeueAfter := 0 |},
                Some (ForeignError ("no handler registered for step state " +:+ currentState)))
      | Some (nextState, handler) =>
          _ ← emit (EvHandler currentState);
          '(done, retry, err) ← handler ctx;
          match err with
          | Some err => mret (false, {| Requeue := false; RequeueAfter := 0 |}, Some err)
          | None =>
              if negb done then mret (false, requeueResult retry, None)
              else if String.eqb nextState "" then mret (true, requeueResult retry, None)
              else
                _ ← storeCanaryState nextState;
                if Z.eqb retry retryImmediately
                then stateMachine_do_upto fuel m ctx nextState
                else mret (false, requeueResult retry, None)
          end
      end
  end.

(** Modelled from the spec: the cap of [stepStateMachine.do] is the number
    of registered states. *)
Definition stateMachine_do (m : stepStateMachine) (ctx : ExecutorContext)
    (currentState : StepState) : Exec (bool * Result * option error) :=
  stateMachine_do_upto (length m) m ctx currentState.

(** ** The canary executor *)

(** The logger and the webhook executor of the Go struct are ambient
    here; what is left is the state machine. *)
Record canaryExecutor := mkCanaryExecutor {
  stateMachine : stepStateMachine
}.

Definition newCanaryExecutor : canaryExecutor :=
  let m := newStepStateMachine in
  let m := add StepPending StepPreCanaryStepHook doInit m in
  let m := add StepPreCanaryStepHook StepRunning doPreStepHook m in
  let m := add StepRunning StepPostCanaryStepHook doCanary m in
  let m := add StepPostCanaryStepHook StepResourceRecycling doPostStepHook m in
  let m := add StepResourceRecycling StepSucceeded doRecycle m in
  let m := add StepSucceeded "" skipStep m in
  {| stateMachine := m |}.

Definition Do (e : canaryExecutor) (ctx : ExecutorContext)
  : Exec (bool * Result * option error) :=
  λ st,
    if negb (inCanary ctx st) then
      ((true, {| Requeue := true; RequeueAfter := 0 |}, None), st, [])
    else
      (_ ← call (λ w, (tt, TrafficManager_With (Canary_Targets ctx) (Canary_Traffic ctx) w))
                (λ _, EvWith (Canary_Targets ctx) (Canary_Traffic ctx));
       currentState ← loadCanaryState;
       stateMachine_do (stateMachine e) ctx currentState) st.

End Executor.

Arguments Event {_}.
Arguments Exec {_} _.
Arguments Handler {_}.
Arguments stepStateMachine {_}.
Arguments canaryExecutor {_}.

(** * What a run shows

    Predicates on states, events and traces in which the properties of
    the handlers are stated. *)

Section Observations.
Context `{Collaborators} `{Constants}.

(** What the executor keeps for itself while a collaborator is called. *)
Definition sameContext (st st' : State) : Prop :=
  heap st' = heap st ∧ canaryState st' = canaryState st ∧ paused st' = paused st.

(** A call on the traffic manager. *)
Definition isTrafficEvent (e : Event) : bool :=
  match e with
  | EvTraffic _ _ _ | EvCheckReady _ => true
  | _ => false
  end.

(** The manager call of the operation named [op]. *)
Definition isTrafficOp (op : string) (e : Event) : bool :=
  match e with
  | EvTraffic op' _ _ => String.eqb op' op
  | _ => false
  end.

(** A traffic problem: a manager call that failed or changed something,
    or a readiness check that said no. *)
Definition trafficProblem (e : Event) : bool :=
  match e with
  | EvTraffic _ result err =>
      bool_decide (is_Some err) || negb (String.eqb result OperationResultNone)
  | EvCheckReady ready => negb ready
  | _ => false
  end.

Definition isDelete (e : Event) : bool :=
  match e with EvDelete _ _ => true | _ => false end.

Definition isReadinessCheck (e : Event) : bool :=
  match e with
  | EvGetCanaryInfo _ | EvCheckPartitionReady _ _ _ => true
  | _ => false
  end.

(** A call on a workload or on one of its canary strategies. *)
Definition isWorkloadEvent (e : Event) : bool :=
  match e with
  | EvGet _ _ | EvCanaryStrategy _ _ | EvInitialize _ _ _ _
  | EvCreateOrUpdate _ _ _ _ _ _ | EvGetCanaryInfo _
  | EvCheckPartitionReady _ _ _ | EvDelete _ _ => true
  | _ => false
  end.

(** Targets whose lookup found a workload. *)
Definition resolved (e : Event) : option Target :=
  match e with EvGet item true => Some item | _ => None end.

(** Targets [Initialize] was called for, whatever came back. *)
Definition initCall (e : Event) : option Target :=
  match e with EvInitialize item _ _ _ => Some item | _ => None end.

(** Targets whose [Initialize] succeeded. *)
Definition initOk (e : Event) : option Target :=
  match e with EvInitialize item _ _ None => Some item | _ => None end.

(** Targets [CreateOrUpdate] was called for, whatever came back. *)
Definition updateCall (e : Event) : option Target :=
  match e with EvCreateOrUpdate item _ _ _ _ _ => Some item | _ => None end.

(** Targets whose [CreateOrUpdate] came back as a no-op, without error. *)
Definition updateNoop (e : Event) : option Target :=
  match e with
  | EvCreateOrUpdate item _ _ _ result None =>
      if String.eqb result OperationResultNone then Some item else None
  | _ => None
  end.

(** Targets whose [Delete] succeeded. *)
Definition deleteOk (e : Event) : option Target :=
  match e with EvDelete item None => Some item | _ => None end.

(** A [CreateOrUpdate] that came back with a result other than the
    no-op. *)
Definition isChange (e : Event) : bool :=
  match e with
  | EvCreateOrUpdate _ _ _ _ result _ => negb (String.eqb result OperationResultNone)
  | _ => false
  end.

(** A call whose outcome is fatal for the handler. *)
Definition isFatalEvent (e : Event) : bool :=
  match e with
  | EvGet _ found => negb found
  | EvCanaryStrategy _ (Some _) | EvInitialize _ _ _ (Some _)
  | EvCreateOrUpdate _ _ _ _ _ (Some _) | EvDelete _ (Some _) => true
  | _ => false
  end.

(** The calls the loop of [doInit] makes. *)
Definition isInitEvent (e : Event) : bool :=
  match e with
  | EvGet _ _ | EvCanaryStrategy _ _ | EvInitialize _ _ _ _ => true
  | _ => false
  end.

(** The message of the error for a workload that is not there. *)
Definition notExistMessage (item : Target) : string :=
  "the workload (" +:+ fmtRef (CrossClusterObjectNameReference_of item) +:+ ") does not exists".

(** The state with the pause signal raised. *)
Definition raised (st : State) : State :=
  {| world := world st; heap := heap st; canaryState := canaryState st; paused := true |}.

Definition isPause (e : Event) : bool :=
  match e with EvPause => true | _ => false end.

(** The calls the loop of [doRecycle] makes. *)
Definition isRecycleEvent (e : Event) : bool :=
  match e with
  | EvGet _ _ | EvCanaryStrategy _ _ | EvDelete _ _ => true
  | _ => false
  end.

(** The message of the error for a [Delete] that failed. *)
Definition deleteFailedMessage (item : Target) (err : GoError) : string :=
  "failed to delete canary resource for workload("
    +:+ fmtRef (CrossClusterObjectNameReference_of item) +:+ "), err: " +:+ err.

(** The calls the loop 2.a of [doCanary] makes. *)
Definition isUpdateEvent (e : Event) : bool :=
  match e with
  | EvGet _ _ | EvCanaryStrategy _ _ | EvCreateOrUpdate _ _ _ _ _ _ => true
  | _ => false
  end.

(** A readiness check that said no. *)
Definition notReady (e : Event) : bool :=
  match e with EvCheckPartitionReady _ _ ready => negb ready | _ => false end.

(** A readiness check that said yes. *)
Definition saidReady (e : Event) : bool :=
  match e with EvCheckPartitionReady _ _ ready => ready | _ => false end.

(** What a [CreateOrUpdate] event says it was given. *)
Definition given (patch : loc) (view : PatchView) (e : Event) : Prop :=
  match e with
  | EvCreateOrUpdate item replicas patch' seen _ _ =>
      patch' = patch ∧ seen = view ∧ replicas = Replicas item
  | _ => True
  end.

Definition isHandlerEvent (e : Event) : bool :=
  match e with EvHandler _ => true | _ => false end.

(** A computation is quiet when it leaves the step state alone and does
    not run a handler of the state machine. *)
Definition quiet {A : Type} (m : Exec A) : Prop :=
  ∀ st a st' tr, m st = (a, st', tr) ->
    canaryState st' = canaryState st ∧ Forall (λ e, isHandlerEvent e = false) tr.

(** The canary sequence, in order. *)
Definition canarySequence : list StepState :=
  [StepPending; StepPreCanaryStepHook; StepRunning; StepPostCanaryStepHook;
   StepResourceRecycling; StepSucceeded].

Fixpoint indexOf (s : StepState) (l : list StepState) : option nat :=
  match l with
  | [] => None
  | x :: l => if String.eqb x s then Some 0%nat else S <$> indexOf s l
  end.

(** The place of a step state in the canary sequence. *)
Definition stepRank (s : StepState) : option nat := indexOf s canarySequence.

(** [s'] is [s] or comes later in the sequence. *)
Definition notBefore (s s' : StepState) : Prop :=
  ∃ i j, stepRank s = Some i ∧ stepRank s' = Some j ∧ (i <= j)%nat.

(** [s'] comes later in the sequence than [s]. *)
Definition later (s s' : StepState) : Prop :=
  ∃ i j, stepRank s = Some i ∧ stepRank s' = Some j ∧ (i < j)%nat.

(** The transitions the constructor registers, written out. *)
Definition canaryTransitions : stepStateMachine :=
  [ (StepPending, (StepPreCanaryStepHook, doInit));
    (StepPreCanaryStepHook, (StepRunning, doPreStepHook));
    (StepRunning, (StepPostCanaryStepHook, doCanary));
    (StepPostCanaryStepHook, (StepResourceRecycling, doPostStepHook));
    (StepResourceRecycling, (StepSucceeded, doRecycle));
    (StepSucceeded, ("", skipStep)) ].

End Observations.

(** * A simulated fleet

    A small closed instance of the collaborators, used to run the handlers
    on concrete inputs: a registry of workload names, the canary resources
    that exist, the traffic routes that are forked, and a webhook with a
    fixed answer. *)
Module Sim.

Record Fleet := mkFleet {
  active : bool;                  (* the rollout-run is in its canary phase *)
  workloads : list string;        (* names the registry knows *)
  refusing : list string;         (* names whose canary resources cannot be written *)
  canaries : list string;         (* names whose canary resources exist *)
  stableForked : bool;
  canaryForked : bool;
  routesReady : bool;
  hookAnswer : bool * Duration * option error
}.

Definition has (name : string) (names : list string) : bool :=
  existsb (String.eqb name) names.

Definition without (name : string) (names : list string) : list string :=
  List.filter (λ n, negb (String.eqb name n)) names.

Definition withCanaries (l : list string) (c : Fleet) : Fleet :=
  {| active := active c; workloads := workloads c; refusing := refusing c;
     canaries := l; stableForked := stableForked c; canaryForked := canaryForked c;
     routesReady := routesReady c; hookAnswer := hookAnswer c |}.

Definition withForks (s k : bool) (c : Fleet) : Fleet :=
  {| active := active c; workloads := workloads c; refusing := refusing c;
     canaries := canaries c; stableForked := s; canaryForked := k;
     routesReady := routesReady c; hookAnswer := hookAnswer c |}.

(** A route operation changes something exactly when the route is not yet
    as asked. *)
Definition route (want now : bool) : OperationResult * option GoError :=
  if Bool.eqb want now then (OperationResultNone, None)
  else (OperationResultUpdated, None).

#[global] Instance types : ExternalTypes := {|
  World := Fleet;
  WorkloadAccessor := string;
  CanaryStrategy := string;
  Info := string;
  TrafficStrategy := unit
|}.

#[global] Instance collaborators : Collaborators := {|
  inCanary := λ _ st, active (world st);
  Workloads_Get := λ _ name c,
    (if has name (workloads c) then Some name else None, c);
  Workload_CanaryStrategy := λ wi c, (inr wi, c);
  Strategy_Initialize := λ s _ _ c,
    (if has s (refusing c) then Some "refused" else None, c);
  Strategy_CreateOrUpdate := λ s _ _ c,
    if has s (refusing c) then ((OperationResultNone, Some "refused"), c)
    else if has s (canaries c) then ((OperationResultNone, None), c)
    else ((OperationResultCreated, None), withCanaries (s :: canaries c) c);
  Strategy_GetCanaryInfo := λ s c, (s, c);
  Info_Status_Replicas := λ _, 1;
  Info_CheckPartitionReady := λ info _ c, (has info (canaries c), c);
  Strategy_Delete := λ s c,
    if has s (refusing c) then (Some "refused", c)
    else (None, withCanaries (without s (canaries c)) c);
  TrafficManager_With := λ _ _ c, c;
  TrafficManager_ForkStable := λ c,
    (route true (stableForked c), withForks true (canaryForked c) c);
  TrafficManager_ForkCanary := λ c,
    (route true (canaryForked c), withForks (stableForked c) true c);
  TrafficManager_RevertStable := λ c,
    (route false (stableForked c), withForks false (canaryForked c) c);
  TrafficManager_RevertCanary := λ c,
    (route false (canaryForked c), withForks (stableForked c) false c);
  TrafficManager_CheckReady := λ c, (routesReady c, c);
  webhook_Do := λ _ _ c, (hookAnswer c, c)
|}.

#[global] Instance constants : Constants := {|
  retryStop := -1;
  retryDefault := 5000000000;
  retryImmediately := 0;
  ReasonWorkloadInterfaceNotExist := "WorkloadInterfaceNotExist";
  LabelCanary := "rollout.kusionstack.io/canary";
  LabelPodRevision := "rollout.kusionstack.io/pod-revision";
  fmtRef := λ r, Cluster r +:+ "/" +:+ Name r
|}.

Definition target (name : string) : Target :=
  {| CrossClusterObjectNameReference_of := {| Cluster := "c1"; Name := name |};
     Replicas := 1 |}.

(** Two workloads are registered, nothing is forked, no canary exists. *)
Definition fleet0 : Fleet :=
  {| active := true; workloads := ["web"; "api"]; refusing := [];
     canaries := []; stableForked := false; canaryForked := false;
     routesReady := true; hookAnswer := (true, 0, None) |}.

Definition emptyHeap : Heap := {| patches := ∅; maps := ∅ |}.

(** A heap holding one patch at location 1 whose labels, at location 1 of
    the maps, already bind the canary key and one key more. *)
Definition heap1 : Heap :=
  {| patches := {[ 1%positive := {| Labels := Some 1%positive; Annotations := None |} ]};
     maps := {[ 1%positive := {[ "rollout.kusionstack.io/canary" := "false"; "app" := "web" ]} ]} |}.

Definition state (c : Fleet) (h : Heap) (s : StepState) : State :=
  {| world := c; heap := h; canaryState := s; paused := false |}.

Definition context (names : list string) (traffic : option unit) (patch : option loc)
  : ExecutorContext :=
  {| Rollout_Name := "rollout"; RolloutRun_Name := "run";
     Canary_Targets := target <$> names;
     Canary_Traffic := traffic;
     Canary_PodTemplateMetadataPatch := patch |}.

(** Scenarios. *)

(** Two targets, both registered; no traffic management, no patch. *)
Definition ctxBoth : ExecutorContext := context ["web"; "api"] None None.

(** Two targets, the second one unknown to the registry. *)
Definition ctxGhost : ExecutorContext := context ["web"; "ghost"] None None.

(** One target, traffic management, and the spec's patch at location 1. *)
Definition ctxTraffic : ExecutorContext := context ["web"] (Some tt) (Some 1%positive).

(** One target, no traffic management, and the spec's patch at location 1. *)
Definition ctxPatch : ExecutorContext := context ["web"] None (Some 1%positive).

Definition stInit : State := state fleet0 emptyHeap StepPending.
Definition stRunning : State := state fleet0 emptyHeap StepRunning.
Definition stRunningPatch : State := state fleet0 heap1 StepRunning.

(** The canaries exist and every route is forked. *)
Definition fleetDone : Fleet :=
  {| active := true; workloads := ["web"; "api"]; refusing := [];
     canaries := ["api"; "web"]; stableForked := true; canaryForked := true;
     routesReady := true; hookAnswer := (true, 0, Some (ForeignError "hook failed")) |}.

(** As [fleetDone], but the canary of [web] cannot be deleted. *)
Definition fleetStuck : Fleet :=
  {| active := true; workloads := ["web"; "api"]; refusing := ["web"];
     canaries := ["api"; "web"]; stableForked := true; canaryForked := false;
     routesReady := true; hookAnswer := (false, 5000000000, None) |}.

(** The rollout-run has left its canary phase. *)
Definition fleetIdle : Fleet :=
  {| active := false; workloads := []; refusing := [];
     canaries := []; stableForked := false; canaryForked := false;
     routesReady := true; hookAnswer := (true, 0, None) |}.

Definition stRecycling : State := state fleetDone emptyHeap StepResourceRecycling.
Definition stPostHook : State := state fleetDone emptyHeap StepPostCanaryStepHook.
Definition stSucceeded : State := state fleetDone emptyHeap StepSucceeded.

End Sim.

(** * The calls of a run, target by target *)

Section Calls.
Context `{Collaborators} `{Constants}.

(** The calls [doInit] makes for a target when nothing fails. *)
Definition initCalls (ctx : ExecutorContext) (item : Target) : list Event :=
  [EvGet item true; EvCanaryStrategy item None;
   EvInitialize item (Rollout_Name ctx) (RolloutRun_Name ctx) None].

(** The calls [doRecycle] makes for a target when nothing fails. *)
Definition deleteCalls (item : Target) : list Event :=
  [EvGet item true; EvCanaryStrategy item None; EvDelete item None].

(** Targets [Delete] was called for, whatever came back. *)
Definition deleteCall (e : Event) : option Target :=
  match e with EvDelete item _ => Some item | _ => None end.

(** The message of the error for a canary strategy that cannot be had. *)
Definition strategyFailedMessage (err : GoError) : string :=
  "failed to get canary strategy, err: " +:+ err.

(** The message of the error for an [Initialize] that failed. *)
Definition initializeFailedMessage (err : GoError) : string :=
  "failed to initialize canary strategy, err: " +:+ err.

(** The message of the error for a [CreateOrUpdate] that failed. *)
Definition createOrUpdateFailedMessage (item : Target) (err : GoError) : string :=
  "failed to ensure canary resource for workload("
    +:+ fmtRef (CrossClusterObjectNameReference_of item) +:+ "), err: " +:+ err.

(** A readiness check is asked about the replica count its own info
    reports. *)
Definition asksOwnReplicas (e : Event) : Prop :=
  match e with
  | EvCheckPartitionReady info partition _ => partition = Info_Status_Replicas info
  | _ => True
  end.

(** The pause signal is not lowered. *)
Definition keepsPause (st st' : State) : Prop :=
  paused st = true -> paused st' = true.

End Calls.

(** * What the recorded calls stand for

    A trace is read against the collaborators themselves.  Replaying it
    from a world makes, event after event, the operation the event
    stands for, on the arguments the event carries, and compares what
    the operation hands back with what the event says came back.  The
    objects an event does not carry, the workload accessor and the canary
    strategy of a target, are the ones the replay obtained itself. *)
Section Replay.
Context `{Collaborators} `{Constants}.

(** Where a replay stands. *)
Record Cursor := mkCursor {
  (* the world the calls so far have left *)
  at_world : World;
  (* the accessor the last lookup handed back, and the target it was for *)
  at_accessor : option (Target * WorkloadAccessor);
  (* the strategy the last strategy request handed back, and its target *)
  at_strategy : option (Target * CanaryStrategy);
  (* the strategies whose [CreateOrUpdate] went through and whose canary
     info was not asked for yet, with their targets, oldest first *)
  at_written : list (Target * CanaryStrategy);
  (* the canary info last handed back, and the target it is about *)
  at_info : option (Target * Info);
  (* the targets whose partition readiness was asked, with the answers *)
  at_checked : list (Target * bool)
}.

Definition start (w : World) : Cursor :=
  {| at_world := w; at_accessor := None; at_strategy := None;
     at_written := []; at_info := None; at_checked := [] |}.

Definition withWorld (w : World) (c : Cursor) : Cursor :=
  {| at_world := w; at_accessor := at_accessor c; at_strategy := at_strategy c;
     at_written := at_written c; at_info := at_info c; at_checked := at_checked c |}.

(** The method of the traffic manager that an operation name stands
    for. *)
Definition managerCall (op : string)
  : option (World -> (OperationResult * option GoError) * World) :=
  if String.eqb op "forkStable" then Some TrafficManager_ForkStable
  else if String.eqb op "forkCanary" then Some TrafficManager_ForkCanary
  else if String.eqb op "revertStable" then Some TrafficManager_RevertStable
  else if String.eqb op "revertCanary" then Some TrafficManager_RevertCanary
  else None.

(** The cursor after the call an event stands for. *)
Definition advance (ctx : ExecutorContext) (e : Event) (c : Cursor) : Cursor :=
  let w := at_world c in
  match e with
  | EvWith targets traffic => withWorld (TrafficManager_With targets traffic w) c
  | EvTraffic op _ _ =>
      match managerCall op with
      | Some method => withWorld (method w).2 c
      | None => c
      end
  | EvCheckReady _ => withWorld (TrafficManager_CheckReady w).2 c
  | EvGet item _ =>
      let r := Workloads_Get (Cluster (CrossClusterObjectNameReference_of item))
                             (Name (CrossClusterObjectNameReference_of item)) w in
      {| at_world := r.2; at_accessor := pair item <$> r.1; at_strategy := None;
         at_written := at_written c; at_info := at_info c; at_checked := at_checked c |}
  | EvCanaryStrategy item _ =>
      match at_accessor c with
      | Some (_, wi) =>
          let r := Workload_CanaryStrategy wi w in
          {| at_world := r.2; at_accessor := at_accessor c;
             at_strategy := match r.1 with
                            | inr cw => Some (item, cw)
                            | inl _ => None
                            end;
             at_written := at_written c; at_info := at_info c;
             at_checked := at_checked c |}
      | None => c
      end
  | EvInitialize _ rollout rolloutRun _ =>
      match at_strategy c with
      | Some (_, cw) => withWorld (Strategy_Initialize cw rollout rolloutRun w).2 c
      | None => c
      end
  | EvCreateOrUpdate _ replicas _ seen _ _ =>
      match at_strategy c with
      | Some (item, cw) =>
          let r := Strategy_CreateOrUpdate cw replicas seen w in
          {| at_world := r.2; at_accessor := at_accessor c; at_strategy := at_strategy c;
             at_written := match r.1.2 with
                           | None => at_written c ++ [(item, cw)]
                           | Some _ => at_written c
                           end;
             at_info := at_info c; at_checked := at_checked c |}
      | None => c
      end
  | EvGetCanaryInfo _ =>
      match at_written c with
      | (item, cw) :: rest =>
          let r := Strategy_GetCanaryInfo cw w in
          {| at_world := r.2; at_accessor := at_accessor c; at_strategy := at_strategy c;
             at_written := rest; at_info := Some (item, r.1);
             at_checked := at_checked c |}
      | [] => c
      end
  | EvCheckPartitionReady _ partition _ =>
      match at_info c with
      | Some (item, info) =>
          let r := Info_CheckPartitionReady info partition w in
          {| at_world := r.2; at_accessor := at_accessor c; at_strategy := at_strategy c;
             at_written := at_written c; at_info := None;
             at_checked := at_checked c ++ [(item, r.1)] |}
      | None => c
      end
  | EvDelete _ _ =>
      match at_strategy c with
      | Some (_, cw) => withWorld (Strategy_Delete cw w).2 c
      | None => c
      end
  | EvWebhook hook _ _ _ => withWorld (webhook_Do ctx hook w).2 c
  | EvPause | EvHandler _ => c
  end.

(** An event agrees with the call it stands for: the call is made for
    the target, on the object and with the arguments the event names, and
    hands back what the event says. *)
Definition agrees (ctx : ExecutorContext) (e : Event) (c : Cursor) : Prop :=
  let w := at_world c in
  match e with
  | EvWith _ _ => True
  | EvTraffic op result err =>
      ∃ method, managerCall op = Some method ∧ (method w).1 = (result, err)
  | EvCheckReady ready => (TrafficManager_CheckReady w).1 = ready
  | EvGet item found =>
      found = bool_decide
                (is_Some (Workloads_Get (Cluster (CrossClusterObjectNameReference_of item))
                                        (Name (CrossClusterObjectNameReference_of item)) w).1)
  | EvCanaryStrategy item err =>
      ∃ wi, at_accessor c = Some (item, wi) ∧ errOf (Workload_CanaryStrategy wi w).1 = err
  | EvInitialize item rollout rolloutRun err =>
      ∃ cw, at_strategy c = Some (item, cw) ∧
            (Strategy_Initialize cw rollout rolloutRun w).1 = err
  | EvCreateOrUpdate item replicas _ seen result err =>
      ∃ cw, at_strategy c = Some (item, cw) ∧
            (Strategy_CreateOrUpdate cw replicas seen w).1 = (result, err)
  | EvGetCanaryInfo cw => ∃ item rest, at_written c = (item, cw) :: rest
  | EvCheckPartitionReady info partition ready =>
      ∃ item, at_info c = Some (item, info) ∧
              (Info_CheckPartitionReady info partition w).1 = ready
  | EvDelete item err =>
      ∃ cw, at_strategy c = Some (item, cw) ∧ (Strategy_Delete cw w).1 = err
  | EvWebhook hook done retry err => (webhook_Do ctx hook w).1 = (done, retry, err)
  | EvPause | EvHandler _ => True
  end.

(** The cursor after the calls of a trace, made in order. *)
Fixpoint replay (ctx : ExecutorContext) (tr : list Event) (c : Cursor) : Cursor :=
  match tr with
  | [] => c
  | e :: tr => replay ctx tr (advance ctx e c)
  end.

(** Every event of the trace agrees with its call, made where the calls
    before it have left the replay. *)
Fixpoint sound (ctx : ExecutorContext) (tr : list Event) (c : Cursor) : Prop :=
  match tr with
  | [] => True
  | e :: tr => agrees ctx e c ∧ sound ctx tr (advance ctx e c)
  end.

(** A run from [st] to [st'] made the calls of [tr], these calls only
    and in this order: the trace is sound from the world of [st], and
    replaying it gives the world of [st']. *)
Definition madeCalls (ctx : ExecutorContext) (st : State) (tr : list Event) (st' : State)
  : Prop :=
  sound ctx tr (start (world st)) ∧
  at_world (replay ctx tr (start (world st))) = world st'.

(** The targets whose partition readiness a trace asks, with the
    answers. *)
Definition checkedTargets (ctx : ExecutorContext) (st : State) (tr : list Event)
  : list (Target * bool) :=
  at_checked (replay ctx tr (start (world st))).

(** The two readiness calls for one canary: the request for its info
    and the partition check on that info, asked with the replica count
    the info itself reports.  [a] is the strategy asked, the info it gave
    and the answer of the check. *)
Definition askCalls (a : CanaryStrategy * Info * bool) : list Event :=
  [EvGetCanaryInfo a.1.1;
   EvCheckPartitionReady a.1.2 (Info_Status_Replicas a.1.2) a.2].

End Replay.

Arguments Cursor {_}.

(** * A fleet that takes its time

    A second closed instance of the collaborators: every workload is
    there, nothing ever changes or fails, and the canaries are ready or
    not as the world says. *)
Module Slow.

Definition types : ExternalTypes := {|
  World := bool;
  WorkloadAccessor := string;
  CanaryStrategy := string;
  Info := string;
  TrafficStrategy := unit
|}.

#[global] Instance collaborators : @Collaborators types := {|
  inCanary := λ _ _, true;
  Workloads_Get := λ _ name (w : @World types), (Some name, w);
  Workload_CanaryStrategy := λ wi w, (inr wi, w);
  Strategy_Initialize := λ _ _ _ w, (None, w);
  Strategy_CreateOrUpdate := λ _ _ _ w, ((OperationResultNone, None), w);
  Strategy_GetCanaryInfo := λ s w, (s, w);
  Info_Status_Replicas := λ _, 3;
  Info_CheckPartitionReady := λ _ _ w, (w, w);
  Strategy_Delete := λ _ w, (None, w);
  TrafficManager_With := λ _ _ w, w;
  TrafficManager_ForkStable := λ w, ((OperationResultNone, None), w);
  TrafficManager_ForkCanary := λ w, ((OperationResultNone, None), w);
  TrafficManager_RevertStable := λ w, ((OperationResultNone, None), w);
  TrafficManager_RevertCanary := λ w, ((OperationResultNone, None), w);
  TrafficManager_CheckReady := λ w, (true, w);
  webhook_Do := λ _ _ w, ((true, 0, None), w)
|}.

(** Two targets, no traffic management, no patch. *)
Definition ctxTwo : @ExecutorContext types :=
  {| Rollout_Name := "rollout"; RolloutRun_Name := "run";
     Canary_Targets := [Sim.target "web"; Sim.target "api"];
     Canary_Traffic := None;
     Canary_PodTemplateMetadataPatch := None |}.

(** The canaries are not ready. *)
Definition stWaiting : @State types :=
  @mkState types false Sim.emptyHeap StepRunning false.

End Slow.

(** * The resource builder

    The base builder of test resources: [complete] fills in what the
    caller left empty.  The text of the UUID that [uuid.New()] draws when
    a name has to be made up is taken as given. *)
Module Builder.

Definition DefaultNamespace : string := "default".
Definition DefaultName : string := "test".
Definition DefaultAppName : string := "app".
Definition DefaultCluster : string := "cluster".

Record builder := mkBuilder {
  namespace : string;
  name : string;
  namePrefix : string;
  appName : string;
  cluster : string
}.

(** [fmt.Sprintf("%s-%s", prefix, uuid.New().String())]. *)
Definition randomName (uuid : string) (prefix : string) : string :=
  prefix +:+ "-" +:+ uuid.

Definition setName (n : string) (b : builder) : builder :=
  {| namespace := namespace b; name := n; namePrefix := namePrefix b;
     appName := appName b; cluster := cluster b |}.

Definition buildName (uuid : string) (b : builder) : builder :=
  if negb (String.eqb (name b) "") then b
  else if negb (String.eqb (namePrefix b) "") then setName (randomName uuid (namePrefix b)) b
  else setName (randomName uuid DefaultName) b.

Definition complete (uuid : string) (b : builder) : builder :=
  let b := buildName uuid b in
  let b := if String.eqb (namespace b) ""
           then {| namespace := DefaultNamespace; name := name b;
                   namePrefix := namePrefix b; appName := appName b;
                   cluster := cluster b |}
           else b in
  let b := if String.eqb (appName b) ""
           then {| namespace := namespace b; name := name b;
                   namePrefix := namePrefix b; appName := DefaultAppName;
                   cluster := cluster b |}
           else b in
  if String.eqb (cluster b) ""
  then {| namespace := namespace b; name := name b;
          namePrefix := namePrefix b; appName := appName b;
          cluster := DefaultCluster |}
  else b.

End Builder.

(** * Random strings

    [utils.RandStr]: the time, in the layout ["20060102150405"], followed
    by a number drawn by [rand.Intn(999)].  The text of the time and the
    number drawn are taken as given. *)
Module Utils.

Definition RandStr (now : string) (drawn : Z) : string :=
  let randNum := drawn in
  let randNum := if randNum <? 100 then randNum + 100 else randNum in
  now +:+ pretty randNum.

End Utils.

(** * Properties *)

Section Properties.
Context `{Collaborators} `{Constants}.

(** ** Running a computation step by step *)

(** Splits a goal about every event of an explicit list into one goal per
    event. *)
Ltac each_event :=
  repeat match goal with
         | |- Forall _ [] => apply List.Forall_nil
         | |- Forall _ (_ :: _) => apply List.Forall_cons
         end.

Lemma run_bind {A B : Type} (m : Exec A) (f : A -> Exec B) (st : State) :
  (m ≫= f) st =
  let '(a, st1, tr1) := m st in
  let '(b, st2, tr2) := f a st1 in
  (b, st2, tr1 ++ tr2).
Proof. reflexivity. Qed.

Lemma run_ret {A : Type} (a : A) (st : State) : (mret a : Exec A) st = (a, st, []).
Proof. reflexivity. Qed.

Lemma run_call {R : Type} (op : World -> R * World) (ev : R -> Event) (st : State) :
  call op ev st = ((op (world st)).1, setWorld (op (world st)).2 st, [ev (op (world st)).1]).
Proof. unfold call. destruct (op (world st)); reflexivity. Qed.

(** Runs the collaborator call at the head of the computation in the goal
    and names what it hands back. *)
Tactic Notation "run_call_as" simple_intropattern(pat) :=
  rewrite run_call; cbn [world setWorld];
  match goal with
  | |- context [(?f ?w).1] => destruct (f w) as pat
  end; cbn [fst snd].

Lemma sameContext_refl st : sameContext st st.
Proof. by repeat split. Qed.

Lemma sameContext_trans st1 st2 st3 :
  sameContext st1 st2 -> sameContext st2 st3 -> sameContext st1 st3.
Proof. intros (?&?&?) (?&?&?); repeat split; congruence. Qed.

Lemma sameContext_setWorld w st : sameContext st (setWorld w st).
Proof. by repeat split. Qed.

(** ** modifyTraffic *)

Lemma modifyTraffic_no_traffic ctx op st :
  Canary_Traffic ctx = None ->
  modifyTraffic ctx op st = ((true, retryImmediately), st, []).
Proof. intros E. unfold modifyTraffic. rewrite E. reflexivity. Qed.

Lemma modifyTraffic_with_traffic ctx op st t method :
  Canary_Traffic ctx = Some t ->
  traffic_method op = Some method ->
  modifyTraffic ctx op st =
  let '((result, err), w1) := method (world st) in
  match err with
  | Some _ => ((false, retryDefault), setWorld w1 st, [EvTraffic op result err])
  | None =>
      if String.eqb result OperationResultNone then
        let '(ready, w2) := TrafficManager_CheckReady w1 in
        ((ready, if ready then retryImmediately else retryDefault),
         setWorld w2 st, [EvTraffic op result None; EvCheckReady ready])
      else ((false, retryDefault), setWorld w1 st, [EvTraffic op result None])
  end.
Proof.
  intros E M. unfold modifyTraffic, traffic_call. rewrite E, M.
  rewrite run_bind, run_call.
  destruct (method (world st)) as [[result err] w1]; simpl.
  destruct err as [err|]; [reflexivity|].
  destruct (String.eqb result OperationResultNone); simpl; [|reflexivity].
  rewrite run_bind, run_call; simpl.
  destruct (TrafficManager_CheckReady w1) as [[] w2]; reflexivity.
Qed.

(** Whatever the operation name: only traffic events, the executor's own
    state untouched, and done exactly when no traffic problem showed
    up. *)
Lemma modifyTraffic_outcome ctx op st done retry st' tr :
  modifyTraffic ctx op st = ((done, retry), st', tr) ->
  Forall (λ e, isTrafficEvent e = true) tr ∧
  Forall (λ e, isTrafficOp op e = true ∨ ∃ b, e = EvCheckReady b) tr ∧
  sameContext st st' ∧
  done = negb (existsb trafficProblem tr) ∧
  retry = (if done then retryImmediately else retryDefault).
Proof.
  unfold modifyTraffic, traffic_call.
  assert (T : ∀ res err, isTrafficOp op (EvTraffic op res err) = true)
    by (intros; simpl; apply String.eqb_refl).
  destruct (Canary_Traffic ctx) as [t|];
    [destruct (traffic_method op) as [method|]|].
  - rewrite run_bind, run_call.
    destruct (method (world st)) as [[result err] w1]; simpl.
    destruct err as [err|].
    { intros [= <- <- <- <-].
      split_and!; try (by unfold sameContext); each_event; eauto. }
    destruct (String.eqb result OperationResultNone) eqn:R; simpl.
    + rewrite run_bind, run_call; simpl.
      destruct (TrafficManager_CheckReady w1) as [ready w2]; simpl.
      destruct ready; simpl; intros [= <- <- <- <-];
        (split_and!; try (by unfold sameContext);
         [each_event; eauto | each_event; eauto | simpl; by rewrite R]).
    + intros [= <- <- <- <-].
      split_and!; try (by unfold sameContext);
        [each_event; eauto | each_event; eauto | simpl; by rewrite R].
  - rewrite run_bind, run_ret. simpl.
    rewrite run_bind, run_call; simpl.
    destruct (TrafficManager_CheckReady (world st)) as [ready w2]; simpl.
    destruct ready; simpl; intros [= <- <- <- <-];
      (split_and!; try (by unfold sameContext); each_event; eauto).
  - intros [= <- <- <- <-]. split_and!; try (by unfold sameContext).
Qed.

(** ** doInit *)

(** How a run of the loop of [doInit] ends: either it went through all
    items, each one resolved and initialized, or it stopped at one item,
    after going through the items before it, on the call that failed. *)
Lemma doInit_loop_run ctx items st r st' tr :
  doInit_loop ctx items st = (r, st', tr) ->
  sameContext st st' ∧
  Forall (λ e, isInitEvent e = true) tr ∧
  match r with
  | None =>
      omap resolved tr = items ∧ omap initCall tr = items ∧ omap initOk tr = items ∧
      Forall (λ e, isFatalEvent e = false) tr
  | Some res =>
      ∃ pre item post tr0 last,
        items = pre ++ item :: post ∧ tr = tr0 ++ [last] ∧
        omap initOk tr0 = pre ∧ omap initCall tr0 = pre ∧
        Forall (λ e, isFatalEvent e = false) tr0 ∧
        ((last = EvGet item false ∧
          res = fatal ReasonWorkloadInterfaceNotExist (notExistMessage item))
         ∨ (∃ err, last = EvCanaryStrategy item (Some err) ∧
                   res = fatal "InternalError" ("failed to get canary strategy, err: " +:+ err))
         ∨ (∃ err, last = EvInitialize item (Rollout_Name ctx) (RolloutRun_Name ctx) (Some err) ∧
                   res = fatal "InitializeFailed"
                           ("failed to initialize canary strategy, err: " +:+ err)))
  end.
Proof.
  revert st r st' tr. induction items as [|item rest IH]; intros st r st' tr.
  - simpl. intros [= <- <- <-]. split_and!; try (by unfold sameContext); constructor.
  - simpl. rewrite run_bind. unfold get_workload at 1. run_call_as [[wi|] w1]; simpl.
    + rewrite run_bind. unfold get_strategy at 1. run_call_as [[err|cs] w2]; simpl.
      * intros [= <- <- <-]. split_and!; try (by unfold sameContext); [each_event; auto|].
        exists [], item, rest, [EvGet item true], (EvCanaryStrategy item (Some err)).
        split_and!; auto; try (each_event; by auto); eauto 8.
      * rewrite run_bind. run_call_as [[err|] w3]; simpl.
        -- intros [= <- <- <-]. split_and!; try (by unfold sameContext); [each_event; auto|].
           exists [], item, rest, [EvGet item true; EvCanaryStrategy item None],
             (EvInitialize item (Rollout_Name ctx) (RolloutRun_Name ctx) (Some err)).
           split_and!; auto; try (each_event; by auto); eauto 8.
        -- destruct (doInit_loop ctx rest _) as [[r1 st1] tr1] eqn:E.
           intros [= <- <- <-]. apply IH in E as (S & F & R).
           split_and!.
           ++ eapply sameContext_trans; [|exact S]. by unfold sameContext.
           ++ each_event; auto.
           ++ destruct r1 as [res|].
              ** destruct R as (pre & it & post & tr0 & last & -> & -> & I1 & I2 & NF & R).
                 exists (item :: pre), it, post,
                   ([EvGet item true; EvCanaryStrategy item None;
                     EvInitialize item (Rollout_Name ctx) (RolloutRun_Name ctx) None] ++ tr0), last.
                 split_and!; auto; simpl;
                   [f_equal; exact I1 | f_equal; exact I2 | each_event; auto].
              ** destruct R as (R1 & R2 & R3 & NF).
                 split_and!; simpl;
                   [f_equal; exact R1 | f_equal; exact R2 | f_equal; exact R3
                   | each_event; auto].
    + intros [= <- <- <-]. split_and!; try (by unfold sameContext); [each_event; auto|].
      exists [], item, rest, [], (EvGet item false). split_and!; auto.
Qed.

(** An event that is fatal cannot sit in a part of the trace that has
    no fatal event. *)
Lemma not_fatal_elem (tr : list Event) e :
  Forall (λ e, isFatalEvent e = false) tr -> e ∈ tr -> isFatalEvent e = true -> False.
Proof.
  intros F In Fe. rewrite Forall_forall in F. specialize (F e In). congruence.
Qed.

(** C3. Whenever a workload lookup made by [doInit] comes back nil,
    [doInit] returns at once with [(false, retryStop, err)], [err] being
    the structured error of code [DoCanaryError] and reason
    [ReasonWorkloadInterfaceNotExist]: the lookup is the last call made;
    [Initialize] was called for the targets before that one, each call
    succeeding, and for no other target; nothing but lookups, strategy
    requests and [Initialize] calls was made, so no earlier initialization
    is undone.  And when every target resolved and the [Initialize] of
    every target succeeded, [doInit] returns [(true, retryDefault, nil)]. *)
Theorem doInit_fail_fast ctx st r st' tr :
  doInit ctx st = (r, st', tr) ->
  (∀ item, EvGet item false ∈ tr ->
     r = (false, retryStop,
          Some (StructuredError {| Code := "DoCanaryError";
                                   Reason := ReasonWorkloadInterfaceNotExist;
                                   Message := notExistMessage item |})) ∧
     ∃ pre post tr0,
       Canary_Targets ctx = pre ++ item :: post ∧
       tr = tr0 ++ [EvGet item false] ∧
       omap initCall tr = pre ∧ omap initOk tr = pre ∧
       Forall (λ e, isInitEvent e = true) tr) ∧
  (omap resolved tr = Canary_Targets ctx ->
   omap initOk tr = Canary_Targets ctx ->
   r = (true, retryDefault, None)).
Proof.
  unfold doInit. rewrite run_bind.
  destruct (doInit_loop ctx (Canary_Targets ctx) st) as [[lr st1] tr1] eqn:E.
  apply doInit_loop_run in E as (S & F & R).
  destruct lr as [res|]; simpl; rewrite app_nil_r; intros [= <- <- <-].
  - destruct R as (pre & it & post & tr0 & last & Eq & -> & I1 & I2 & NF & R).
    assert (L : omap initOk [last] = [] ∧ omap initCall [last] = [] ∨
                omap initOk [last] = [] ∧ ∃ err, last = EvInitialize it (Rollout_Name ctx)
                                                     (RolloutRun_Name ctx) (Some err)).
    { destruct R as [[-> _]|[(err & -> & _)|(err & -> & _)]]; eauto. }
    split.
    + intros item In. apply elem_of_app in In as [In|In].
      { exfalso. eapply not_fatal_elem; eauto. }
      apply list_elem_of_singleton in In. subst last.
      destruct R as [[[= ->] ->]|[(err & [=] & _)|(err & [=] & _)]].
      split; [reflexivity|].
      exists pre, post, tr0. split_and!; auto.
      * rewrite omap_app, I2. simpl. apply app_nil_r.
      * rewrite omap_app, I1. simpl. apply app_nil_r.
    + intros _ Ok. exfalso.
      rewrite omap_app, I1 in Ok.
      assert (Ol : omap initOk [last] = []) by (destruct L as [[? _]|[? _]]; auto).
      rewrite Ol, app_nil_r, Eq in Ok.
      apply (f_equal length) in Ok. rewrite length_app in Ok. simpl in Ok. lia.
  - destruct R as (R1 & R2 & R3 & NF). split; [|reflexivity].
    intros item In. exfalso. eapply not_fatal_elem; eauto.
Qed.

(** ** Do *)

(** C6. When the rollout-run is not in a canary phase, [Do] returns
    [(true, Result{Requeue: true}, nil)]; it makes no call at all, so no
    step handler runs and the traffic manager is not bound, and the state
    is left as it was. *)
Theorem Do_pass_through (e : canaryExecutor) ctx st :
  inCanary ctx st = false ->
  Do e ctx st = ((true, {| Requeue := true; RequeueAfter := 0 |}, None), st, []).
Proof. intros E. unfold Do. rewrite E. reflexivity. Qed.

(** ** doPostStepHook *)

(** The whole of [doPostStepHook], in one equation. *)
Lemma doPostStepHook_run ctx st :
  doPostStepHook ctx st =
  let '((done, retry, err), w) := webhook_Do ctx PostCanaryStepHook (world st) in
  ((done, retry, err),
   (if done then raised (setWorld w st) else setWorld w st),
   EvWebhook PostCanaryStepHook done retry err :: (if done then [EvPause] else [])).
Proof.
  unfold doPostStepHook, do_webhook. rewrite run_bind, run_call.
  destruct (webhook_Do ctx PostCanaryStepHook (world st)) as [[[done retry] err] w].
  cbn [fst snd]. destruct done; reflexivity.
Qed.

(** C8. When the webhook executor reports done, [doPostStepHook] raises
    the pause signal, by exactly one call of [Pause], and hands back the
    webhook's result unchanged; when the webhook reports not done, no call
    of [Pause] is made, the signal stays as it was, and the result is
    handed back unchanged as well. *)
Theorem doPostStepHook_pauses_once ctx st done retry err w :
  webhook_Do ctx PostCanaryStepHook (world st) = ((done, retry, err), w) ->
  ∃ st' tr,
    doPostStepHook ctx st = ((done, retry, err), st', tr) ∧
    (done = true -> length (filter (λ e, isPause e = true) tr) = 1%nat ∧ paused st' = true) ∧
    (done = false -> filter (λ e, isPause e = true) tr = [] ∧ paused st' = paused st).
Proof.
  intros E. rewrite doPostStepHook_run, E.
  eexists _, _. split; [reflexivity|].
  split; intros ->; split; reflexivity.
Qed.

(** C9. A webhook result that is done and carries an error both pauses
    the rollout-run and surfaces the error; in general the pause signal
    after [doPostStepHook] is decided by the done flag alone, whatever
    the error. *)
Theorem doPostStepHook_pause_ignores_error ctx st :
  (∀ retry e w,
     webhook_Do ctx PostCanaryStepHook (world st) = ((true, retry, Some e), w) ->
     doPostStepHook ctx st =
     ((true, retry, Some e), raised (setWorld w st),
      [EvWebhook PostCanaryStepHook true retry (Some e); EvPause])) ∧
  (∀ done retry err w,
     webhook_Do ctx PostCanaryStepHook (world st) = ((done, retry, err), w) ->
     paused (doPostStepHook ctx st).1.2 = done || paused st ∧
     (EvPause ∈ (doPostStepHook ctx st).2 ↔ done = true)).
Proof.
  split.
  - intros retry e w E. rewrite doPostStepHook_run, E. reflexivity.
  - intros done retry err w E. rewrite doPostStepHook_run, E.
    destruct done; simpl; split; try reflexivity.
    + split; [reflexivity|]. intros _. apply elem_of_cons. right. apply elem_of_cons. by left.
    + split; [|discriminate]. intros In.
      apply list_elem_of_singleton in In. discriminate.
Qed.

(** ** doRecycle *)

(** How a run of the loop of [doRecycle] ends. *)
Lemma doRecycle_loop_run items st r st' tr :
  doRecycle_loop items st = (r, st', tr) ->
  sameContext st st' ∧
  Forall (λ e, isRecycleEvent e = true) tr ∧
  match r with
  | None => omap deleteOk tr = items ∧ Forall (λ e, isFatalEvent e = false) tr
  | Some res =>
      ∃ pre item post tr0 last,
        items = pre ++ item :: post ∧ tr = tr0 ++ [last] ∧
        omap deleteOk tr0 = pre ∧
        Forall (λ e, isFatalEvent e = false) tr0 ∧
        ((last = EvGet item false ∧
          res = fatal ReasonWorkloadInterfaceNotExist (notExistMessage item))
         ∨ (∃ err, last = EvCanaryStrategy item (Some err) ∧
                   res = fatal "InternalError" ("failed to get canary strategy, err: " +:+ err))
         ∨ (∃ err, last = EvDelete item (Some err) ∧
                   res = fatal "DeleteFailed" (deleteFailedMessage item err)))
  end.
Proof.
  revert st r st' tr. induction items as [|item rest IH]; intros st r st' tr.
  - simpl. intros [= <- <- <-]. split_and!; try (by unfold sameContext); constructor.
  - simpl. rewrite run_bind. unfold get_workload at 1. run_call_as [[wi|] w1]; simpl.
    + rewrite run_bind. unfold get_strategy at 1. run_call_as [[err|cs] w2]; simpl.
      * intros [= <- <- <-]. split_and!; try (by unfold sameContext); [each_event; auto|].
        exists [], item, rest, [EvGet item true], (EvCanaryStrategy item (Some err)).
        split_and!; auto; try (each_event; by auto); eauto 8.
      * rewrite run_bind. run_call_as [[err|] w3]; simpl.
        -- intros [= <- <- <-]. split_and!; try (by unfold sameContext); [each_event; auto|].
           exists [], item, rest, [EvGet item true; EvCanaryStrategy item None],
             (EvDelete item (Some err)).
           split_and!; auto; try (each_event; by auto); eauto 8.
        -- destruct (doRecycle_loop rest _) as [[r1 st1] tr1] eqn:E.
           intros [= <- <- <-]. apply IH in E as (S & F & R).
           split_and!.
           ++ eapply sameContext_trans; [|exact S]. by unfold sameContext.
           ++ each_event; auto.
           ++ destruct r1 as [res|].
              ** destruct R as (pre & it & post & tr0 & last & -> & -> & I1 & NF & R).
                 exists (item :: pre), it, post,
                   ([EvGet item true; EvCanaryStrategy item None; EvDelete item None] ++ tr0),
                   last.
                 split_and!; auto; simpl; [f_equal; exact I1 | each_event; auto].
              ** destruct R as (R1 & NF).
                 split_and!; simpl; [f_equal; exact R1 | each_event; auto].
    + intros [= <- <- <-]. split_and!; try (by unfold sameContext); [each_event; auto|].
      exists [], item, rest, [], (EvGet item false). split_and!; auto.
Qed.

Lemma Forall_weaken {A : Type} (P Q : A -> Prop) (l : list A) :
  (∀ x, P x -> Q x) -> Forall P l -> Forall Q l.
Proof. intros PQ F. eapply Forall_impl; eauto. Qed.

(** ** The patch augmentation *)

Lemma readMap_mapStore m k v h : readMap (mapStore m k v h) m = <[k := v]> (readMap h m).
Proof. unfold readMap, mapStore. simpl. apply lookup_total_insert_eq. Qed.

(** The augmentation, step by step: the patch it works on, the labels map
    it writes into, and the two writes. *)
Lemma appendBuiltin_run patch h :
  appendBuiltinPodTemplateMetadataPatch patch h =
  let ph := match patch with None => allocPatch h | Some p => (p, h) end in
  let mh := match Labels (patches ph.2 !!! ph.1) with
            | None => ((allocMap ph.2).1, setLabels ph.1 (allocMap ph.2).1 (allocMap ph.2).2)
            | Some m => (m, ph.2)
            end in
  (ph.1, mapStore mh.1 LabelPodRevision "canary" (mapStore mh.1 LabelCanary "true" mh.2)).
Proof.
  unfold appendBuiltinPodTemplateMetadataPatch.
  destruct patch as [p|]; simpl.
  - destruct (Labels (patches h !!! p)); reflexivity.
  - destruct (Labels _); reflexivity.
Qed.

(** After the augmentation the patch has a labels map, and that map binds
    the two built-in keys. *)
Lemma appendBuiltin_labels patch h p h' :
  appendBuiltinPodTemplateMetadataPatch patch h = (p, h') ->
  LabelCanary ≠ LabelPodRevision ->
  ∃ labels, viewLabels (readPatch h' p) = Some labels ∧
            labels !! LabelCanary = Some "true" ∧
            labels !! LabelPodRevision = Some "canary".
Proof.
  rewrite appendBuiltin_run. cbv zeta.
  set (ph := match patch with None => allocPatch h | Some p => (p, h) end).
  intros E Ne.
  assert (L : ∃ m h2, (match Labels (patches ph.2 !!! ph.1) with
                       | None => ((allocMap ph.2).1,
                                  setLabels ph.1 (allocMap ph.2).1 (allocMap ph.2).2)
                       | Some m => (m, ph.2)
                       end) = (m, h2) ∧ Labels (patches h2 !!! ph.1) = Some m).
  { destruct (Labels (patches ph.2 !!! ph.1)) as [m|] eqn:L; [by eauto|].
    eexists _, _. split; [reflexivity|].
    unfold setLabels. simpl. by rewrite lookup_total_insert_eq. }
  destruct L as (m & h2 & Eq & L). rewrite Eq in E. simpl in E.
  injection E as <- <-.
  exists (<[LabelPodRevision := "canary"]> (<[LabelCanary := "true"]> (readMap h2 m))).
  split_and!.
  - unfold readPatch. cbn [viewLabels patches mapStore]. rewrite L. simpl.
    by rewrite !readMap_mapStore.
  - rewrite lookup_insert_ne by auto. apply lookup_insert_eq.
  - apply lookup_insert_eq.
Qed.

(** ** doCanary *)

Lemma updateNoop_all (tr : list Event) :
  Forall (λ e, isFatalEvent e = false) tr ->
  existsb isChange tr = false ->
  omap updateNoop tr = omap updateCall tr.
Proof.
  induction tr as [|e tr IH]; [done|].
  intros F C. apply Forall_cons in F as [Fe F]. simpl in C.
  apply orb_false_iff in C as [Ce C]. specialize (IH F C).
  destruct e; simpl in *; try exact IH.
  destruct err; [discriminate|].
  apply negb_false_iff in Ce. rewrite Ce. f_equal. exact IH.
Qed.

(** How a run of the loop 2.a of [doCanary] ends. *)
Lemma doCanary_loop_run patch items changed cws st lr st' tr :
  doCanary_loop patch items changed cws st = (lr, st', tr) ->
  sameContext st st' ∧
  Forall (λ e, isUpdateEvent e = true) tr ∧
  Forall (given patch (readPatch (heap st) patch)) tr ∧
  match lr with
  | inr (changed', cws') =>
      omap updateCall tr = items ∧
      Forall (λ e, isFatalEvent e = false) tr ∧
      changed' = changed || existsb isChange tr ∧
      length cws' = (length cws + length items)%nat
  | inl res =>
      ∃ tr0 last,
        tr = tr0 ++ [last] ∧ Forall (λ e, isFatalEvent e = false) tr0 ∧
        isFatalEvent last = true ∧ ∃ reason msg, res = fatal reason msg
  end.
Proof.
  revert changed cws st lr st' tr.
  induction items as [|item rest IH]; intros changed cws st lr st' tr.
  - simpl. intros [= <- <- <-].
    split_and!; try (by unfold sameContext); try constructor.
    simpl. by rewrite orb_false_r.
  - simpl. rewrite run_bind. unfold get_workload at 1. run_call_as [[wi|] w1]; simpl.
    + rewrite run_bind. unfold get_strategy at 1. run_call_as [[err|cs] w2]; simpl.
      * intros [= <- <- <-].
        split_and!; try (by unfold sameContext); try (each_event; by auto).
        exists [EvGet item true], (EvCanaryStrategy item (Some err)).
        split_and!; auto; try (each_event; by auto); eauto.
      * rewrite run_bind. unfold getHeap at 1. cbn [heap setWorld].
        rewrite run_bind. run_call_as [[result [err|]] w3]; simpl.
        -- intros [= <- <- <-].
           split_and!; try (by unfold sameContext); try (each_event; by (simpl; auto)).
           exists [EvGet item true; EvCanaryStrategy item None],
             (EvCreateOrUpdate item (Replicas item) patch (readPatch (heap st) patch)
                result (Some err)).
           split_and!; auto; try (each_event; by auto); eauto.
        -- destruct (doCanary_loop patch rest _ _ _) as [[r1 st1] tr1] eqn:E.
           intros [= <- <- <-]. apply IH in E as (S & F & G & R).
           cbn [heap setWorld] in G.
           split_and!.
           ++ eapply sameContext_trans; [|exact S]. by unfold sameContext.
           ++ each_event; auto.
           ++ each_event; simpl; auto.
           ++ destruct r1 as [res|[changed' cws']].
              ** destruct R as (tr0 & last & -> & NF & FL & R).
                 exists ([EvGet item true; EvCanaryStrategy item None;
                          EvCreateOrUpdate item (Replicas item) patch
                            (readPatch (heap st) patch) result None] ++ tr0), last.
                 split_and!; auto. simpl. each_event; auto.
              ** destruct R as (R1 & NF & -> & Len).
                 split_and!.
                 --- simpl. f_equal. exact R1.
                 --- each_event; auto.
                 --- simpl. destruct (negb (String.eqb result OperationResultNone));
                       simpl; by rewrite ?orb_true_r.
                 --- rewrite Len, length_app. simpl. lia.
    + intros [= <- <- <-].
      split_and!; try (by unfold sameContext); try (each_event; by auto).
      exists [], (EvGet item false). split_and!; auto; eauto.
Qed.

(** How a run of the loop 2.b of [doCanary] ends. *)
Lemma doCanary_ready_loop_run cws st r st' tr :
  doCanary_ready_loop cws st = (r, st', tr) ->
  sameContext st st' ∧
  Forall (λ e, isReadinessCheck e = true) tr ∧
  (cws ≠ [] -> tr ≠ []) ∧
  match r with
  | None =>
      existsb notReady tr = false ∧
      length (filter (λ e, saidReady e = true) tr) = length cws
  | Some res =>
      res = (false, retryDefault, None) ∧ existsb notReady tr = true
  end.
Proof.
  revert st r st' tr. induction cws as [|cw rest IH]; intros st r st' tr.
  - simpl. intros [= <- <- <-]. split_and!; try (by unfold sameContext); try constructor; done.
  - simpl. rewrite run_bind. run_call_as [info w1]; simpl.
    rewrite run_bind. run_call_as [[] w2]; simpl.
    + destruct (doCanary_ready_loop rest _) as [[r1 st1] tr1] eqn:E.
      intros [= <- <- <-]. apply IH in E as (S & F & _ & R).
      split_and!.
      * eapply sameContext_trans; [|exact S]. by unfold sameContext.
      * each_event; auto.
      * done.
      * destruct r1; [exact R|]. destruct R as [R1 R2]. split; [exact R1|].
        rewrite filter_cons_False by (simpl; congruence).
        rewrite filter_cons_True by done. simpl. f_equal. exact R2.
    + intros [= <- <- <-].
      split_and!; try (by unfold sameContext); try done. each_event; auto.
Qed.

(** The shape of a run of [doCanary]: which of its steps ran, on which
    state, and what each one gave. *)
Lemma doCanary_run ctx st (r : HandlerResult) st' tr :
  doCanary ctx st = (r, st', tr) ->
  ∃ (done1 : bool) st1 tr1,
    modifyTraffic ctx "forkStable" st
      = ((done1, if done1 then retryImmediately else retryDefault), st1, tr1) ∧
    if done1 then
      let ph := appendBuiltinPodTemplateMetadataPatch
                  (Canary_PodTemplateMetadataPatch ctx) (heap st1) in
      ∃ lr st2 tr2,
        doCanary_loop ph.1 (Canary_Targets ctx) false [] (setHeap ph.2 st1) = (lr, st2, tr2) ∧
        match lr with
        | inl res => r = res ∧ st' = st2 ∧ tr = tr1 ++ tr2
        | inr (true, _) => r = (false, retryDefault, None) ∧ st' = st2 ∧ tr = tr1 ++ tr2
        | inr (false, cws) =>
            ∃ rr st3 tr3,
              doCanary_ready_loop cws st2 = (rr, st3, tr3) ∧
              match rr with
              | Some res => r = res ∧ st' = st3 ∧ tr = tr1 ++ tr2 ++ tr3
              | None =>
                  ∃ (done4 : bool) tr4,
                    modifyTraffic ctx "forkCanary" st3
                      = ((done4, if done4 then retryImmediately else retryDefault), st', tr4) ∧
                    tr = tr1 ++ tr2 ++ tr3 ++ tr4 ∧
                    r = (done4, if done4 then retryImmediately else retryDefault, None)
              end
        end
    else r = (false, retryDefault, None) ∧ st' = st1 ∧ tr = tr1.
Proof.
  unfold doCanary. rewrite run_bind.
  destruct (modifyTraffic ctx "forkStable" st) as [[[done1 d1] st1] tr1] eqn:E1.
  pose proof (modifyTraffic_outcome _ _ _ _ _ _ _ E1) as (_ & _ & _ & _ & ->).
  destruct done1; simpl.
  2:{ rewrite app_nil_r. intros [= <- <- <-]. by exists false, st1, tr1. }
  rewrite run_bind. unfold onHeap at 1.
  destruct (appendBuiltinPodTemplateMetadataPatch _ (heap st1)) as [patch h2] eqn:EA.
  rewrite run_bind. cbn [fst snd].
  destruct (doCanary_loop patch (Canary_Targets ctx) false [] (setHeap h2 st1))
    as [[lr st2] tr2] eqn:E2.
  destruct lr as [res|[[] cws]]; simpl.
  - rewrite app_nil_r. intros [= <- <- <-].
    exists true, st1, tr1. split; [done|]. rewrite EA. cbn [fst snd].
    eexists _, _, _. split; [exact E2|]. done.
  - rewrite app_nil_r. intros [= <- <- <-].
    exists true, st1, tr1. split; [done|]. rewrite EA. cbn [fst snd].
    eexists _, _, _. split; [exact E2|]. done.
  - rewrite run_bind.
    destruct (doCanary_ready_loop cws st2) as [[rr st3] tr3] eqn:E3.
    destruct rr as [res|]; simpl.
    + rewrite app_nil_r. intros [= <- <- <-].
      exists true, st1, tr1. split; [done|]. rewrite EA. cbn [fst snd].
      eexists _, _, _. split; [exact E2|].
      eexists _, _, _. split; [exact E3|]. done.
    + rewrite run_bind.
      destruct (modifyTraffic ctx "forkCanary" st3) as [[[done4 d4] st4] tr4] eqn:E4.
      pose proof (modifyTraffic_outcome _ _ _ _ _ _ _ E4) as (_ & _ & _ & _ & ->).
      destruct done4 eqn:D4; simpl; rewrite app_nil_r; intros [= <- <- <-];
        (exists true, st1, tr1; split; [done|]; rewrite EA; cbn [fst snd];
         eexists _, _, _; split; [exact E2|];
         eexists _, _, _; split; [exact E3|]).
      * exists true, tr4. by split_and!.
      * exists false, tr4. by split_and!.
Qed.

Lemma existsb_none (f : Event -> bool) (tr : list Event) :
  Forall (λ e, f e = false) tr -> existsb f tr = false.
Proof.
  induction 1 as [|e tr Fe _ IH]; [done|]. simpl. by rewrite Fe, IH.
Qed.

(** No event of one class is an event of another: [f] is false on every
    event of [tr] as soon as every event of [tr] is in a class on which
    [f] is false. *)
Lemma existsb_other (f g : Event -> bool) (tr : list Event) :
  (∀ e, g e = true -> f e = false) ->
  Forall (λ e, g e = true) tr -> existsb f tr = false.
Proof.
  intros FG F. apply existsb_none. eapply Forall_weaken; [|exact F]. auto.
Qed.

Ltac by_class := let e := fresh "e" in intros e; destruct e; simpl; intuition congruence.

(** ** Traffic problems seen from the handlers *)

Lemma doCanary_traffic_problem ctx st (r : HandlerResult) st' tr :
  doCanary ctx st = (r, st', tr) ->
  existsb trafficProblem tr = true ->
  r = (false, retryDefault, None).
Proof.
  intros Run. apply doCanary_run in Run as (done1 & st1 & tr1 & E1 & Run).
  pose proof (modifyTraffic_outcome _ _ _ _ _ _ _ E1) as (_ & _ & _ & D1 & _).
  destruct done1; [|by destruct Run as (-> & _)].
  symmetry in D1. apply negb_true_iff in D1.
  cbv zeta in Run. destruct Run as (lr & st2 & tr2 & E2 & Run).
  apply doCanary_loop_run in E2 as (_ & F2 & _ & _).
  assert (P2 : existsb trafficProblem tr2 = false)
    by (eapply existsb_other; [|exact F2]; by_class).
  destruct lr as [res|[[] cws]].
  - destruct Run as (_ & _ & ->). rewrite existsb_app, D1, P2. discriminate.
  - by destruct Run as (-> & _).
  - destruct Run as (rr & st3 & tr3 & E3 & Run).
    apply doCanary_ready_loop_run in E3 as (_ & F3 & _ & R3).
    assert (P3 : existsb trafficProblem tr3 = false)
      by (eapply existsb_other; [|exact F3]; by_class).
    destruct rr as [res|].
    + destruct Run as (-> & _). by destruct R3 as (-> & _).
    + destruct Run as (done4 & tr4 & E4 & -> & ->).
      pose proof (modifyTraffic_outcome _ _ _ _ _ _ _ E4) as (_ & _ & _ & D4 & _).
      destruct done4; [|done].
      symmetry in D4. apply negb_true_iff in D4.
      rewrite !existsb_app, D1, P2, P3, D4. discriminate.
Qed.

Lemma doRecycle_traffic_problem ctx st (r : HandlerResult) st' tr :
  doRecycle ctx st = (r, st', tr) ->
  existsb trafficProblem tr = true ->
  r = (false, retryDefault, None).
Proof.
  unfold doRecycle. rewrite run_bind.
  destruct (modifyTraffic ctx "revertCanary" st) as [[[done1 d1] st1] tr1] eqn:E1.
  pose proof (modifyTraffic_outcome _ _ _ _ _ _ _ E1) as (_ & _ & _ & D1 & ->).
  destruct done1; simpl; [|by intros [= <- <- <-]].
  symmetry in D1. apply negb_true_iff in D1.
  rewrite run_bind.
  destruct (doRecycle_loop (Canary_Targets ctx) st1) as [[lr st2] tr2] eqn:E2.
  apply doRecycle_loop_run in E2 as (_ & F2 & _).
  assert (P2 : existsb trafficProblem tr2 = false)
    by (eapply existsb_other; [|exact F2]; by_class).
  destruct lr as [res|]; simpl.
  - rewrite app_nil_r. intros [= <- <- <-]. rewrite existsb_app, D1, P2. discriminate.
  - rewrite run_bind.
    destruct (modifyTraffic ctx "revertStable" st2) as [[[done3 d3] st3] tr3] eqn:E3.
    pose proof (modifyTraffic_outcome _ _ _ _ _ _ _ E3) as (_ & _ & _ & D3 & ->).
    destruct done3; simpl; rewrite app_nil_r; intros [= <- <- <-]; [|done].
    symmetry in D3. apply negb_true_iff in D3.
    rewrite !existsb_app, D1, P2, D3. discriminate.
Qed.

(** C5. For each of the four traffic operations, with traffic management
    in the rollout-run spec: when the manager call fails or comes back
    with a result other than the no-op, [modifyTraffic] stops there with
    [(false, retryDefault)]; when the call is a no-op and [CheckReady]
    says no, it gives [(false, retryDefault)] as well.  Without traffic
    management it gives [(true, retryImmediately)] and calls nothing.
    [doCanary] and [doRecycle] hand any such traffic problem on as
    [(false, retryDefault, nil)]: the error is nil. *)
Theorem modifyTraffic_transient ctx op st :
  op ∈ ["forkStable"; "forkCanary"; "revertStable"; "revertCanary"] ->
  (∃ method, traffic_method op = Some method ∧
     ∀ t, Canary_Traffic ctx = Some t ->
       ∀ result err w1, method (world st) = ((result, err), w1) ->
         (is_Some err ∨ result ≠ OperationResultNone ->
            modifyTraffic ctx op st
              = ((false, retryDefault), setWorld w1 st, [EvTraffic op result err])) ∧
         (err = None -> result = OperationResultNone ->
            ∀ w2, TrafficManager_CheckReady w1 = (false, w2) ->
              modifyTraffic ctx op st
                = ((false, retryDefault), setWorld w2 st,
                   [EvTraffic op result None; EvCheckReady false]))) ∧
  (Canary_Traffic ctx = None ->
     modifyTraffic ctx op st = ((true, retryImmediately), st, [])) ∧
  (∀ (r : HandlerResult) st' tr,
     doCanary ctx st = (r, st', tr) -> existsb trafficProblem tr = true ->
     r = (false, retryDefault, None)) ∧
  (∀ (r : HandlerResult) st' tr,
     doRecycle ctx st = (r, st', tr) -> existsb trafficProblem tr = true ->
     r = (false, retryDefault, None)).
Proof.
  intros Op. split_and!.
  - assert (M : ∃ method, traffic_method op = Some method).
    { repeat (apply elem_of_cons in Op as [->|Op]; [by eexists|]).
      by apply elem_of_nil in Op. }
    destruct M as [method M]. exists method. split; [done|].
    intros t T result err w1 E.
    rewrite (modifyTraffic_with_traffic _ _ _ _ _ T M), E.
    split.
    + intros [[e ->]|Ne]; [done|]. destruct err; [done|].
      apply String.eqb_neq in Ne. by rewrite Ne.
    + intros -> -> w2 R. simpl. by rewrite R.
  - apply modifyTraffic_no_traffic.
  - apply doCanary_traffic_problem.
  - apply doRecycle_traffic_problem.
Qed.

(** ** The patch that reaches the workloads *)

(** Events that are no [CreateOrUpdate] say nothing about the patch. *)
Lemma given_no_update (f : Event -> bool) patch view (tr : list Event) :
  (∀ e, f e = true -> updateCall e = None) ->
  Forall (λ e, f e = true) tr -> Forall (given patch view) tr.
Proof.
  intros N F. eapply Forall_weaken; [|exact F].
  intros e Fe. apply N in Fe. destruct e; simpl; auto. discriminate.
Qed.

(** The heap along a run of [doCanary]: past the stable fork the patch is
    augmented, once, before the first target, and every [CreateOrUpdate]
    is given the augmented patch; nothing else writes to the heap. *)
Lemma doCanary_heap ctx st (r : HandlerResult) st' tr :
  doCanary ctx st = (r, st', tr) ->
  ∃ (done1 : bool) st1 tr1,
    modifyTraffic ctx "forkStable" st
      = ((done1, if done1 then retryImmediately else retryDefault), st1, tr1) ∧
    let ph := appendBuiltinPodTemplateMetadataPatch
                (Canary_PodTemplateMetadataPatch ctx) (heap st) in
    Forall (given ph.1 (readPatch ph.2 ph.1)) tr ∧
    heap st' = (if done1 then ph.2 else heap st).
Proof.
  intros Run. apply doCanary_run in Run as (done1 & st1 & tr1 & E1 & Run).
  pose proof (modifyTraffic_outcome _ _ _ _ _ _ _ E1) as (T1 & _ & (H1' & _) & _ & _).
  exists done1, st1, tr1. split; [exact E1|]. cbv zeta.
  set (ph := appendBuiltinPodTemplateMetadataPatch _ (heap st)).
  assert (G1 : Forall (given ph.1 (readPatch ph.2 ph.1)) tr1)
    by (eapply given_no_update; [|exact T1]; by_class).
  destruct done1.
  2:{ destruct Run as (_ & -> & ->). by split. }
  cbv zeta in Run. rewrite H1' in Run. fold ph in Run.
  destruct Run as (lr & st2 & tr2 & E2 & Run).
  apply doCanary_loop_run in E2 as ((H2 & _) & _ & G2 & _).
  cbn [heap setHeap] in H2, G2.
  destruct lr as [res|[[] cws]].
  - destruct Run as (_ & -> & ->). split; [by apply Forall_app|done].
  - destruct Run as (_ & -> & ->). split; [by apply Forall_app|done].
  - destruct Run as (rr & st3 & tr3 & E3 & Run).
    apply doCanary_ready_loop_run in E3 as ((H3 & _) & F3 & _).
    assert (G3 : Forall (given ph.1 (readPatch ph.2 ph.1)) tr3)
      by (eapply given_no_update; [|exact F3]; by_class).
    destruct rr as [res|].
    + destruct Run as (_ & -> & ->).
      split; [by rewrite !Forall_app|congruence].
    + destruct Run as (done4 & tr4 & E4 & -> & _).
      pose proof (modifyTraffic_outcome _ _ _ _ _ _ _ E4) as (T4 & _ & (H4 & _) & _ & _).
      assert (G4 : Forall (given ph.1 (readPatch ph.2 ph.1)) tr4)
        by (eapply given_no_update; [|exact T4]; by_class).
      split; [by rewrite !Forall_app|congruence].
Qed.

(** On a patch that is not nil the augmentation works in place: the same
    pointer comes back; a labels map that is there is written into, with
    the patch object left as it is; a labels map that is missing is
    allocated afresh and assigned to the patch. *)
Lemma appendBuiltin_in_place p h :
  (appendBuiltinPodTemplateMetadataPatch (Some p) h).1 = p ∧
  let h' := (appendBuiltinPodTemplateMetadataPatch (Some p) h).2 in
  match Labels (patches h !!! p) with
  | Some m =>
      patches h' = patches h ∧
      maps h' = <[m := <[LabelPodRevision := "canary"]>
                          (<[LabelCanary := "true"]> (readMap h m))]> (maps h)
  | None =>
      let m := fresh (dom (maps h)) in
      (m ∉ dom (maps h)) ∧
      patches h' = <[p := {| Labels := Some m;
                             Annotations := Annotations (patches h !!! p) |}]> (patches h) ∧
      maps h' = <[m := <[LabelPodRevision := "canary"]>
                          (<[LabelCanary := "true"]> ∅)]> (maps h)
  end.
Proof.
  rewrite appendBuiltin_run. cbn [fst snd]. split; [reflexivity|]. cbv zeta.
  destruct (Labels (patches h !!! p)) as [m|]; cbn [fst snd].
  - split; [reflexivity|].
    unfold mapStore at 1. cbn [maps]. rewrite readMap_mapStore.
    unfold mapStore. cbn [maps]. apply insert_insert_eq.
  - split_and!; [apply is_fresh|reflexivity|].
    unfold mapStore at 1. cbn [maps]. rewrite readMap_mapStore.
    unfold mapStore, setLabels, allocMap, readMap. cbn [maps fst snd].
    rewrite lookup_total_insert_eq. by rewrite !insert_insert_eq.
Qed.

(** C10, as the code has it.  With a patch in the rollout-run spec, the
    augmentation hands back the very pointer it was given, writes the two
    keys into the labels map the patch already has, and allocates and
    assigns a map when the patch has none.  A run of [doCanary] that gets
    past the stable fork leaves the heap as the augmentation of the spec's
    patch made it, so that the spec's own patch then binds the two canary
    labels, and every [CreateOrUpdate] is given that pointer; a run that
    stops at the stable fork leaves the heap as it was. *)
Theorem doCanary_patch_in_place ctx p :
  Canary_PodTemplateMetadataPatch ctx = Some p ->
  (∀ h,
     (appendBuiltinPodTemplateMetadataPatch (Some p) h).1 = p ∧
     let h' := (appendBuiltinPodTemplateMetadataPatch (Some p) h).2 in
     match Labels (patches h !!! p) with
     | Some m =>
         patches h' = patches h ∧
         maps h' = <[m := <[LabelPodRevision := "canary"]>
                             (<[LabelCanary := "true"]> (readMap h m))]> (maps h)
     | None =>
         let m := fresh (dom (maps h)) in
         (m ∉ dom (maps h)) ∧
         patches h' = <[p := {| Labels := Some m;
                                Annotations := Annotations (patches h !!! p) |}]> (patches h) ∧
         maps h' = <[m := <[LabelPodRevision := "canary"]>
                             (<[LabelCanary := "true"]> ∅)]> (maps h)
     end) ∧
  (∀ st (r : HandlerResult) st' tr,
     doCanary ctx st = (r, st', tr) ->
     ∃ (done1 : bool) st1 tr1,
       modifyTraffic ctx "forkStable" st
         = ((done1, if done1 then retryImmediately else retryDefault), st1, tr1) ∧
       heap st' = (if done1
                   then (appendBuiltinPodTemplateMetadataPatch (Some p) (heap st)).2
                   else heap st) ∧
       Forall (given p (readPatch
                          (appendBuiltinPodTemplateMetadataPatch (Some p) (heap st)).2 p)) tr ∧
       (done1 = true -> LabelCanary ≠ LabelPodRevision ->
        ∃ labels, viewLabels (readPatch (heap st') p) = Some labels ∧
                  labels !! LabelCanary = Some "true" ∧
                  labels !! LabelPodRevision = Some "canary")).
Proof.
  intros P. split; [apply appendBuiltin_in_place|].
  intros st r st' tr Run.
  apply doCanary_heap in Run as (done1 & st1 & tr1 & E1 & G & Hp).
  rewrite P in G, Hp.
  pose proof (appendBuiltin_in_place p (heap st)) as [P1 _]. rewrite P1 in G.
  exists done1, st1, tr1. split_and!; auto.
  intros -> Ne. rewrite Hp.
  eapply appendBuiltin_labels; [|exact Ne].
  pose proof (surjective_pairing
                (appendBuiltinPodTemplateMetadataPatch (Some p) (heap st))) as SP.
  rewrite P1 in SP. exact SP.
Qed.

(** ** The state machine of the canary executor *)

Lemma quiet_ret {A : Type} (a : A) : quiet (mret a).
Proof. intros st a' st' tr [= <- <- <-]. by split. Qed.

Lemma quiet_bind {A B : Type} (m : Exec A) (f : A -> Exec B) :
  quiet m -> (∀ a, quiet (f a)) -> quiet (m ≫= f).
Proof.
  intros Qm Qf st b st' tr. rewrite run_bind.
  destruct (m st) as [[a st1] tr1] eqn:E1.
  destruct (f a st1) as [[b' st2] tr2] eqn:E2.
  intros [= <- <- <-].
  apply Qm in E1 as [S1 F1]. apply Qf in E2 as [S2 F2].
  split; [congruence|by apply Forall_app].
Qed.

Lemma quiet_call {R : Type} (op : World -> R * World) (ev : R -> Event) :
  (∀ r, isHandlerEvent (ev r) = false) -> quiet (call op ev).
Proof.
  intros N st a st' tr. rewrite run_call. intros [= <- <- <-].
  split; [done|]. each_event; auto.
Qed.

Lemma quiet_onHeap {R : Type} (op : Heap -> R * Heap) : quiet (onHeap op).
Proof.
  intros st a st' tr. unfold onHeap. destruct (op (heap st)).
  intros [= <- <- <-]. by split.
Qed.

Lemma quiet_getHeap : quiet getHeap.
Proof. intros st a st' tr [= <- <- <-]. by split. Qed.

Lemma quiet_Pause : quiet Pause.
Proof. intros st a st' tr [= <- <- <-]. split; [done|]. each_event; auto. Qed.

Ltac quiet_step :=
  match goal with
  | |- quiet (mret _) => apply quiet_ret
  | |- quiet (call _ _) => apply quiet_call; intros; reflexivity
  | |- quiet (onHeap _) => apply quiet_onHeap
  | |- quiet getHeap => apply quiet_getHeap
  | |- quiet Pause => apply quiet_Pause
  | |- quiet (_ ≫= _) => apply quiet_bind; [|intros ?]
  | |- quiet (match ?x with _ => _ end) => destruct x
  end.

Lemma quiet_modifyTraffic ctx op : quiet (modifyTraffic ctx op).
Proof.
  unfold modifyTraffic, traffic_call.
  destruct (traffic_method op); repeat quiet_step.
Qed.

Lemma quiet_doInit ctx : quiet (doInit ctx).
Proof.
  unfold doInit. apply quiet_bind; [|intros ?; repeat quiet_step].
  induction (Canary_Targets ctx) as [|item rest IH]; simpl; [apply quiet_ret|].
  unfold get_workload, get_strategy. repeat quiet_step. exact IH.
Qed.

Lemma quiet_doPreStepHook ctx : quiet (doPreStepHook ctx).
Proof. unfold doPreStepHook, do_webhook. quiet_step. Qed.

Lemma quiet_doPostStepHook ctx : quiet (doPostStepHook ctx).
Proof. unfold doPostStepHook, do_webhook. repeat quiet_step. Qed.

Lemma quiet_doCanary ctx : quiet (doCanary ctx).
Proof.
  unfold doCanary. apply quiet_bind; [apply quiet_modifyTraffic|].
  intros [done1 retry]. destruct done1; simpl; [|apply quiet_ret].
  apply quiet_bind; [apply quiet_onHeap|]. intros patch.
  apply quiet_bind.
  - generalize false at 1. generalize (@nil CanaryStrategy).
    induction (Canary_Targets ctx) as [|item rest IH]; intros cws changed; simpl;
      [apply quiet_ret|].
    unfold get_workload, get_strategy. repeat quiet_step. apply IH.
  - intros [res|[[] cws]]; try apply quiet_ret.
    apply quiet_bind.
    + induction cws as [|cw rest IH]; simpl; [apply quiet_ret|].
      repeat quiet_step. exact IH.
    + intros [res|]; [apply quiet_ret|].
      apply quiet_bind; [apply quiet_modifyTraffic|].
      intros [[] ?]; apply quiet_ret.
Qed.

Lemma quiet_doRecycle ctx : quiet (doRecycle ctx).
Proof.
  unfold doRecycle. apply quiet_bind; [apply quiet_modifyTraffic|].
  intros [done1 retry]. destruct done1; simpl; [|apply quiet_ret].
  apply quiet_bind.
  - induction (Canary_Targets ctx) as [|item rest IH]; simpl; [apply quiet_ret|].
    unfold get_workload, get_strategy. repeat quiet_step. exact IH.
  - intros [res|]; [apply quiet_ret|].
    apply quiet_bind; [apply quiet_modifyTraffic|].
    intros [[] ?]; apply quiet_ret.
Qed.

Lemma quiet_skipStep ctx : quiet (skipStep ctx).
Proof. apply quiet_ret. Qed.

Lemma newCanaryExecutor_transitions : stateMachine newCanaryExecutor = canaryTransitions.
Proof. reflexivity. Qed.

(** Every registered transition starts in the sequence, has a quiet
    handler, and leads either nowhere or one place further. *)
Lemma canaryTransitions_lookup ctx s next handler :
  lookupStep canaryTransitions s = Some (next, handler) ->
  quiet (handler ctx) ∧
  ∃ i, stepRank s = Some i ∧ (next = "" ∨ stepRank next = Some (S i)).
Proof.
  unfold canaryTransitions. cbn [lookupStep].
  repeat match goal with
         | |- context [String.eqb ?a s] =>
             destruct (String.eqb_spec a s) as [<-|_];
             [intros [= <- <-]; split;
              [auto using quiet_doInit, quiet_doPreStepHook, quiet_doCanary,
                 quiet_doPostStepHook, quiet_doRecycle, quiet_skipStep
              |eexists; split; [reflexivity|first [by left | by right]]]|]
         end.
  discriminate.
Qed.

(** One call of the engine on the canary transitions, whatever the cap:
    the step state stays or moves to a later place, and the handlers run
    are those of the current state or of later ones. *)
Lemma canary_engine_forward ctx fuel s st r st' tr :
  stateMachine_do_upto fuel canaryTransitions ctx s st = (r, st', tr) ->
  (canaryState st' = canaryState st ∨ later s (canaryState st')) ∧
  Forall (λ e, ∀ x, e = EvHandler x -> notBefore s x) tr.
Proof.
  revert s st r st' tr. induction fuel as [|fuel IH]; intros s st r st' tr.
  - simpl. intros [= <- <- <-]. split; [by left|constructor].
  - cbn [stateMachine_do_upto].
    destruct (lookupStep canaryTransitions s) as [[next handler]|] eqn:L.
    2:{ intros [= <- <- <-]. split; [by left|constructor]. }
    apply (canaryTransitions_lookup ctx) in L as (Q & i & Ri & Next).
    rewrite run_bind. unfold emit at 1. cbn iota beta. rewrite run_bind.
    destruct (handler ctx st) as [[[[done retry] err] st1] tr1] eqn:E1.
    apply Q in E1 as [S1 F1].
    assert (Here : ∀ x, EvHandler s = EvHandler x -> notBefore s x).
    { intros x [= <-]. exists i, i. auto. }
    assert (T1 : Forall (λ e, ∀ x, e = EvHandler x -> notBefore s x) tr1).
    { eapply Forall_weaken; [|exact F1]. intros e N x ->. discriminate. }
    destruct err as [err|].
    { intros [= <- <- <-]. split; [by left|].
      rewrite app_nil_r. by constructor. }
    destruct done; simpl.
    2:{ intros [= <- <- <-]. split; [by left|]. rewrite app_nil_r. by constructor. }
    destruct (String.eqb_spec next "") as [->|NE]; simpl.
    { intros [= <- <- <-]. split; [by left|]. rewrite app_nil_r. by constructor. }
    destruct Next as [?|Rn]; [done|].
    rewrite run_bind. unfold storeCanaryState at 1. cbn iota beta.
    destruct (Z.eqb retry retryImmediately).
    + destruct (stateMachine_do_upto fuel canaryTransitions ctx next _)
        as [[r2 st2] tr2] eqn:E2.
      intros [= <- <- <-]. apply IH in E2 as [S2 F2]. simpl in S2.
      split.
      * right. destruct S2 as [->|(a & b & Ra & Rb & Lt)].
        -- exists i, (S i). auto.
        -- exists i, b. rewrite Rn in Ra. injection Ra as <-. split_and!; auto. lia.
      * constructor; [exact Here|]. apply Forall_app. split; [exact T1|].
        simpl. eapply Forall_weaken; [|exact F2].
        intros e N x Ex. destruct (N x Ex) as (a & b & Ra & Rb & Le).
        exists i, b. rewrite Rn in Ra. injection Ra as <-. split_and!; auto. lia.
    + intros [= <- <- <-]. split.
      * right. exists i, (S i). simpl. auto.
      * rewrite app_nil_r. by constructor.
Qed.

Lemma indexOf_bound s l i : indexOf s l = Some i -> (i < length l)%nat.
Proof.
  revert i. induction l as [|x l IH]; intros i; simpl; [discriminate|].
  destruct (String.eqb x s); [intros [= <-]; lia|].
  destruct (indexOf s l) as [j|]; simpl; [|discriminate].
  intros [= <-]. specialize (IH j eq_refl). lia.
Qed.

Lemma stateMachine_do_upto_S fuel m ctx s :
  stateMachine_do_upto (S fuel) m ctx s =
  match lookupStep m s with
  | None =>
      mret (false, {| Requeue := false; RequeueAfter := 0 |},
            Some (ForeignError ("no handler registered for step state " +:+ s)))
  | Some (nextState, handler) =>
      _ ← emit (EvHandler s);
      '(done, retry, err) ← handler ctx;
      match err with
      | Some err => mret (false, {| Requeue := false; RequeueAfter := 0 |}, Some err)
      | None =>
          if negb done then mret (false, requeueResult retry, None)
          else if String.eqb nextState "" then mret (true, requeueResult retry, None)
          else
            _ ← storeCanaryState nextState;
            if Z.eqb retry retryImmediately
            then stateMachine_do_upto fuel m ctx nextState
            else mret (false, requeueResult retry, None)
      end
  end.
Proof. reflexivity. Qed.

(** Two caps give the same run from [s] when they give the same runs from
    the state that follows [s]. *)
Lemma canary_engine_step ctx n m s st :
  (∀ next st2,
     (∃ i, stepRank s = Some i ∧ stepRank next = Some (S i)) ->
     stateMachine_do_upto n canaryTransitions ctx next st2
     = stateMachine_do_upto m canaryTransitions ctx next st2) ->
  stateMachine_do_upto (S n) canaryTransitions ctx s st
  = stateMachine_do_upto (S m) canaryTransitions ctx s st.
Proof.
  intros Next. rewrite !stateMachine_do_upto_S.
  destruct (lookupStep canaryTransitions s) as [[next handler]|] eqn:L; [|reflexivity].
  apply (canaryTransitions_lookup ctx) in L as (_ & i & Ri & Rn).
  rewrite !run_bind. unfold emit at 1 2. cbn iota beta. rewrite !run_bind.
  destruct (handler ctx st) as [[[[done retry] err] st1] tr1].
  destruct err; [reflexivity|]. destruct done; [|reflexivity]. cbn [negb].
  destruct (String.eqb_spec next "") as [->|NE]; [reflexivity|].
  destruct Rn as [?|Rn]; [done|].
  rewrite !run_bind. unfold storeCanaryState at 1 2. cbn iota beta.
  destruct (Z.eqb retry retryImmediately); [|reflexivity].
  rewrite (Next next); eauto.
Qed.

(** The cap never cuts a run of the canary machine short: from a state at
    place [i] of the sequence at most [6 - i] handlers run, so any cap
    that leaves room for them gives the same run. *)
Lemma canary_engine_room ctx n m s st :
  (∀ i, stepRank s = Some i -> (5 - i <= n)%nat ∧ (5 - i <= m)%nat) ->
  stateMachine_do_upto (S n) canaryTransitions ctx s st
  = stateMachine_do_upto (S m) canaryTransitions ctx s st.
Proof.
  revert m s st. induction n as [|n IH]; intros m s st Room;
    apply canary_engine_step; intros next st2 (i & Ri & Rn);
    pose proof (indexOf_bound _ _ _ Rn) as B; simpl in B;
    destruct (Room i Ri) as [Rn' Rm'].
  - lia.
  - destruct m as [|m]; [lia|]. apply IH.
    intros j Rj. rewrite Rn in Rj. injection Rj as <-. lia.
Qed.

Lemma canary_engine_cap ctx n s st :
  (6 <= n)%nat ->
  stateMachine_do_upto n canaryTransitions ctx s st
  = stateMachine_do canaryTransitions ctx s st.
Proof.
  intros Le. unfold stateMachine_do. simpl length.
  destruct n as [|n]; [lia|]. apply canary_engine_room.
  intros i _. lia.
Qed.

(** C2.  The constructor registers exactly the six transitions of the
    canary sequence, the last one with an empty next state and the no-op
    handler.  A call of [Do] leaves the step state where it is or moves it
    to a later place of the sequence, and runs handlers of the current
    state or of later ones only.  Once the state is [StepSucceeded], a call
    of [Do] leaves it there; the only handler it can run is the no-op one,
    and the only collaborator call it can make is the binding of the
    traffic manager. *)
Theorem canary_state_machine_forward ctx st :
  stateMachine newCanaryExecutor =
    [ (StepPending, (StepPreCanaryStepHook, doInit));
      (StepPreCanaryStepHook, (StepRunning, doPreStepHook));
      (StepRunning, (StepPostCanaryStepHook, doCanary));
      (StepPostCanaryStepHook, (StepResourceRecycling, doPostStepHook));
      (StepResourceRecycling, (StepSucceeded, doRecycle));
      (StepSucceeded, ("", skipStep)) ] ∧
  (∀ ctx' st0, skipStep ctx' st0 = ((true, retryImmediately, None), st0, [])) ∧
  (∀ r st' tr,
     Do newCanaryExecutor ctx st = (r, st', tr) ->
     (canaryState st' = canaryState st ∨ later (canaryState st) (canaryState st')) ∧
     Forall (λ e, ∀ x, e = EvHandler x -> notBefore (canaryState st) x) tr) ∧
  (canaryState st = StepSucceeded ->
   ∀ r st' tr,
     Do newCanaryExecutor ctx st = (r, st', tr) ->
     canaryState st' = StepSucceeded ∧
     (tr = [] ∨
      tr = [EvWith (Canary_Targets ctx) (Canary_Traffic ctx); EvHandler StepSucceeded])).
Proof.
  split_and!; [reflexivity|reflexivity| |].
  - intros r st' tr. unfold Do.
    destruct (inCanary ctx st).
    2:{ simpl. intros [= <- <- <-]. split; [by left|constructor]. }
    cbn [negb]. rewrite run_bind, run_call. cbn [fst snd].
    rewrite run_bind. unfold loadCanaryState at 1. cbn iota beta.
    cbn [canaryState setWorld]. unfold stateMachine_do.
    rewrite newCanaryExecutor_transitions.
    destruct (stateMachine_do_upto _ _ _ _ _) as [[r2 st2] tr2] eqn:E2.
    intros [= <- <- <-]. apply canary_engine_forward in E2 as [S2 F2].
    split; [exact S2|]. constructor; [intros x [=]|exact F2].
  - intros Succ r st' tr. unfold Do.
    destruct (inCanary ctx st).
    2:{ simpl. intros [= <- <- <-]. split; [done|by left]. }
    cbn [negb]. rewrite run_bind, run_call. cbn [fst snd].
    rewrite run_bind. unfold loadCanaryState at 1. cbn iota beta.
    cbn [canaryState setWorld]. rewrite Succ.
    intros [= <- <- <-]. split; [exact Succ|by right].
Qed.

(** * Further properties of the handlers *)

(** ** The calls of doInit, one target after the other *)

(** The trace of the loop of [doInit], call by call. *)
Lemma doInit_loop_trace ctx items st r st' tr :
  doInit_loop ctx items st = (r, st', tr) ->
  match r with
  | None => tr = flat_map (initCalls ctx) items
  | Some res =>
      ∃ pre item post,
        items = pre ++ item :: post ∧
        ((tr = flat_map (initCalls ctx) pre ++ [EvGet item false] ∧
          res = fatal ReasonWorkloadInterfaceNotExist (notExistMessage item))
         ∨ (∃ err, tr = flat_map (initCalls ctx) pre
                          ++ [EvGet item true; EvCanaryStrategy item (Some err)] ∧
                   res = fatal "InternalError" (strategyFailedMessage err))
         ∨ (∃ err, tr = flat_map (initCalls ctx) pre
                          ++ [EvGet item true; EvCanaryStrategy item None;
                              EvInitialize item (Rollout_Name ctx) (RolloutRun_Name ctx)
                                (Some err)] ∧
                   res = fatal "InitializeFailed" (initializeFailedMessage err)))
  end.
Proof.
  revert st r st' tr. induction items as [|item rest IH]; intros st r st' tr.
  - simpl. by intros [= <- <- <-].
  - simpl. rewrite run_bind. unfold get_workload at 1. run_call_as [[wi|] w1]; simpl.
    + rewrite run_bind. unfold get_strategy at 1. run_call_as [[err|cs] w2]; simpl.
      * intros [= <- <- <-]. exists [], item, rest. split; [done|]. right. left. by exists err.
      * rewrite run_bind. run_call_as [[err|] w3]; simpl.
        -- intros [= <- <- <-]. exists [], item, rest. split; [done|]. right. right.
           by exists err.
        -- destruct (doInit_loop ctx rest _) as [[r1 st1] tr1] eqn:E.
           intros [= <- <- <-]. apply IH in E. destruct r1 as [res|].
           ++ destruct E as (pre & it & post & -> & Shape).
              exists (item :: pre), it, post. split; [done|].
              destruct Shape as [[-> ->]|[(err & -> & ->)|(err & -> & ->)]];
                [left|right; left; exists err|right; right; exists err]; by split.
           ++ by rewrite E.
    + intros [= <- <- <-]. exists [], item, rest. split; [done|]. by left.
Qed.

(** X2. When [doInit] is not done, it stopped at one target, after going
    through the targets before it without failure, on the first call that
    failed there: a lookup that finds nothing gives reason
    [ReasonWorkloadInterfaceNotExist], a strategy request that fails gives
    ["InternalError"], an [Initialize] that fails gives
    ["InitializeFailed"]; each time the result is [(false, retryStop, err)]
    with a structured error that carries the collaborator's error text,
    and the failed call is the last one made. *)
Theorem doInit_failure ctx st (r : HandlerResult) st' tr :
  doInit ctx st = (r, st', tr) ->
  r.1.1 = false ->
  ∃ pre item post,
    Canary_Targets ctx = pre ++ item :: post ∧
    ((tr = flat_map (initCalls ctx) pre ++ [EvGet item false] ∧
      r = (false, retryStop,
           Some (StructuredError {| Code := "DoCanaryError";
                                    Reason := ReasonWorkloadInterfaceNotExist;
                                    Message := notExistMessage item |})))
     ∨ (∃ err, tr = flat_map (initCalls ctx) pre
                      ++ [EvGet item true; EvCanaryStrategy item (Some err)] ∧
               r = (false, retryStop,
                    Some (StructuredError {| Code := "DoCanaryError";
                                             Reason := "InternalError";
                                             Message := strategyFailedMessage err |})))
     ∨ (∃ err, tr = flat_map (initCalls ctx) pre
                      ++ [EvGet item true; EvCanaryStrategy item None;
                          EvInitialize item (Rollout_Name ctx) (RolloutRun_Name ctx)
                            (Some err)] ∧
               r = (false, retryStop,
                    Some (StructuredError {| Code := "DoCanaryError";
                                             Reason := "InitializeFailed";
                                             Message := initializeFailedMessage err |})))).
Proof.
  unfold doInit. rewrite run_bind.
  destruct (doInit_loop ctx (Canary_Targets ctx) st) as [[lr st1] tr1] eqn:E.
  apply doInit_loop_trace in E.
  destruct lr as [res|]; simpl; rewrite app_nil_r; intros [= <- <- <-]; [|discriminate].
  intros _. destruct E as (pre & item & post & Eq & Shape).
  exists pre, item, post. split; [exact Eq|exact Shape].
Qed.

(** ** The calls of doRecycle *)

Lemma omap_none {B : Type} (f : Event -> option B) (tr : list Event) :
  Forall (λ e, f e = None) tr -> omap f tr = [].
Proof.
  induction 1 as [|e tr Fe _ IH]; [done|]. simpl. by rewrite Fe.
Qed.

Lemma omap_other {B : Type} (f : Event -> option B) (g : Event -> bool) (tr : list Event) :
  (∀ e, g e = true -> f e = None) ->
  Forall (λ e, g e = true) tr -> omap f tr = [].
Proof.
  intros FG F. apply omap_none. eapply Forall_weaken; [|exact F]. auto.
Qed.

(** The trace of the loop of [doRecycle], call by call. *)
Lemma doRecycle_loop_trace items st r st' tr :
  doRecycle_loop items st = (r, st', tr) ->
  match r with
  | None => tr = flat_map deleteCalls items
  | Some res =>
      ∃ pre item post,
        items = pre ++ item :: post ∧
        ((tr = flat_map deleteCalls pre ++ [EvGet item false] ∧
          res = fatal ReasonWorkloadInterfaceNotExist (notExistMessage item))
         ∨ (∃ err, tr = flat_map deleteCalls pre
                          ++ [EvGet item true; EvCanaryStrategy item (Some err)] ∧
                   res = fatal "InternalError" (strategyFailedMessage err))
         ∨ (∃ err, tr = flat_map deleteCalls pre
                          ++ [EvGet item true; EvCanaryStrategy item None;
                              EvDelete item (Some err)] ∧
                   res = fatal "DeleteFailed" (deleteFailedMessage item err)))
  end.
Proof.
  revert st r st' tr. induction items as [|item rest IH]; intros st r st' tr.
  - simpl. by intros [= <- <- <-].
  - simpl. rewrite run_bind. unfold get_workload at 1. run_call_as [[wi|] w1]; simpl.
    + rewrite run_bind. unfold get_strategy at 1. run_call_as [[err|cs] w2]; simpl.
      * intros [= <- <- <-]. exists [], item, rest. split; [done|]. right. left. by exists err.
      * rewrite run_bind. run_call_as [[err|] w3]; simpl.
        -- intros [= <- <- <-]. exists [], item, rest. split; [done|]. right. right.
           by exists err.
        -- destruct (doRecycle_loop rest _) as [[r1 st1] tr1] eqn:E.
           intros [= <- <- <-]. apply IH in E. destruct r1 as [res|].
           ++ destruct E as (pre & it & post & -> & Shape).
              exists (item :: pre), it, post. split; [done|].
              destruct Shape as [[-> ->]|[(err & -> & ->)|(err & -> & ->)]];
                [left|right; left; exists err|right; right; exists err]; by split.
           ++ by rewrite E.
    + intros [= <- <- <-]. exists [], item, rest. split; [done|]. by left.
Qed.

(** The shape of a run of [doRecycle]: which of its steps ran, on which
    state, and what each one gave. *)
Lemma doRecycle_run ctx st (r : HandlerResult) st' tr :
  doRecycle ctx st = (r, st', tr) ->
  ∃ (done1 : bool) st1 tr1,
    modifyTraffic ctx "revertCanary" st
      = ((done1, if done1 then retryImmediately else retryDefault), st1, tr1) ∧
    if done1 then
      ∃ lr st2 tr2,
        doRecycle_loop (Canary_Targets ctx) st1 = (lr, st2, tr2) ∧
        match lr with
        | Some res => r = res ∧ st' = st2 ∧ tr = tr1 ++ tr2
        | None =>
            ∃ (done3 : bool) tr3,
              modifyTraffic ctx "revertStable" st2
                = ((done3, if done3 then retryImmediately else retryDefault), st', tr3) ∧
              tr = tr1 ++ tr2 ++ tr3 ∧
              r = (done3, retryDefault, None)
        end
    else r = (false, retryDefault, None) ∧ st' = st1 ∧ tr = tr1.
Proof.
  unfold doRecycle. rewrite run_bind.
  destruct (modifyTraffic ctx "revertCanary" st) as [[[done1 d1] st1] tr1] eqn:E1.
  pose proof (modifyTraffic_outcome _ _ _ _ _ _ _ E1) as (_ & _ & _ & _ & ->).
  destruct done1; simpl.
  2:{ rewrite app_nil_r. intros [= <- <- <-]. by exists false, st1, tr1. }
  rewrite run_bind.
  destruct (doRecycle_loop (Canary_Targets ctx) st1) as [[lr st2] tr2] eqn:E2.
  destruct lr as [res|]; simpl.
  - rewrite app_nil_r. intros [= <- <- <-].
    exists true, st1, tr1. split; [done|]. eexists _, _, _. split; [exact E2|]. done.
  - rewrite run_bind.
    destruct (modifyTraffic ctx "revertStable" st2) as [[[done3 d3] st3] tr3] eqn:E3.
    pose proof (modifyTraffic_outcome _ _ _ _ _ _ _ E3) as (_ & _ & _ & _ & ->).
    destruct done3 eqn:D3; simpl; rewrite app_nil_r; intros [= <- <- <-];
      (exists true, st1, tr1; split; [done|];
       eexists _, _, _; split; [exact E2|]).
    + exists true, tr3. by split_and!.
    + exists false, tr3. by split_and!.
Qed.

Lemma elem_of_middle {A : Type} (pre post : list A) (x : A) : x ∈ pre ++ x :: post.
Proof. apply elem_of_app. right. apply list_elem_of_here. Qed.

(** X3. [doRecycle] returns one of three things: done, as
    [(true, retryDefault, nil)]; not done, as [(false, retryDefault, nil)];
    or [(false, retryStop, err)] where [err] is a structured error of code
    [DoCanaryError] about one of the targets, with reason
    [ReasonWorkloadInterfaceNotExist], ["InternalError"] or
    ["DeleteFailed"].  It leaves the heap of patches, the step state and
    the pause signal as they were. *)
Theorem doRecycle_outcomes ctx st (r : HandlerResult) st' tr :
  doRecycle ctx st = (r, st', tr) ->
  sameContext st st' ∧
  (r = (true, retryDefault, None) ∨
   r = (false, retryDefault, None) ∨
   ∃ item, item ∈ Canary_Targets ctx ∧
     (r = (false, retryStop,
           Some (StructuredError {| Code := "DoCanaryError";
                                    Reason := ReasonWorkloadInterfaceNotExist;
                                    Message := notExistMessage item |}))
      ∨ (∃ err, r = (false, retryStop,
                     Some (StructuredError {| Code := "DoCanaryError";
                                              Reason := "InternalError";
                                              Message := strategyFailedMessage err |})))
      ∨ (∃ err, r = (false, retryStop,
                     Some (StructuredError {| Code := "DoCanaryError";
                                              Reason := "DeleteFailed";
                                              Message := deleteFailedMessage item err |}))))).
Proof.
  intros Run. apply doRecycle_run in Run as (done1 & st1 & tr1 & E1 & Run).
  pose proof (modifyTraffic_outcome _ _ _ _ _ _ _ E1) as (_ & _ & S1 & _ & _).
  destruct done1.
  2:{ destruct Run as (-> & -> & _). split; [exact S1|]. right. by left. }
  destruct Run as (lr & st2 & tr2 & E2 & Run).
  pose proof (doRecycle_loop_run _ _ _ _ _ E2) as (S2 & _).
  apply doRecycle_loop_trace in E2.
  destruct lr as [res|].
  - destruct Run as (-> & -> & _). split; [by eapply sameContext_trans|].
    destruct E2 as (pre & item & post & Eq & Shape).
    right. right. exists item. split; [rewrite Eq; apply elem_of_middle|].
    destruct Shape as [[_ ->]|[(err & _ & ->)|(err & _ & ->)]]; eauto.
  - destruct Run as (done3 & tr3 & E3 & _ & ->).
    pose proof (modifyTraffic_outcome _ _ _ _ _ _ _ E3) as (_ & _ & S3 & _ & _).
    split; [eapply sameContext_trans; [|exact S3]; by eapply sameContext_trans|].
    destruct done3; [by left|right; by left].
Qed.

Lemma omap_deleteCalls (items : list Target) :
  omap deleteCall (flat_map deleteCalls items) = items.
Proof. induction items as [|item rest IH]; [done|]. simpl. by f_equal. Qed.

Lemma take_middle {A : Type} (pre post : list A) (x : A) :
  take (length pre) (pre ++ x :: post) = pre ∧
  take (S (length pre)) (pre ++ x :: post) = pre ++ [x].
Proof.
  split.
  - by rewrite take_app_length.
  - rewrite (cons_middle x pre post), app_assoc.
    replace (S (length pre)) with (length (pre ++ [x]))
      by (rewrite length_app; simpl; lia).
    by rewrite take_app_length.
Qed.

(** ** The calls of doCanary *)

(** How the loop 2.a of [doCanary] stops at a target. *)
Lemma doCanary_loop_trace patch items changed cws st lr st' tr :
  doCanary_loop patch items changed cws st = (lr, st', tr) ->
  match lr with
  | inr _ => True
  | inl res =>
      ∃ pre item post tr0,
        items = pre ++ item :: post ∧
        omap updateCall tr0 = pre ∧
        Forall (λ e, isFatalEvent e = false) tr0 ∧
        ((tr = tr0 ++ [EvGet item false] ∧
          res = fatal ReasonWorkloadInterfaceNotExist (notExistMessage item))
         ∨ (∃ err, tr = tr0 ++ [EvGet item true; EvCanaryStrategy item (Some err)] ∧
                   res = fatal "InternalError" (strategyFailedMessage err))
         ∨ (∃ err result,
              tr = tr0 ++ [EvGet item true; EvCanaryStrategy item None;
                           EvCreateOrUpdate item (Replicas item) patch
                             (readPatch (heap st) patch) result (Some err)] ∧
              res = fatal "CreateOrUpdateFailed" (createOrUpdateFailedMessage item err)))
  end.
Proof.
  revert changed cws st lr st' tr.
  induction items as [|item rest IH]; intros changed cws st lr st' tr.
  - simpl. by intros [= <- <- <-].
  - simpl. rewrite run_bind. unfold get_workload at 1. run_call_as [[wi|] w1]; simpl.
    + rewrite run_bind. unfold get_strategy at 1. run_call_as [[err|cs] w2]; simpl.
      * intros [= <- <- <-]. exists [], item, rest, []. split_and!; auto.
        right. left. by exists err.
      * rewrite run_bind. unfold getHeap at 1. cbn [heap setWorld].
        rewrite run_bind. run_call_as [[result [err|]] w3]; simpl.
        -- intros [= <- <- <-]. exists [], item, rest, []. split_and!; auto.
           right. right. by exists err, result.
        -- destruct (doCanary_loop patch rest _ _ _) as [[r1 st1] tr1] eqn:E.
           intros [= <- <- <-]. apply IH in E. destruct r1 as [res|]; [|done].
           destruct E as (pre & it & post & tr0 & -> & U & NF & Shape).
           cbn [heap setWorld] in Shape.
           exists (item :: pre), it, post,
             ([EvGet item true; EvCanaryStrategy item None;
               EvCreateOrUpdate item (Replicas item) patch (readPatch (heap st) patch)
                 result None] ++ tr0).
           split_and!; auto.
           ++ simpl. f_equal. exact U.
           ++ simpl. each_event; auto.
           ++ destruct Shape as [[-> ->]|[(err & -> & ->)|(err & res' & -> & ->)]];
                [left|right; left; exists err|right; right; exists err, res']; by split.
    + intros [= <- <- <-]. exists [], item, rest, []. split_and!; auto.
Qed.

(** X5. [doCanary] returns one of three things: done, as
    [(true, retryImmediately, nil)]; not done, as
    [(false, retryDefault, nil)]; or [(false, retryStop, err)] where [err]
    is a structured error of code [DoCanaryError] about one of the
    targets, with reason [ReasonWorkloadInterfaceNotExist],
    ["InternalError"] or ["CreateOrUpdateFailed"].  It leaves the step
    state and the pause signal as they were. *)
Theorem doCanary_outcomes ctx st (r : HandlerResult) st' tr :
  doCanary ctx st = (r, st', tr) ->
  canaryState st' = canaryState st ∧ paused st' = paused st ∧
  (r = (true, retryImmediately, None) ∨
   r = (false, retryDefault, None) ∨
   ∃ item, item ∈ Canary_Targets ctx ∧
     (r = (false, retryStop,
           Some (StructuredError {| Code := "DoCanaryError";
                                    Reason := ReasonWorkloadInterfaceNotExist;
                                    Message := notExistMessage item |}))
      ∨ (∃ err, r = (false, retryStop,
                     Some (StructuredError {| Code := "DoCanaryError";
                                              Reason := "InternalError";
                                              Message := strategyFailedMessage err |})))
      ∨ (∃ err, r = (false, retryStop,
                     Some (StructuredError
                             {| Code := "DoCanaryError";
                                Reason := "CreateOrUpdateFailed";
                                Message := createOrUpdateFailedMessage item err |}))))).
Proof.
  intros Run. apply doCanary_run in Run as (done1 & st1 & tr1 & E1 & Run).
  pose proof (modifyTraffic_outcome _ _ _ _ _ _ _ E1) as (_ & _ & (_ & C1 & P1) & _ & _).
  destruct done1.
  2:{ destruct Run as (-> & -> & _). split_and!; auto. }
  cbv zeta in Run. destruct Run as (lr & st2 & tr2 & E2 & Run).
  pose proof (doCanary_loop_run _ _ _ _ _ _ _ _ E2) as ((_ & C2 & P2) & _).
  cbn [canaryState paused setHeap] in C2, P2.
  apply doCanary_loop_trace in E2.
  destruct lr as [res|[[] cws]].
  - destruct Run as (-> & -> & _). split_and!; [congruence|congruence|].
    destruct E2 as (pre & item & post & tr0 & Eq & _ & _ & Shape).
    right. right. exists item. split; [rewrite Eq; apply elem_of_middle|].
    destruct Shape as [[_ ->]|[(err & _ & ->)|(err & res' & _ & ->)]]; eauto.
  - destruct Run as (-> & -> & _). split_and!; [congruence|congruence|auto].
  - destruct Run as (rr & st3 & tr3 & E3 & Run).
    apply doCanary_ready_loop_run in E3 as ((_ & C3 & P3) & _ & _ & R3).
    destruct rr as [res|].
    + destruct Run as (-> & -> & _). destruct R3 as (-> & _).
      split_and!; [congruence|congruence|auto].
    + destruct Run as (done4 & tr4 & E4 & _ & ->).
      pose proof (modifyTraffic_outcome _ _ _ _ _ _ _ E4) as (_ & _ & (_ & C4 & P4) & _ & _).
      split_and!; [congruence|congruence|].
      destruct done4; auto.
Qed.

Lemma firstn_all_take {A : Type} (l : list A) : take (length l) l = l.
Proof. apply firstn_all. Qed.

Lemma elem_class (g : Event -> bool) (tr : list Event) e :
  Forall (λ e, g e = true) tr -> e ∈ tr -> g e = true.
Proof. intros F In. rewrite Forall_forall in F. auto. Qed.

Lemma last_three {A : Type} (l : list A) (a b c : A) : last (l ++ [a; b; c]) = Some c.
Proof.
  change [a; b; c] with ([a; b] ++ [c]). rewrite app_assoc. apply last_snoc.
Qed.

(** X7. A [CreateOrUpdate] that hands back an error, whatever result
    comes with it, is the last call [doCanary] makes: no later target is
    touched, no readiness check and no canary fork follows, and the
    result is [(false, retryStop, err)] with reason
    ["CreateOrUpdateFailed"] and a message that names the target and
    carries the error text. *)
Theorem doCanary_update_failure ctx st (r : HandlerResult) st' tr :
  doCanary ctx st = (r, st', tr) ->
  ∀ item replicas patch seen result err,
    EvCreateOrUpdate item replicas patch seen result (Some err) ∈ tr ->
    r = (false, retryStop,
         Some (StructuredError {| Code := "DoCanaryError";
                                  Reason := "CreateOrUpdateFailed";
                                  Message := createOrUpdateFailedMessage item err |})) ∧
    last tr = Some (EvCreateOrUpdate item replicas patch seen result (Some err)).
Proof.
  intros Run item replicas patch seen result err In.
  apply doCanary_run in Run as (done1 & st1 & tr1 & E1 & Run).
  pose proof (modifyTraffic_outcome _ _ _ _ _ _ _ E1) as (T1 & _ & _ & _ & _).
  assert (N1 : EvCreateOrUpdate item replicas patch seen result (Some err) ∈ tr1 -> False).
  { intros I. by apply (elem_class _ _ _ T1) in I. }
  destruct done1.
  2:{ destruct Run as (_ & _ & ->). by exfalso. }
  cbv zeta in Run. destruct Run as (lr & st2 & tr2 & E2 & Run).
  pose proof (doCanary_loop_run _ _ _ _ _ _ _ _ E2) as (_ & _ & _ & R2).
  apply doCanary_loop_trace in E2.
  destruct lr as [res|[changed cws]].
  - destruct Run as (-> & _ & ->).
    destruct E2 as (pre & it & post & tr0 & _ & _ & NF & Shape).
    apply elem_of_app in In as [In|In]; [by exfalso|].
    destruct Shape as [[-> _]|[(err' & -> & _)|(err' & res' & -> & ->)]];
      (apply elem_of_app in In as [In|In];
       [exfalso; eapply not_fatal_elem; eauto|]).
    + apply list_elem_of_singleton in In. discriminate.
    + apply elem_of_cons in In as [In|In]; [discriminate|].
      apply list_elem_of_singleton in In. discriminate.
    + apply elem_of_cons in In as [In|In]; [discriminate|].
      apply elem_of_cons in In as [In|In]; [discriminate|].
      apply list_elem_of_singleton in In. injection In as -> -> -> -> -> ->.
      split; [reflexivity|]. rewrite app_assoc. apply last_three.
  - exfalso. destruct R2 as (_ & NF2 & _).
    assert (N2 : EvCreateOrUpdate item replicas patch seen result (Some err) ∈ tr2 -> False)
      by (intros I; eapply not_fatal_elem; eauto).
    destruct changed.
    + destruct Run as (_ & _ & ->). apply elem_of_app in In as [In|In]; auto.
    + destruct Run as (rr & st3 & tr3 & E3 & Run).
      apply doCanary_ready_loop_run in E3 as (_ & F3 & _).
      assert (N3 : EvCreateOrUpdate item replicas patch seen result (Some err) ∈ tr3 -> False).
      { intros I. by apply (elem_class _ _ _ F3) in I. }
      destruct rr as [res|].
      * destruct Run as (_ & _ & ->).
        apply elem_of_app in In as [In|In]; [auto|].
        apply elem_of_app in In as [In|In]; auto.
      * destruct Run as (done4 & tr4 & E4 & -> & _).
        pose proof (modifyTraffic_outcome _ _ _ _ _ _ _ E4) as (T4 & _ & _ & _ & _).
        apply elem_of_app in In as [In|In]; [auto|].
        apply elem_of_app in In as [In|In]; [auto|].
        apply elem_of_app in In as [In|In]; [auto|].
        by apply (elem_class _ _ _ T4) in In.
Qed.

(** The readiness loop of [doCanary], call by call: at most two calls
    for a strategy, each check asked about the replica count its info
    reports, and a check that says no ends the loop. *)
Lemma doCanary_ready_loop_trace cws st r st' tr :
  doCanary_ready_loop cws st = (r, st', tr) ->
  Forall asksOwnReplicas tr ∧
  (length tr <= 2 * length cws)%nat ∧
  match r with
  | Some _ =>
      ∃ tr0 info,
        tr = tr0 ++ [EvCheckPartitionReady info (Info_Status_Replicas info) false] ∧
        existsb notReady tr0 = false
  | None => True
  end.
Proof.
  revert st r st' tr. induction cws as [|cw rest IH]; intros st r st' tr.
  - simpl. intros [= <- <- <-]. split_and!; [constructor|simpl; lia|done].
  - simpl. rewrite run_bind. run_call_as [info w1]; simpl.
    rewrite run_bind. run_call_as [[] w2]; simpl.
    + destruct (doCanary_ready_loop rest _) as [[r1 st1] tr1] eqn:E.
      intros [= <- <- <-]. apply IH in E as (A & L & R).
      split_and!.
      * each_event; simpl; auto.
      * simpl. lia.
      * destruct r1; [|done]. destruct R as (tr0 & info' & -> & NR).
        by exists ([EvGetCanaryInfo cw;
                    EvCheckPartitionReady info (Info_Status_Replicas info) true] ++ tr0),
          info'.
    + intros [= <- <- <-]. split_and!.
      * each_event; simpl; auto.
      * simpl. lia.
      * by exists [EvGetCanaryInfo cw], info.
Qed.

Lemma asksOwnReplicas_other (g : Event -> bool) (tr : list Event) :
  (∀ e, g e = true -> isReadinessCheck e = false) ->
  Forall (λ e, g e = true) tr -> Forall asksOwnReplicas tr.
Proof.
  intros N F. eapply Forall_weaken; [|exact F].
  intros e Ge. apply N in Ge. destruct e; simpl; auto. discriminate.
Qed.

Lemma filter_others (f g : Event -> bool) (tr : list Event) :
  (∀ e, g e = true -> f e = false) ->
  Forall (λ e, g e = true) tr -> filter (λ e, f e = true) tr = [].
Proof.
  intros FG. induction 1 as [|e tr Ge _ IH]; [done|].
  rewrite filter_cons_False; [exact IH|]. rewrite (FG _ Ge). discriminate.
Qed.

Lemma filter_length_le (f : Event -> bool) (tr : list Event) :
  (length (filter (λ e, f e = true) tr) <= length tr)%nat.
Proof. apply length_filter. Qed.

(** ** No targets *)

(** X9. With an empty list of targets: [doInit] is done at once and
    calls nothing; without traffic management [doRecycle] is done at once
    and calls nothing, and [doCanary] is done at once, with an immediate
    requeue, calls nothing, and still augments the spec's patch. *)
Theorem no_targets ctx st :
  Canary_Targets ctx = [] ->
  doInit ctx st = ((true, retryDefault, None), st, []) ∧
  (Canary_Traffic ctx = None ->
   doRecycle ctx st = ((true, retryDefault, None), st, []) ∧
   doCanary ctx st
   = ((true, retryImmediately, None),
      setHeap (appendBuiltinPodTemplateMetadataPatch
                 (Canary_PodTemplateMetadataPatch ctx) (heap st)).2 st,
      [])).
Proof.
  intros T. split.
  - unfold doInit. by rewrite T.
  - intros N.
    assert (M : ∀ op st0, modifyTraffic ctx op st0 = ((true, retryImmediately), st0, []))
      by (intros; by apply modifyTraffic_no_traffic).
    split.
    + unfold doRecycle. rewrite T. cbn [doRecycle_loop].
      repeat (first [rewrite run_bind | rewrite run_ret | rewrite M];
              cbn [negb]; cbn iota beta).
      reflexivity.
    + unfold doCanary, onHeap. rewrite T. cbn [doCanary_loop].
      rewrite run_bind, M. cbn [negb]. cbn iota beta. rewrite run_bind.
      destruct (appendBuiltinPodTemplateMetadataPatch _ (heap st)) as [patch h2].
      repeat (first [rewrite run_bind | rewrite run_ret | rewrite M];
              cbn [negb doCanary_ready_loop fst snd]; cbn iota beta).
      reflexivity.
Qed.

(** ** The calls of modifyTraffic *)

(** X10. [modifyTraffic] makes at most one call of a manager operation
    and at most one readiness check, and the check only after an
    operation that came back as a no-op without error, or when the name
    stands for no operation at all.  It returns [(true, retryImmediately)]
    or [(false, retryDefault)], done exactly when nothing was called
    because the spec has no traffic section or when the readiness check
    said yes; and it leaves the heap, the step state and the pause signal
    as they were. *)
Theorem modifyTraffic_calls ctx op st (done : bool) retry st' tr :
  modifyTraffic ctx op st = ((done, retry), st', tr) ->
  sameContext st st' ∧
  retry = (if done then retryImmediately else retryDefault) ∧
  ((tr = [] ∧ Canary_Traffic ctx = None ∧ done = true)
   ∨ (∃ ready, tr = [EvCheckReady ready] ∧ traffic_method op = None ∧ done = ready)
   ∨ (∃ result err, tr = [EvTraffic op result err] ∧
                    (is_Some err ∨ result ≠ OperationResultNone) ∧ done = false)
   ∨ (∃ ready, tr = [EvTraffic op OperationResultNone None; EvCheckReady ready] ∧
               done = ready)).
Proof.
  intros Run.
  pose proof (modifyTraffic_outcome _ _ _ _ _ _ _ Run) as (_ & _ & S & _ & R).
  split; [exact S|]. split; [exact R|]. clear S R.
  revert Run. unfold modifyTraffic, traffic_call.
  destruct (Canary_Traffic ctx) as [t|];
    [destruct (traffic_method op) as [method|]|].
  - rewrite run_bind, run_call.
    destruct (method (world st)) as [[result err] w1]; simpl.
    destruct err as [err|].
    { intros [= <- <- <- <-]. right. right. left. exists result, (Some err). eauto. }
    destruct (String.eqb_spec result OperationResultNone) as [->|NE]; simpl.
    + rewrite run_bind, run_call; simpl.
      destruct (TrafficManager_CheckReady w1) as [ready w2]; simpl.
      destruct ready; simpl; intros [= <- <- <- <-]; right; right; right; by eexists.
    + intros [= <- <- <- <-]. right. right. left. exists result, None. eauto.
  - rewrite run_bind, run_ret. simpl.
    rewrite run_bind, run_call; simpl.
    destruct (TrafficManager_CheckReady (world st)) as [ready w2]; simpl.
    destruct ready; simpl; intros [= <- <- <- <-]; right; left; by eexists.
  - intros [= <- <- <- <-]. by left.
Qed.

(** ** More on the patch augmentation *)

(** What the augmentation leaves behind: the patch refers to a labels map
    and the heap is the one in which the two keys were stored into that
    map. *)
Lemma appendBuiltin_result patch h :
  ∃ m h2,
    appendBuiltinPodTemplateMetadataPatch patch h
    = ((appendBuiltinPodTemplateMetadataPatch patch h).1,
       mapStore m LabelPodRevision "canary" (mapStore m LabelCanary "true" h2)) ∧
    Labels (patches h2 !!! (appendBuiltinPodTemplateMetadataPatch patch h).1) = Some m.
Proof.
  rewrite appendBuiltin_run. cbv zeta. cbn [fst].
  set (ph := match patch with None => allocPatch h | Some p => (p, h) end).
  destruct (Labels (patches ph.2 !!! ph.1)) as [m|] eqn:L.
  - exists m, ph.2. by split.
  - eexists _, _. split; [reflexivity|].
    unfold setLabels. simpl. by rewrite lookup_total_insert_eq.
Qed.

Lemma labels_stored_twice (base : gmap string string) :
  <[LabelPodRevision := "canary"]>
    (<[LabelCanary := "true"]>
       (<[LabelPodRevision := "canary"]> (<[LabelCanary := "true"]> base)))
  = <[LabelPodRevision := "canary"]> (<[LabelCanary := "true"]> base).
Proof.
  apply map_eq. intros k. rewrite !lookup_insert. repeat case_decide; congruence.
Qed.

(** The two writes of the augmentation, as one update of the heap. *)
Lemma storeBuiltin_run m h :
  mapStore m LabelPodRevision "canary" (mapStore m LabelCanary "true" h)
  = {| patches := patches h;
       maps := <[m := <[LabelPodRevision := "canary"]>
                        (<[LabelCanary := "true"]> (readMap h m))]> (maps h) |}.
Proof.
  unfold mapStore at 1. rewrite readMap_mapStore. unfold mapStore. cbn [patches maps].
  by rewrite insert_insert_eq.
Qed.

(** X11. The augmentation is idempotent on what it hands back: run again
    on the patch and the heap it gave, it gives the same patch and the
    same heap. *)
Theorem appendBuiltin_idempotent patch h :
  appendBuiltinPodTemplateMetadataPatch
    (Some (appendBuiltinPodTemplateMetadataPatch patch h).1)
    (appendBuiltinPodTemplateMetadataPatch patch h).2
  = appendBuiltinPodTemplateMetadataPatch patch h.
Proof.
  destruct (appendBuiltin_result patch h) as (m & h2 & E & L).
  rewrite E. cbn [fst snd].
  set (p := (appendBuiltinPodTemplateMetadataPatch patch h).1) in *.
  rewrite appendBuiltin_run. cbv zeta. cbn [fst snd patches mapStore].
  rewrite L. cbn [fst snd]. f_equal.
  rewrite !storeBuiltin_run. cbn [patches maps]. f_equal.
  unfold readMap at 1. cbn [maps]. rewrite lookup_total_insert_eq.
  by rewrite labels_stored_twice, insert_insert_eq.
Qed.

(** X12. On a patch that is not nil the augmentation touches nothing
    but the two built-in keys: every other label of the patch keeps its
    value, the annotations field still refers to the same map, every
    other patch object is as before, and so is every map that existed
    before, the labels map of the patch apart. *)
Theorem appendBuiltin_frame p h :
  Annotations (patches (appendBuiltinPodTemplateMetadataPatch (Some p) h).2 !!! p)
    = Annotations (patches h !!! p) ∧
  (∀ q, q ≠ p ->
     patches (appendBuiltinPodTemplateMetadataPatch (Some p) h).2 !! q = patches h !! q) ∧
  (∀ m, is_Some (maps h !! m) -> Labels (patches h !!! p) ≠ Some m ->
     maps (appendBuiltinPodTemplateMetadataPatch (Some p) h).2 !! m = maps h !! m) ∧
  (∀ labels k,
     viewLabels (readPatch h p) = Some labels ->
     k ≠ LabelCanary -> k ≠ LabelPodRevision ->
     ∃ labels',
       viewLabels (readPatch (appendBuiltinPodTemplateMetadataPatch (Some p) h).2 p)
         = Some labels' ∧
       labels' !! k = labels !! k).
Proof.
  destruct (appendBuiltin_in_place p h) as [_ In]. cbv zeta in In.
  set (h' := (appendBuiltinPodTemplateMetadataPatch (Some p) h).2) in *.
  unfold readPatch.
  destruct (Labels (patches h !!! p)) as [m|] eqn:L.
  - destruct In as [P M]. split_and!.
    + by rewrite P.
    + intros q _. by rewrite P.
    + intros m' _ Ne. rewrite M. apply lookup_insert_ne. congruence.
    + intros labels k [= <-] N1 N2. rewrite P, L. simpl.
      eexists. split; [reflexivity|].
      unfold readMap at 1. rewrite M, lookup_total_insert_eq.
      by rewrite !lookup_insert_ne.
  - destruct In as (Fresh & P & M). split_and!.
    + by rewrite P, lookup_total_insert_eq.
    + intros q Ne. rewrite P. by apply lookup_insert_ne.
    + intros m' In' _. rewrite M. apply lookup_insert_ne.
      intros <-. apply Fresh. by apply elem_of_dom.
    + intros labels k V. discriminate.
Qed.

(** X13. A nil patch gets a patch object at a location that held no
    patch before, whose labels are the two built-in labels and nothing
    else and whose annotations are nil; every patch object and every map
    that existed before is left as it was. *)
Theorem appendBuiltin_nil h :
  ((appendBuiltinPodTemplateMetadataPatch None h).1 ∉ dom (patches h)) ∧
  (∀ q, is_Some (patches h !! q) ->
     patches (appendBuiltinPodTemplateMetadataPatch None h).2 !! q = patches h !! q) ∧
  (∀ m, is_Some (maps h !! m) ->
     maps (appendBuiltinPodTemplateMetadataPatch None h).2 !! m = maps h !! m) ∧
  readPatch (appendBuiltinPodTemplateMetadataPatch None h).2
            (appendBuiltinPodTemplateMetadataPatch None h).1
  = {| viewLabels := Some (<[LabelPodRevision := "canary"]> (<[LabelCanary := "true"]> ∅));
       viewAnnotations := None |}.
Proof.
  rewrite appendBuiltin_run. cbv zeta. cbn [fst snd allocPatch patches maps].
  set (p := fresh (dom (patches h))).
  assert (Fp : p ∉ dom (patches h)) by apply is_fresh.
  rewrite lookup_total_insert_eq. cbn [Labels fst snd allocMap maps patches].
  set (m := fresh (dom (maps h))).
  assert (Fm : m ∉ dom (maps h)) by apply is_fresh.
  rewrite storeBuiltin_run. cbn [patches maps setLabels].
  split_and!.
  - exact Fp.
  - intros q Iq. rewrite insert_insert_eq. apply lookup_insert_ne.
    intros <-. apply Fp. by apply elem_of_dom.
  - intros m' Im. rewrite !lookup_insert_ne; [done| |];
      intros <-; apply Fm; by apply elem_of_dom.
  - unfold readPatch, readMap, setLabels. cbn [patches maps].
    rewrite !lookup_total_insert_eq. cbn [Labels Annotations]. simpl.
    by rewrite !lookup_total_insert_eq.
Qed.

(** ** The two hooks *)

(** X14. Both hook handlers call the webhook executor once, each with
    its own hook type, and hand its answer back as it is.  The pre-step
    hook never raises the pause signal and changes nothing the executor
    keeps; the post-step hook leaves heap and step state alone and never
    lowers the pause signal. *)
Theorem hooks_pass_through ctx st :
  (∀ r st' tr,
     doPreStepHook ctx st = (r, st', tr) ->
     r = (webhook_Do ctx PreCanaryStepHook (world st)).1 ∧
     tr = [EvWebhook PreCanaryStepHook r.1.1 r.1.2 r.2] ∧
     sameContext st st') ∧
  (∀ r st' tr,
     doPostStepHook ctx st = (r, st', tr) ->
     r = (webhook_Do ctx PostCanaryStepHook (world st)).1 ∧
     filter (λ e, isPause e = false) tr = [EvWebhook PostCanaryStepHook r.1.1 r.1.2 r.2] ∧
     heap st' = heap st ∧ canaryState st' = canaryState st ∧ keepsPause st st').
Proof.
  split.
  - intros r st' tr. unfold doPreStepHook, do_webhook. rewrite run_call.
    intros [= <- <- <-]. by split_and!.
  - intros r st' tr. rewrite doPostStepHook_run.
    destruct (webhook_Do ctx PostCanaryStepHook (world st)) as [[[done retry] err] w].
    destruct done; intros [= <- <- <-]; split_and!; try done;
      unfold keepsPause; simpl; auto.
Qed.

(** ** Replaying a run *)

Lemma replay_app ctx (tr1 tr2 : list Event) c :
  replay ctx (tr1 ++ tr2) c = replay ctx tr2 (replay ctx tr1 c).
Proof. revert c. induction tr1 as [|e tr1 IH]; intros c; [done|]. simpl. apply IH. Qed.

Lemma sound_app ctx (tr1 tr2 : list Event) c :
  sound ctx (tr1 ++ tr2) c ↔ sound ctx tr1 c ∧ sound ctx tr2 (replay ctx tr1 c).
Proof.
  revert c. induction tr1 as [|e tr1 IH]; intros c; simpl; [tauto|].
  rewrite IH. tauto.
Qed.

Lemma withWorld_same (c : Cursor) : withWorld (at_world c) c = c.
Proof. by destruct c. Qed.

(** A traffic step replays: its calls are those of the manager method
    its name stands for and of the readiness check, and they touch
    nothing of the replay but the world. *)
Lemma modifyTraffic_replay ctx op method st (done : bool) retry st' tr c :
  traffic_method op = Some method ->
  managerCall op = Some method ->
  modifyTraffic ctx op st = ((done, retry), st', tr) ->
  at_world c = world st ->
  sound ctx tr c ∧ replay ctx tr c = withWorld (world st') c.
Proof.
  intros M M' Run W.
  destruct (Canary_Traffic ctx) as [t|] eqn:T.
  - rewrite (modifyTraffic_with_traffic _ _ _ _ _ T M) in Run.
    destruct (method (world st)) as [[result err] w1] eqn:E.
    destruct err as [err|].
    { injection Run as <- <- <- <-. simpl. rewrite M', W, E. split; [|done].
      split; [|done]. exists method. by rewrite E. }
    destruct (String.eqb result OperationResultNone).
    + destruct (TrafficManager_CheckReady w1) as [ready w2] eqn:E2.
      injection Run as <- <- <- <-. simpl. rewrite M', W, E. simpl. rewrite E2.
      split; [|done]. split; [exists method; by rewrite E|]. by split.
    + injection Run as <- <- <- <-. simpl. rewrite M', W, E. split; [|done].
      split; [|done]. exists method. by rewrite E.
  - rewrite (modifyTraffic_no_traffic _ _ _ T) in Run.
    injection Run as <- <- <- <-. simpl. split; [done|].
    rewrite <- W. symmetry. apply withWorld_same.
Qed.

(** The loop of [doInit] replays. *)
Lemma doInit_loop_replay ctx items st r st' tr c :
  doInit_loop ctx items st = (r, st', tr) ->
  at_world c = world st ->
  sound ctx tr c ∧ at_world (replay ctx tr c) = world st'.
Proof.
  revert st r st' tr c. induction items as [|item rest IH]; intros st r st' tr c.
  - simpl. by intros [= <- <- <-] W.
  - simpl. intros Run W. revert Run.
    rewrite run_bind. unfold get_workload at 1. rewrite run_call. cbn [world setWorld].
    destruct (Workloads_Get _ _ (world st)) as [[wi|] w1] eqn:E1; cbn [fst snd].
    + rewrite run_bind. unfold get_strategy at 1. rewrite run_call. cbn [world setWorld].
      destruct (Workload_CanaryStrategy wi w1) as [[err|cs] w2] eqn:E2; cbn [fst snd].
      * intros [= <- <- <-]. simpl. rewrite W, E1. simpl. rewrite E2. simpl.
        split_and!; try done. exists wi. by rewrite E2.
      * rewrite run_bind, run_call. cbn [world setWorld].
        destruct (Strategy_Initialize cs _ _ w2) as [[err|] w3] eqn:E3; cbn [fst snd].
        -- intros [= <- <- <-]. simpl. rewrite W, E1. simpl. rewrite E2. simpl.
           rewrite E3. simpl.
           split_and!; try done; [exists wi; by rewrite E2|exists cs; by rewrite E3].
        -- destruct (doInit_loop ctx rest _) as [[r1 st1] tr1] eqn:E.
           intros [= <- <- <-]. simpl. rewrite W, E1. simpl. rewrite E2. simpl.
           rewrite E3. simpl.
           match goal with
           | |- context [sound ctx tr1 ?c1] =>
               destruct (IH _ _ _ _ c1 E) as [S Wf]; [reflexivity|]
           end.
           split_and!; try done; [exists wi; by rewrite E2|exists cs; by rewrite E3].
    + intros [= <- <- <-]. simpl. rewrite W, E1. by split_and!.
Qed.

(** The loop of [doRecycle] replays. *)
Lemma doRecycle_loop_replay ctx items st r st' tr c :
  doRecycle_loop items st = (r, st', tr) ->
  at_world c = world st ->
  sound ctx tr c ∧ at_world (replay ctx tr c) = world st'.
Proof.
  revert st r st' tr c. induction items as [|item rest IH]; intros st r st' tr c.
  - simpl. by intros [= <- <- <-] W.
  - simpl. intros Run W. revert Run.
    rewrite run_bind. unfold get_workload at 1. rewrite run_call. cbn [world setWorld].
    destruct (Workloads_Get _ _ (world st)) as [[wi|] w1] eqn:E1; cbn [fst snd].
    + rewrite run_bind. unfold get_strategy at 1. rewrite run_call. cbn [world setWorld].
      destruct (Workload_CanaryStrategy wi w1) as [[err|cs] w2] eqn:E2; cbn [fst snd].
      * intros [= <- <- <-]. simpl. rewrite W, E1. simpl. rewrite E2. simpl.
        split_and!; try done. exists wi. by rewrite E2.
      * rewrite run_bind, run_call. cbn [world setWorld].
        destruct (Strategy_Delete cs w2) as [[err|] w3] eqn:E3; cbn [fst snd].
        -- intros [= <- <- <-]. simpl. rewrite W, E1. simpl. rewrite E2. simpl.
           rewrite E3. simpl.
           split_and!; try done; [exists wi; by rewrite E2|exists cs; by rewrite E3].
        -- destruct (doRecycle_loop rest _) as [[r1 st1] tr1] eqn:E.
           intros [= <- <- <-]. simpl. rewrite W, E1. simpl. rewrite E2. simpl.
           rewrite E3. simpl.
           match goal with
           | |- context [sound ctx tr1 ?c1] =>
               destruct (IH _ _ _ _ c1 E) as [S Wf]; [reflexivity|]
           end.
           split_and!; try done; [exists wi; by rewrite E2|exists cs; by rewrite E3].
    + intros [= <- <- <-]. simpl. rewrite W, E1. by split_and!.
Qed.

(** The loop 2.a of [doCanary] replays; the strategies it collects are
    those the replay has written, one for each item, in order. *)
Lemma doCanary_loop_replay ctx patch items changed cws st lr st' tr c :
  doCanary_loop patch items changed cws st = (lr, st', tr) ->
  at_world c = world st ->
  sound ctx tr c ∧ at_world (replay ctx tr c) = world st' ∧
  at_info (replay ctx tr c) = at_info c ∧
  at_checked (replay ctx tr c) = at_checked c ∧
  match lr with
  | inr (_, cws') =>
      ∃ pairs, at_written (replay ctx tr c) = at_written c ++ pairs ∧
               pairs.*1 = items ∧ cws' = cws ++ pairs.*2
  | inl _ => True
  end.
Proof.
  revert changed cws st lr st' tr c.
  induction items as [|item rest IH]; intros changed cws st lr st' tr c.
  - simpl. intros [= <- <- <-] W. split_and!; try done.
    exists []. by rewrite !app_nil_r.
  - simpl. intros Run W. revert Run.
    rewrite run_bind. unfold get_workload at 1. rewrite run_call. cbn [world setWorld].
    destruct (Workloads_Get _ _ (world st)) as [[wi|] w1] eqn:E1; cbn [fst snd].
    + rewrite run_bind. unfold get_strategy at 1. rewrite run_call. cbn [world setWorld].
      destruct (Workload_CanaryStrategy wi w1) as [[err|cs] w2] eqn:E2; cbn [fst snd].
      * intros [= <- <- <-]. simpl. rewrite W, E1. simpl. rewrite E2. simpl.
        split_and!; try done. exists wi. by rewrite E2.
      * rewrite run_bind. unfold getHeap at 1. cbn [heap setWorld].
        rewrite run_bind, run_call. cbn [world setWorld].
        destruct (Strategy_CreateOrUpdate cs _ _ w2) as [[result [err|]] w3] eqn:E3;
          cbn [fst snd].
        -- intros [= <- <- <-]. simpl. rewrite W, E1. simpl. rewrite E2. simpl.
           rewrite E3. simpl.
           split_and!; try done; [exists wi; by rewrite E2|exists cs; by rewrite E3].
        -- destruct (doCanary_loop patch rest _ _ _) as [[r1 st1] tr1] eqn:E.
           intros [= <- <- <-]. simpl. rewrite W, E1. simpl. rewrite E2. simpl.
           rewrite E3. simpl.
           match goal with
           | |- context [sound ctx tr1 ?c1] =>
               destruct (IH _ _ _ _ _ _ c1 E) as (S & Wf & I & C & R); [reflexivity|]
           end.
           split_and!; try done; [exists wi; by rewrite E2|exists cs; by rewrite E3|].
           destruct r1 as [res|[changed' cws']]; [done|].
           destruct R as (pairs & Wr & Items & ->). cbn [at_written] in Wr.
           exists ((item, cs) :: pairs). split_and!.
           ++ rewrite Wr. by rewrite <- app_assoc.
           ++ by rewrite fmap_cons, Items.
           ++ rewrite fmap_cons. cbn [snd]. by rewrite <- app_assoc.
    + intros [= <- <- <-]. simpl. rewrite W, E1. by split_and!.
Qed.

(** The loop 2.b of [doCanary] replays: it asks the strategies the
    replay has written, in order, each one once, with the two calls of
    [askCalls], and stops at the first one that is not ready. *)
Lemma doCanary_ready_loop_replay ctx (pairs : list (Target * CanaryStrategy))
    st r st' tr c :
  doCanary_ready_loop pairs.*2 st = (r, st', tr) ->
  at_world c = world st ->
  at_written c = pairs ->
  sound ctx tr c ∧ at_world (replay ctx tr c) = world st' ∧
  (∃ asked, tr = flat_map askCalls asked ∧
            (at_checked (replay ctx tr c)).*2 = (at_checked c).*2 ++ asked.*2) ∧
  match r with
  | None =>
      at_checked (replay ctx tr c) = at_checked c ++ ((λ t, (t, true)) <$> pairs.*1)
  | Some _ =>
      ∃ pre item post,
        pairs.*1 = pre ++ item :: post ∧
        at_checked (replay ctx tr c)
          = at_checked c ++ ((λ t, (t, true)) <$> pre) ++ [(item, false)]
  end.
Proof.
  revert st r st' tr c. induction pairs as [|[item cw] rest IH]; intros st r st' tr c.
  - simpl. intros [= <- <- <-] W Wr. split_and!; try done; [|by rewrite app_nil_r].
    exists []. by rewrite app_nil_r.
  - rewrite fmap_cons. cbn [snd doCanary_ready_loop]. intros Run W Wr. revert Run.
    rewrite run_bind, run_call. cbn [world setWorld].
    destruct (Strategy_GetCanaryInfo cw (world st)) as [info w1] eqn:E1; cbn [fst snd].
    rewrite run_bind, run_call. cbn [world setWorld].
    destruct (Info_CheckPartitionReady info _ w1) as [[] w2] eqn:E2; cbn [fst snd negb].
    + destruct (doCanary_ready_loop rest.*2 _) as [[r1 st1] tr1] eqn:E.
      intros [= <- <- <-]. simpl. rewrite Wr, W, E1. simpl. rewrite E2. simpl.
      match goal with
      | |- context [sound ctx tr1 ?c1] =>
          destruct (IH _ _ _ _ c1 E) as (S & Wf & A & R); [reflexivity|reflexivity|]
      end.
      split_and!; try done; [by eexists _, _|by exists item| |].
      * destruct A as (asked & -> & A). cbn [at_checked] in A.
        exists ((cw, info, true) :: asked). split; [done|].
        rewrite A, fmap_app, fmap_cons. simpl. by rewrite <- app_assoc.
      * cbn [at_checked] in R. destruct r1 as [res|].
        -- destruct R as (pre & it & post & Eq & R).
           exists (item :: pre), it, post. split; [simpl; f_equal; exact Eq|].
           rewrite R. simpl. by rewrite <- app_assoc.
        -- simpl in R. rewrite R. simpl. by rewrite <- app_assoc.
    + intros [= <- <- <-]. simpl. rewrite Wr, W, E1. simpl. rewrite E2. simpl.
      split_and!; try done; [by eexists _, _|by exists item| |].
      * exists [(cw, info, false)]. split; [done|]. by rewrite fmap_app.
      * by exists [], item, rest.*1.
Qed.

Lemma filter_askCalls (asked : list (CanaryStrategy * Info * bool)) :
  filter (λ e, isReadinessCheck e = true) (flat_map askCalls asked)
  = flat_map askCalls asked.
Proof.
  induction asked as [|a asked IH]; [done|]. simpl.
  rewrite !filter_cons_True by done. by rewrite IH.
Qed.

Lemma start_world (w : World) : at_world (start w) = w.
Proof. reflexivity. Qed.

(** [doInit] made the calls of its trace. *)
Lemma doInit_replay ctx st (r : HandlerResult) st' tr :
  doInit ctx st = (r, st', tr) -> madeCalls ctx st tr st'.
Proof.
  unfold doInit. rewrite run_bind.
  destruct (doInit_loop ctx (Canary_Targets ctx) st) as [[lr st1] tr1] eqn:E.
  apply (doInit_loop_replay _ _ _ _ _ _ (start (world st))) in E; [|done].
  destruct lr; simpl; rewrite app_nil_r; by intros [= <- <- <-].
Qed.

(** [doRecycle] made the calls of its trace. *)
Lemma doRecycle_replay ctx st (r : HandlerResult) st' tr :
  doRecycle ctx st = (r, st', tr) -> madeCalls ctx st tr st'.
Proof.
  intros Run. apply doRecycle_run in Run as (done1 & st1 & tr1 & E1 & Run).
  eapply (modifyTraffic_replay _ _ _ _ _ _ _ _ (start (world st))) in E1
    as [S1 R1]; [|reflexivity|reflexivity|done].
  unfold madeCalls.
  destruct done1.
  2:{ destruct Run as (_ & -> & ->). rewrite R1. by split. }
  destruct Run as (lr & st2 & tr2 & E2 & Run).
  eapply (doRecycle_loop_replay ctx _ _ _ _ _ (replay ctx tr1 (start (world st)))) in E2
    as [S2 W2]; [|by rewrite R1].
  destruct lr as [res|].
  - destruct Run as (_ & -> & ->). rewrite sound_app, replay_app. by split_and!.
  - destruct Run as (done3 & tr3 & E3 & -> & _).
    eapply (modifyTraffic_replay _ _ _ _ _ _ _ _
              (replay ctx tr2 (replay ctx tr1 (start (world st))))) in E3
      as [S3 R3]; [|reflexivity|reflexivity|done].
    rewrite !sound_app, !replay_app, R3. by split_and!.
Qed.

Lemma fst_tagged {A : Type} (b : bool) (l : list A) : ((λ t, (t, b)) <$> l).*1 = l.
Proof. induction l as [|x l IH]; [done|]. rewrite !fmap_cons. cbn [fst]. by rewrite IH. Qed.

Lemma not_in_tagged {A : Type} (l : list A) (x : A) :
  (x, false) ∈ (λ t, (t, true)) <$> l -> False.
Proof. intros In. apply list_elem_of_fmap in In as (y & [=] & _). Qed.

(** [doCanary] made the calls of its trace; the targets whose readiness
    it asked are the first targets of the spec, in order, each one asked
    once with the two calls of [askCalls], all of them with the answer
    yes when [doCanary] is done; an answer no is the last one and gives
    [(false, retryDefault, nil)]. *)
Lemma doCanary_replay ctx st (r : HandlerResult) st' tr :
  doCanary ctx st = (r, st', tr) ->
  madeCalls ctx st tr st' ∧
  (∃ k, (checkedTargets ctx st tr).*1 = take k (Canary_Targets ctx)) ∧
  (∃ asked, filter (λ e, isReadinessCheck e = true) tr = flat_map askCalls asked ∧
            asked.*2 = (checkedTargets ctx st tr).*2) ∧
  (r.1.1 = true ->
   checkedTargets ctx st tr = (λ t, (t, true)) <$> Canary_Targets ctx) ∧
  (∀ item, (item, false) ∈ checkedTargets ctx st tr ->
     last (checkedTargets ctx st tr) = Some (item, false) ∧
     r = (false, retryDefault, None)).
Proof.
  intros Run. apply doCanary_run in Run as (done1 & st1 & tr1 & E1 & Run).
  assert (S1 : sound ctx tr1 (start (world st)) ∧
               replay ctx tr1 (start (world st)) = withWorld (world st1) (start (world st)))
    by (eapply modifyTraffic_replay; [| |exact E1|]; reflexivity).
  destruct S1 as [S1 R1].
  pose proof (modifyTraffic_outcome _ _ _ _ _ _ _ E1) as (T1 & _ & _ & _ & _).
  assert (F1 : filter (λ e, isReadinessCheck e = true) tr1 = [])
    by (eapply filter_others; [|exact T1]; by_class).
  unfold madeCalls, checkedTargets.
  destruct done1.
  2:{ destruct Run as (-> & -> & ->). rewrite R1. simpl.
      split_and!; try done;
        [by exists 0%nat|exists []; by rewrite F1
        |intros item In; by apply elem_of_nil in In]. }
  cbv zeta in Run. destruct Run as (lr & st2 & tr2 & E2 & Run).
  pose proof (doCanary_loop_run _ _ _ _ _ _ _ _ E2) as (_ & T2 & _ & L2).
  assert (F2 : filter (λ e, isReadinessCheck e = true) tr2 = [])
    by (eapply filter_others; [|exact T2]; by_class).
  destruct (doCanary_loop_replay ctx _ _ _ _ _ _ _ _
              (withWorld (world st1) (start (world st))) E2 eq_refl)
    as (S2 & W2 & _ & C2 & Wr2).
  cbn [at_checked at_written withWorld start] in C2, Wr2.
  assert (Early : tr = tr1 ++ tr2 -> world st' = world st2 -> r.1.1 = false ->
            (sound ctx tr (start (world st)) ∧
             at_world (replay ctx tr (start (world st))) = world st') ∧
            (∃ k, (at_checked (replay ctx tr (start (world st)))).*1
                  = take k (Canary_Targets ctx)) ∧
            (∃ asked,
               filter (λ e, isReadinessCheck e = true) tr = flat_map askCalls asked ∧
               asked.*2 = (at_checked (replay ctx tr (start (world st)))).*2) ∧
            (r.1.1 = true ->
             at_checked (replay ctx tr (start (world st)))
             = (λ t, (t, true)) <$> Canary_Targets ctx) ∧
            (∀ item, (item, false) ∈ at_checked (replay ctx tr (start (world st))) ->
               last (at_checked (replay ctx tr (start (world st)))) = Some (item, false) ∧
               r = (false, retryDefault, None))).
  { intros -> Ws D. rewrite sound_app, replay_app, R1, C2, W2.
    split_and!; try done;
      [by exists 0%nat|exists []; by rewrite filter_app, F1, F2|congruence|].
    intros item In. by apply elem_of_nil in In. }
  destruct lr as [res|[[] cws]].
  - destruct Run as (-> & -> & ->). apply Early; try done.
    by destruct L2 as (_ & _ & _ & _ & _ & reason & msg & ->).
  - destruct Run as (-> & -> & ->). by apply Early.
  - clear Early. destruct Wr2 as (pairs & Wr2 & Items & ->). simpl in Wr2.
    destruct Run as (rr & st3 & tr3 & E3 & Run).
    pose proof (doCanary_ready_loop_run _ _ _ _ _ E3) as (_ & _ & _ & L3).
    destruct (doCanary_ready_loop_replay ctx pairs _ _ _ _
                (replay ctx tr2 (withWorld (world st1) (start (world st)))) E3 W2 Wr2)
      as (S3 & W3 & (asked & -> & A3) & R3).
    rewrite C2 in R3, A3. simpl in R3, A3.
    destruct rr as [res|].
    + destruct Run as (-> & -> & ->). destruct L3 as [-> _].
      destruct R3 as (pre & item & post & Eq & R3). rewrite Items in Eq.
      rewrite !sound_app, !replay_app, R1.
      split_and!; try done.
      * exists (S (length pre)). rewrite R3, fmap_app, fst_tagged, Eq. simpl.
        by rewrite (proj2 (take_middle pre post item)).
      * exists asked. by rewrite !filter_app, F1, F2, filter_askCalls.
      * rewrite R3. intros it In. apply elem_of_app in In as [In|In];
          [by apply not_in_tagged in In|].
        apply list_elem_of_singleton in In. injection In as ->.
        split; [apply last_snoc|done].
    + destruct Run as (done4 & tr4 & E4 & -> & ->).
      destruct (modifyTraffic_replay ctx "forkCanary" TrafficManager_ForkCanary _ _ _ _ _
                  (replay ctx (flat_map askCalls asked)
                     (replay ctx tr2 (withWorld (world st1) (start (world st)))))
                  eq_refl eq_refl E4 W3) as [S4 R4].
      pose proof (modifyTraffic_outcome _ _ _ _ _ _ _ E4) as (T4 & _ & _ & _ & _).
      assert (F4 : filter (λ e, isReadinessCheck e = true) tr4 = [])
        by (eapply filter_others; [|exact T4]; by_class).
      rewrite !sound_app, !replay_app, R1, R4. cbn [at_world at_checked withWorld].
      split_and!; try done.
      * exists (length (Canary_Targets ctx)).
        by rewrite R3, Items, fst_tagged, firstn_all_take.
      * exists asked. by rewrite !filter_app, F1, F2, F4, filter_askCalls, app_nil_r.
      * by rewrite R3, Items.
      * rewrite R3. intros it In. by apply not_in_tagged in In.
Qed.

(** ** Calls that fail *)

(** When all events but the last are harmless, a fatal event of the
    trace is the last one. *)
Lemma fatal_only_last (body : list Event) (lst : Event) :
  Forall (λ e, isFatalEvent e = false) body ->
  ∀ pre e post, body ++ [lst] = pre ++ e :: post -> isFatalEvent e = true ->
    post = [] ∧ e = lst.
Proof.
  intros F pre e post Eq Fe. destruct post as [|y post _] using rev_ind.
  - apply app_inj_tail in Eq as [_ ->]. done.
  - exfalso. rewrite app_comm_cons, app_assoc in Eq.
    apply app_inj_tail in Eq as [-> _].
    apply Forall_app in F as [_ F]. apply Forall_cons in F as [F _]. congruence.
Qed.

Lemma no_fatal_split (tr : list Event) :
  Forall (λ e, isFatalEvent e = false) tr ->
  ∀ pre e post, tr = pre ++ e :: post -> isFatalEvent e = true -> False.
Proof.
  intros F pre e post -> Fe.
  apply Forall_app in F as [_ F]. apply Forall_cons in F as [F _]. congruence.
Qed.

Lemma elem_split (tr : list Event) e : e ∈ tr -> ∃ pre post, tr = pre ++ e :: post.
Proof. intros In. by apply list_elem_of_split in In. Qed.

Lemma harmless_class (g : Event -> bool) (tr : list Event) :
  (∀ e, g e = true -> isFatalEvent e = false) ->
  Forall (λ e, g e = true) tr -> Forall (λ e, isFatalEvent e = false) tr.
Proof. intros N F. eapply Forall_weaken; [|exact F]. auto. Qed.

(** How a run of [doRecycle] can hold a fatal event: not at all, or as
    its last event, with the result that belongs to it. *)
Lemma doRecycle_fatal_shape ctx st (r : HandlerResult) st' tr :
  doRecycle ctx st = (r, st', tr) ->
  Forall (λ e, isFatalEvent e = false) tr ∨
  ∃ body lst item,
    tr = body ++ [lst] ∧ Forall (λ e, isFatalEvent e = false) body ∧
    ((lst = EvGet item false ∧
      r = fatal ReasonWorkloadInterfaceNotExist (notExistMessage item))
     ∨ (∃ err, lst = EvCanaryStrategy item (Some err) ∧
               r = fatal "InternalError" (strategyFailedMessage err))
     ∨ (∃ err, lst = EvDelete item (Some err) ∧
               r = fatal "DeleteFailed" (deleteFailedMessage item err))).
Proof.
  intros Run. apply doRecycle_run in Run as (done1 & st1 & tr1 & E1 & Run).
  pose proof (modifyTraffic_outcome _ _ _ _ _ _ _ E1) as (T1 & _ & _ & _ & _).
  assert (N1 : Forall (λ e, isFatalEvent e = false) tr1)
    by (eapply harmless_class; [|exact T1]; by_class).
  destruct done1.
  2:{ destruct Run as (_ & _ & ->). by left. }
  destruct Run as (lr & st2 & tr2 & E2 & Run).
  apply doRecycle_loop_run in E2 as (_ & _ & R2).
  destruct lr as [res|].
  - destruct Run as (-> & _ & ->).
    destruct R2 as (pre & item & post & tr0 & lst & _ & -> & _ & N0 & Shape).
    right. exists (tr1 ++ tr0), lst, item. rewrite app_assoc.
    split_and!; [done|by apply Forall_app|exact Shape].
  - destruct Run as (done3 & tr3 & E3 & -> & _). destruct R2 as [_ N2].
    pose proof (modifyTraffic_outcome _ _ _ _ _ _ _ E3) as (T3 & _ & _ & _ & _).
    left. rewrite !Forall_app. split_and!; auto.
    eapply harmless_class; [|exact T3]; by_class.
Qed.

(** The same for [doCanary]. *)
Lemma doCanary_fatal_shape ctx st (r : HandlerResult) st' tr :
  doCanary ctx st = (r, st', tr) ->
  Forall (λ e, isFatalEvent e = false) tr ∨
  ∃ body lst item,
    tr = body ++ [lst] ∧ Forall (λ e, isFatalEvent e = false) body ∧
    ((lst = EvGet item false ∧
      r = fatal ReasonWorkloadInterfaceNotExist (notExistMessage item))
     ∨ (∃ err, lst = EvCanaryStrategy item (Some err) ∧
               r = fatal "InternalError" (strategyFailedMessage err))
     ∨ (∃ replicas patch seen result err,
          lst = EvCreateOrUpdate item replicas patch seen result (Some err) ∧
          r = fatal "CreateOrUpdateFailed" (createOrUpdateFailedMessage item err))).
Proof.
  intros Run. apply doCanary_run in Run as (done1 & st1 & tr1 & E1 & Run).
  pose proof (modifyTraffic_outcome _ _ _ _ _ _ _ E1) as (T1 & _ & _ & _ & _).
  assert (N1 : Forall (λ e, isFatalEvent e = false) tr1)
    by (eapply harmless_class; [|exact T1]; by_class).
  destruct done1.
  2:{ destruct Run as (_ & _ & ->). by left. }
  cbv zeta in Run. destruct Run as (lr & st2 & tr2 & E2 & Run).
  pose proof (doCanary_loop_run _ _ _ _ _ _ _ _ E2) as (_ & _ & _ & R2).
  apply doCanary_loop_trace in E2.
  destruct lr as [res|[changed cws]].
  - destruct Run as (-> & _ & ->).
    destruct E2 as (pre & item & post & tr0 & _ & _ & N0 & Shape).
    right.
    destruct Shape as [[-> ->]|[(err & -> & ->)|(err & result & -> & ->)]].
    + exists (tr1 ++ tr0), (EvGet item false), item. rewrite app_assoc.
      split_and!; [done|by apply Forall_app|by left].
    + exists (tr1 ++ tr0 ++ [EvGet item true]), (EvCanaryStrategy item (Some err)), item.
      split_and!; [by rewrite <- !app_assoc| |right; left; by exists err].
      rewrite !Forall_app. split_and!; auto; by each_event.
    + eexists (tr1 ++ tr0 ++ [EvGet item true; EvCanaryStrategy item None]), _, item.
      split_and!; [by rewrite <- !app_assoc| |right; right; by eexists _, _, _, _, _].
      rewrite !Forall_app. split_and!; auto; by each_event.
  - destruct R2 as (_ & N2 & _). left.
    destruct changed.
    + destruct Run as (_ & _ & ->). by apply Forall_app.
    + destruct Run as (rr & st3 & tr3 & E3 & Run).
      apply doCanary_ready_loop_run in E3 as (_ & F3 & _).
      assert (N3 : Forall (λ e, isFatalEvent e = false) tr3)
        by (eapply harmless_class; [|exact F3]; by_class).
      destruct rr as [res|].
      * destruct Run as (_ & _ & ->). rewrite !Forall_app. by split_and!.
      * destruct Run as (done4 & tr4 & E4 & -> & _).
        pose proof (modifyTraffic_outcome _ _ _ _ _ _ _ E4) as (T4 & _ & _ & _ & _).
        rewrite !Forall_app. split_and!; auto.
        eapply harmless_class; [|exact T4]; by_class.
Qed.

(** A traffic step of a spec with a traffic section starts with the
    manager operation, and when it is done its calls are the operation,
    coming back as a no-op, and the readiness check saying yes. *)
Lemma modifyTraffic_shape ctx op method st (done : bool) retry st' tr t :
  Canary_Traffic ctx = Some t ->
  traffic_method op = Some method ->
  modifyTraffic ctx op st = ((done, retry), st', tr) ->
  (∃ result err, head tr = Some (EvTraffic op result err)) ∧
  (done = true -> tr = [EvTraffic op OperationResultNone None; EvCheckReady true]).
Proof.
  intros T M Run. rewrite (modifyTraffic_with_traffic _ _ _ _ _ T M) in Run.
  destruct (method (world st)) as [[result err] w1].
  destruct err as [err|].
  { injection Run as <- <- <- <-. split; [by eexists _, _|discriminate]. }
  destruct (String.eqb_spec result OperationResultNone) as [->|Ne].
  - destruct (TrafficManager_CheckReady w1) as [ready w2].
    injection Run as <- <- <- <-. split; [by eexists _, _|]. by intros ->.
  - injection Run as <- <- <- <-. split; [by eexists _, _|discriminate].
Qed.


(** ** The claims on the calls made *)

(** [doInit] is done exactly when its trace is, target after target, the
    three calls of [initCalls]; the executor's own state is untouched. *)
Lemma doInit_done_trace ctx st (r : HandlerResult) st' tr :
  doInit ctx st = (r, st', tr) ->
  (r.1.1 = true ↔ tr = flat_map (initCalls ctx) (Canary_Targets ctx)) ∧
  (r.1.1 = true -> r = (true, retryDefault, None)) ∧
  sameContext st st'.
Proof.
  unfold doInit. rewrite run_bind.
  destruct (doInit_loop ctx (Canary_Targets ctx) st) as [[lr st1] tr1] eqn:E.
  pose proof (doInit_loop_run _ _ _ _ _ _ E) as (S & _).
  apply doInit_loop_trace in E.
  destruct lr as [res|]; simpl; rewrite app_nil_r; intros [= <- <- <-].
  - destruct E as (pre & item & post & Eq & Shape). split_and!; auto.
    + split.
      * by destruct Shape as [[_ ->]|[(err & _ & ->)|(err & _ & ->)]].
      * intros T. exfalso. rewrite Eq, flat_map_app in T. simpl in T.
        destruct Shape as [[-> _]|[(err & -> & _)|(err & -> & _)]];
          apply app_inv_head in T; discriminate.
    + by destruct Shape as [[_ ->]|[(err & _ & ->)|(err & _ & ->)]].
  - split_and!; auto. by split.
Qed.

(** The three stretches of a run of [doRecycle]. *)
Lemma doRecycle_stretches ctx st (r : HandlerResult) st' tr :
  doRecycle ctx st = (r, st', tr) ->
  ∃ (done1 : bool) st1 tr1 tr2 tr3,
    modifyTraffic ctx "revertCanary" st
      = ((done1, if done1 then retryImmediately else retryDefault), st1, tr1) ∧
    tr = tr1 ++ tr2 ++ tr3 ∧
    Forall (λ e, isDelete e = false ∧ isTrafficOp "revertStable" e = false) tr1 ∧
    Forall (λ e, isRecycleEvent e = true) tr2 ∧
    Forall (λ e, isTrafficEvent e = true) tr3 ∧
    (done1 = false ->
       r = (false, retryDefault, None) ∧ st' = st1 ∧ tr2 = [] ∧ tr3 = []) ∧
    (∀ item, EvGet item false ∈ tr ->
       r = (false, retryStop,
            Some (StructuredError {| Code := "DoCanaryError";
                                     Reason := ReasonWorkloadInterfaceNotExist;
                                     Message := notExistMessage item |}))) ∧
    (∀ item err, EvDelete item (Some err) ∈ tr ->
       r = (false, retryStop,
            Some (StructuredError {| Code := "DoCanaryError";
                                     Reason := "DeleteFailed";
                                     Message := deleteFailedMessage item err |}))) ∧
    (tr3 ≠ [] -> omap deleteOk tr2 = Canary_Targets ctx) ∧
    (r.1.1 = true ->
       r = (true, retryDefault, None) ∧ done1 = true ∧
       omap deleteOk tr2 = Canary_Targets ctx ∧
       ∃ st2, doRecycle_loop (Canary_Targets ctx) st1 = (None, st2, tr2) ∧
              modifyTraffic ctx "revertStable" st2 = ((true, retryImmediately), st', tr3)).
Proof.
  unfold doRecycle. rewrite run_bind.
  destruct (modifyTraffic ctx "revertCanary" st) as [[[done1 d1] st1] tr1] eqn:E1.
  pose proof (modifyTraffic_outcome _ _ _ _ _ _ _ E1) as (T1 & O1 & _ & D1 & ->).
  assert (C1 : Forall (λ e, isDelete e = false ∧ isTrafficOp "revertStable" e = false) tr1).
  { eapply Forall_weaken; [|exact O1]. intros e [Op|[b ->]]; [|done].
    destruct e; try discriminate. simpl in *. split; [done|].
    apply String.eqb_eq in Op. by subst. }
  assert (NW : ∀ e, e ∈ tr1 -> isTrafficEvent e = true)
    by (by apply Forall_forall).
  destruct done1; simpl.
  2:{ rewrite app_nil_r. intros [= <- <- <-].
      exists false, st1, tr1, [], []. rewrite app_nil_r.
      split_and!; auto; try done.
      - intros item In. apply NW in In. discriminate.
      - intros item err In. apply NW in In. discriminate. }
  rewrite run_bind.
  destruct (doRecycle_loop (Canary_Targets ctx) st1) as [[lr st2] tr2] eqn:E2.
  pose proof (doRecycle_loop_run _ _ _ _ _ E2) as (S2 & F2 & R2).
  assert (NT : ∀ e, e ∈ tr2 -> isRecycleEvent e = true) by (by apply Forall_forall).
  destruct lr as [res|]; simpl.
  - rewrite app_nil_r. intros [= <- <- <-].
    exists true, st1, tr1, tr2, []. rewrite app_nil_r.
    destruct R2 as (pre & it & post & tr0 & last & Eq & -> & I1 & NF & R).
    split_and!; auto; try done.
    + intros item In. apply elem_of_app in In as [In|In]; [apply NW in In; discriminate|].
      apply elem_of_app in In as [In|In]; [exfalso; eapply not_fatal_elem; eauto|].
      apply list_elem_of_singleton in In. subst last.
      by destruct R as [[[= ->] ->]|[(err & [=] & _)|(err & [=] & _)]].
    + intros item err In. apply elem_of_app in In as [In|In]; [apply NW in In; discriminate|].
      apply elem_of_app in In as [In|In]; [exfalso; eapply not_fatal_elem; eauto|].
      apply list_elem_of_singleton in In. subst last.
      by destruct R as [[[=] _]|[(err' & [=] & _)|(err' & [= -> ->] & ->)]].
    + intros D. exfalso.
      destruct R as [[_ ->]|[(err & _ & ->)|(err & _ & ->)]]; discriminate.
  - destruct R2 as (R2 & NF). rewrite run_bind.
    destruct (modifyTraffic ctx "revertStable" st2) as [[[done3 d3] st3] tr3] eqn:E3.
    pose proof (modifyTraffic_outcome _ _ _ _ _ _ _ E3) as (T3 & _ & _ & D3 & ->).
    assert (NW3 : ∀ e, e ∈ tr3 -> isTrafficEvent e = true) by (by apply Forall_forall).
    assert (NoF : ∀ e, e ∈ tr1 ++ tr2 ++ tr3 -> isFatalEvent e = true -> False).
    { intros e In Fe. apply elem_of_app in In as [In|In].
      { apply NW in In. destruct e; try discriminate. }
      apply elem_of_app in In as [In|In]; [eapply not_fatal_elem; eauto|].
      apply NW3 in In. destruct e; try discriminate. }
    destruct done3; simpl; rewrite app_nil_r; intros [= <- <- <-];
      exists true, st1, tr1, tr2, tr3;
      split_and!; auto; try done;
      try (by intros item In; exfalso; eapply NoF; eauto);
      try (by intros item err In; exfalso; eapply NoF; eauto).
    intros _. split_and!; eauto.
Qed.

(** The [Delete] calls of a run of [doRecycle] are those of the first
    targets, in order. *)
Lemma doRecycle_delete_trace ctx st (r : HandlerResult) st' tr :
  doRecycle ctx st = (r, st', tr) ->
  (∃ k, omap deleteCall tr = take k (Canary_Targets ctx)) ∧
  (r.1.1 = true ->
   ∃ tr1 tr3,
     tr = tr1 ++ flat_map deleteCalls (Canary_Targets ctx) ++ tr3 ∧
     Forall (λ e, isTrafficEvent e = true) tr1 ∧
     Forall (λ e, isTrafficEvent e = true) tr3).
Proof.
  intros Run. apply doRecycle_run in Run as (done1 & st1 & tr1 & E1 & Run).
  pose proof (modifyTraffic_outcome _ _ _ _ _ _ _ E1) as (T1 & _ & _ & _ & _).
  assert (D1 : omap deleteCall tr1 = []) by (eapply omap_other; [|exact T1]; by_class).
  destruct done1.
  2:{ destruct Run as (-> & _ & ->). split; [|discriminate]. exists 0%nat. by rewrite D1. }
  destruct Run as (lr & st2 & tr2 & E2 & Run).
  apply doRecycle_loop_trace in E2.
  destruct lr as [res|].
  - destruct Run as (-> & _ & ->).
    destruct E2 as (pre & item & post & Eq & Shape).
    destruct (take_middle pre post item) as [T0 TS].
    split.
    + rewrite omap_app, D1, Eq. simpl.
      destruct Shape as [[-> _]|[(err & -> & _)|(err & -> & _)]];
        rewrite omap_app, omap_deleteCalls; simpl.
      * exists (length pre). by rewrite app_nil_r.
      * exists (length pre). by rewrite app_nil_r.
      * exists (S (length pre)). done.
    + intros D. exfalso.
      by destruct Shape as [[_ ->]|[(err & _ & ->)|(err & _ & ->)]].
  - destruct Run as (done3 & tr3 & E3 & -> & ->). subst tr2.
    pose proof (modifyTraffic_outcome _ _ _ _ _ _ _ E3) as (T3 & _ & _ & _ & _).
    assert (D3 : omap deleteCall tr3 = []) by (eapply omap_other; [|exact T3]; by_class).
    split.
    + exists (length (Canary_Targets ctx)).
      rewrite !omap_app, D1, D3, omap_deleteCalls, app_nil_r. simpl.
      by rewrite firstn_all.
    + intros _. by exists tr1, tr3.
Qed.

(** The four stretches of a run of [doCanary]. *)
Lemma doCanary_stretches ctx st (r : HandlerResult) st' tr :
  doCanary ctx st = (r, st', tr) ->
  ∃ (done1 : bool) st1 tr1 tr2 tr3 tr4,
    modifyTraffic ctx "forkStable" st
      = ((done1, if done1 then retryImmediately else retryDefault), st1, tr1) ∧
    tr = tr1 ++ tr2 ++ tr3 ++ tr4 ∧
    Forall (λ e, isWorkloadEvent e = false ∧ isTrafficOp "forkCanary" e = false) tr1 ∧
    Forall (λ e, isUpdateEvent e = true) tr2 ∧
    Forall (λ e, isReadinessCheck e = true) tr3 ∧
    Forall (λ e, isTrafficEvent e = true) tr4 ∧
    (done1 = false ->
       r = (false, retryDefault, None) ∧ st' = st1 ∧ tr2 = [] ∧ tr3 = [] ∧ tr4 = []) ∧
    (existsb isChange tr = true ->
       tr3 = [] ∧ tr4 = [] ∧
       (Forall (λ e, isFatalEvent e = false) tr -> r = (false, retryDefault, None))) ∧
    (tr3 ≠ [] ->
       omap updateNoop tr2 = Canary_Targets ctx ∧ existsb isChange tr2 = false) ∧
    (existsb notReady tr = true -> r = (false, retryDefault, None)) ∧
    (r.1.1 = true ->
       r = (true, retryImmediately, None) ∧ done1 = true ∧
       omap updateNoop tr2 = Canary_Targets ctx ∧
       existsb notReady tr3 = false ∧
       length (filter (λ e, saidReady e = true) tr3) = length (Canary_Targets ctx) ∧
       ∃ st3, modifyTraffic ctx "forkCanary" st3 = ((true, retryImmediately), st', tr4)).
Proof.
  intros Run. apply doCanary_run in Run as (done1 & st1 & tr1 & E1 & Run).
  pose proof (modifyTraffic_outcome _ _ _ _ _ _ _ E1) as (T1 & O1 & _ & _ & _).
  assert (C1 : Forall (λ e, isWorkloadEvent e = false ∧ isTrafficOp "forkCanary" e = false) tr1).
  { eapply Forall_weaken; [|exact O1]. intros e [Op|[b ->]]; [|done].
    destruct e; try discriminate. simpl in *. split; [done|].
    apply String.eqb_eq in Op. by subst. }
  assert (X1 : existsb isChange tr1 = false)
    by (eapply existsb_other; [|exact T1]; by_class).
  assert (Y1 : existsb notReady tr1 = false)
    by (eapply existsb_other; [|exact T1]; by_class).
  exists done1, st1, tr1.
  destruct done1.
  2:{ destruct Run as (-> & -> & ->). exists [], [], []. rewrite !app_nil_r.
      split_and!; auto; try done; try congruence. }
  cbv zeta in Run. destruct Run as (lr & st2 & tr2 & E2 & Run).
  apply doCanary_loop_run in E2 as (_ & F2 & _ & R2).
  assert (Y2 : existsb notReady tr2 = false)
    by (eapply existsb_other; [|exact F2]; by_class).
  exists tr2.
  destruct lr as [res|[[] cws]].
  - destruct Run as (-> & -> & ->).
    destruct R2 as (tr0 & last & -> & NF & FL & reason & msg & ->).
    exists [], []. rewrite !app_nil_r.
    split_and!; auto; try done.
    + intros _. split_and!; auto. intros F. exfalso.
      apply Forall_app in F as [_ F]. apply Forall_app in F as [_ F].
      apply Forall_cons in F as [F _]. congruence.
    + rewrite existsb_app, Y1, Y2. discriminate.
  - destruct Run as (-> & -> & ->). exists [], []. rewrite !app_nil_r.
    split_and!; auto; try done.
  - destruct R2 as (U2 & NF2 & Ch2 & Len). simpl in Ch2, Len. symmetry in Ch2.
    pose proof (updateNoop_all _ NF2 Ch2) as N2. rewrite U2 in N2.
    destruct Run as (rr & st3 & tr3 & E3 & Run).
    apply doCanary_ready_loop_run in E3 as (_ & F3 & _ & R3).
    assert (X3 : existsb isChange tr3 = false)
      by (eapply existsb_other; [|exact F3]; by_class).
    exists tr3.
    destruct rr as [res|].
    + destruct Run as (-> & -> & ->). destruct R3 as (-> & NR).
      exists []. rewrite !app_nil_r.
      split_and!; auto; try done.
      rewrite !existsb_app, X1, Ch2, X3. discriminate.
    + destruct R3 as (NR & Cnt).
      destruct Run as (done4 & tr4 & E4 & -> & ->).
      pose proof (modifyTraffic_outcome _ _ _ _ _ _ _ E4) as (T4 & _ & _ & _ & _).
      assert (X4 : existsb isChange tr4 = false)
        by (eapply existsb_other; [|exact T4]; by_class).
      assert (Y4 : existsb notReady tr4 = false)
        by (eapply existsb_other; [|exact T4]; by_class).
      exists tr4.
      split_and!; auto; try done.
      * rewrite !existsb_app, X1, Ch2, X3, X4. discriminate.
      * rewrite !existsb_app, Y1, Y2, NR, Y4. discriminate.
      * simpl. intros ->. split_and!; auto; [congruence|eauto].
Qed.

(** What the [CreateOrUpdate] events of a run of [doCanary] carry as
    their patch. *)
Lemma doCanary_patch_given ctx st (r : HandlerResult) st' tr :
  LabelCanary ≠ LabelPodRevision ->
  doCanary ctx st = (r, st', tr) ->
  ∀ item replicas patch seen result err,
    EvCreateOrUpdate item replicas patch seen result err ∈ tr ->
    (∀ p, Canary_PodTemplateMetadataPatch ctx = Some p -> patch = p) ∧
    ∃ labels, viewLabels seen = Some labels ∧
              labels !! LabelCanary = Some "true" ∧
              labels !! LabelPodRevision = Some "canary".
Proof.
  intros Ne Run item replicas patch seen result err In.
  apply doCanary_heap in Run as (done1 & st1 & tr1 & _ & G & _).
  rewrite Forall_forall in G. specialize (G _ In). simpl in G.
  destruct G as (-> & -> & _). split.
  - intros p ->. by rewrite appendBuiltin_run.
  - eapply appendBuiltin_labels; [|exact Ne]. apply surjective_pairing.
Qed.

(** The [CreateOrUpdate] events of a run of [doCanary] are those of
    the first targets, in order, each with the target's replicas and the
    augmented patch. *)
Lemma doCanary_update_trace ctx st (r : HandlerResult) st' tr :
  doCanary ctx st = (r, st', tr) ->
  (∃ k, omap updateCall tr = take k (Canary_Targets ctx)) ∧
  (∀ item replicas patch seen result err,
     EvCreateOrUpdate item replicas patch seen result err ∈ tr ->
     replicas = Replicas item ∧
     patch = (appendBuiltinPodTemplateMetadataPatch
                (Canary_PodTemplateMetadataPatch ctx) (heap st)).1 ∧
     seen = readPatch (appendBuiltinPodTemplateMetadataPatch
                         (Canary_PodTemplateMetadataPatch ctx) (heap st)).2 patch) ∧
  (r.1.1 = true -> omap updateCall tr = Canary_Targets ctx).
Proof.
  intros Run.
  pose proof (doCanary_heap _ _ _ _ _ Run) as (_ & _ & _ & _ & G & _).
  apply doCanary_run in Run as (done1 & st1 & tr1 & E1 & Run).
  pose proof (modifyTraffic_outcome _ _ _ _ _ _ _ E1) as (T1 & _ & _ & _ & _).
  assert (U1 : omap updateCall tr1 = []) by (eapply omap_other; [|exact T1]; by_class).
  assert (Given : ∀ item replicas patch seen result err,
            EvCreateOrUpdate item replicas patch seen result err ∈ tr ->
            replicas = Replicas item ∧
            patch = (appendBuiltinPodTemplateMetadataPatch
                       (Canary_PodTemplateMetadataPatch ctx) (heap st)).1 ∧
            seen = readPatch (appendBuiltinPodTemplateMetadataPatch
                                (Canary_PodTemplateMetadataPatch ctx) (heap st)).2 patch).
  { intros item replicas patch seen result err In.
    rewrite Forall_forall in G. specialize (G _ In). simpl in G.
    destruct G as (-> & -> & ->). done. }
  destruct done1.
  2:{ destruct Run as (-> & _ & ->). split_and!; [|exact Given|discriminate].
      exists 0%nat. by rewrite U1. }
  cbv zeta in Run. destruct Run as (lr & st2 & tr2 & E2 & Run).
  pose proof (doCanary_loop_run _ _ _ _ _ _ _ _ E2) as (_ & _ & _ & R2).
  apply doCanary_loop_trace in E2.
  destruct lr as [res|[changed cws]].
  - destruct Run as (-> & _ & ->).
    destruct E2 as (pre & item & post & tr0 & Eq & U0 & _ & Shape).
    destruct (take_middle pre post item) as [T0 TS].
    split_and!; [|exact Given|].
    + rewrite omap_app, U1, Eq. simpl.
      destruct Shape as [[-> _]|[(err & -> & _)|(err & res' & -> & _)]];
        rewrite omap_app, U0; simpl.
      * exists (length pre). by rewrite app_nil_r.
      * exists (length pre). by rewrite app_nil_r.
      * exists (S (length pre)). done.
    + intros D. exfalso.
      by destruct Shape as [[_ ->]|[(err & _ & ->)|(err & res' & _ & ->)]].
  - destruct R2 as (U2 & _).
    assert (All : ∀ tr34, omap updateCall tr34 = [] ->
                          omap updateCall (tr1 ++ tr2 ++ tr34) = Canary_Targets ctx).
    { intros tr34 U. by rewrite !omap_app, U1, U2, U, app_nil_r. }
    assert (Rest : ∃ tr34, tr = tr1 ++ tr2 ++ tr34 ∧ omap updateCall tr34 = []).
    { destruct changed.
      - destruct Run as (_ & _ & ->). exists []. by rewrite app_nil_r.
      - destruct Run as (rr & st3 & tr3 & E3 & Run).
        apply doCanary_ready_loop_run in E3 as (_ & F3 & _).
        assert (U3 : omap updateCall tr3 = [])
          by (eapply omap_other; [|exact F3]; by_class).
        destruct rr as [res|].
        + destruct Run as (_ & _ & ->). by exists tr3.
        + destruct Run as (done4 & tr4 & E4 & -> & _).
          pose proof (modifyTraffic_outcome _ _ _ _ _ _ _ E4) as (T4 & _ & _ & _ & _).
          assert (U4 : omap updateCall tr4 = [])
            by (eapply omap_other; [|exact T4]; by_class).
          exists (tr3 ++ tr4). split; [done|]. by rewrite omap_app, U3, U4. }
    destruct Rest as (tr34 & -> & U34).
    split_and!; [|exact Given|intros _; by apply All].
    exists (length (Canary_Targets ctx)). rewrite firstn_all_take. by apply All.
Qed.

(** The readiness events of a run of [doCanary]. *)
Lemma doCanary_readiness_trace ctx st (r : HandlerResult) st' tr :
  doCanary ctx st = (r, st', tr) ->
  Forall asksOwnReplicas tr ∧
  (∀ info partition,
     EvCheckPartitionReady info partition false ∈ tr ->
     last tr = Some (EvCheckPartitionReady info partition false)) ∧
  (length (filter (λ e, isReadinessCheck e = true) tr)
   <= 2 * length (Canary_Targets ctx))%nat.
Proof.
  intros Run. apply doCanary_run in Run as (done1 & st1 & tr1 & E1 & Run).
  pose proof (modifyTraffic_outcome _ _ _ _ _ _ _ E1) as (T1 & _ & _ & _ & _).
  assert (A1 : Forall asksOwnReplicas tr1)
    by (eapply asksOwnReplicas_other; [|exact T1]; by_class).
  assert (N1 : existsb notReady tr1 = false)
    by (eapply existsb_other; [|exact T1]; by_class).
  assert (C1 : filter (λ e, isReadinessCheck e = true) tr1 = [])
    by (eapply filter_others; [|exact T1]; by_class).
  assert (No : ∀ (l : list Event) info partition,
            existsb notReady l = false ->
            EvCheckPartitionReady info partition false ∈ l -> False).
  { intros l info partition N In. apply list_elem_of_In in In.
    assert (X : existsb notReady l = true) by (apply existsb_exists; eauto).
    congruence. }
  destruct done1.
  2:{ destruct Run as (_ & _ & ->). split_and!; [exact A1|by intros ?? ?%No|].
      rewrite C1. simpl. lia. }
  cbv zeta in Run. destruct Run as (lr & st2 & tr2 & E2 & Run).
  pose proof (doCanary_loop_run _ _ _ _ _ _ _ _ E2) as (_ & F2 & _ & R2).
  assert (A2 : Forall asksOwnReplicas tr2)
    by (eapply asksOwnReplicas_other; [|exact F2]; by_class).
  assert (N2 : existsb notReady tr2 = false)
    by (eapply existsb_other; [|exact F2]; by_class).
  assert (C2 : filter (λ e, isReadinessCheck e = true) tr2 = [])
    by (eapply filter_others; [|exact F2]; by_class).
  assert (Short : Forall asksOwnReplicas (tr1 ++ tr2) ∧
                  (∀ info partition,
                     EvCheckPartitionReady info partition false ∈ tr1 ++ tr2 ->
                     last (tr1 ++ tr2) = Some (EvCheckPartitionReady info partition false)) ∧
                  (length (filter (λ e, isReadinessCheck e = true) (tr1 ++ tr2))
                   <= 2 * length (Canary_Targets ctx))%nat).
  { split_and!; [by apply Forall_app| |rewrite filter_app, C1, C2; simpl; lia].
    intros info partition In. exfalso. eapply (No (tr1 ++ tr2)); eauto.
    by rewrite existsb_app, N1, N2. }
  destruct lr as [res|[[] cws]].
  - by destruct Run as (_ & _ & ->).
  - by destruct Run as (_ & _ & ->).
  - destruct R2 as (_ & _ & _ & Len). simpl in Len.
    destruct Run as (rr & st3 & tr3 & E3 & Run).
    pose proof (doCanary_ready_loop_run _ _ _ _ _ E3) as (_ & _ & _ & R3).
    apply doCanary_ready_loop_trace in E3 as (A3 & L3 & Shape).
    assert (Cnt : ∀ tr4, filter (λ e, isReadinessCheck e = true) tr4 = [] ->
              (length (filter (λ e, isReadinessCheck e = true) (tr1 ++ tr2 ++ tr3 ++ tr4))
               <= 2 * length (Canary_Targets ctx))%nat).
    { intros tr4 C4. rewrite !filter_app, C1, C2, C4, app_nil_r. simpl.
      pose proof (filter_length_le isReadinessCheck tr3). lia. }
    destruct rr as [res|].
    + destruct Run as (_ & _ & ->).
      destruct Shape as (tr0 & info0 & -> & NR0).
      split_and!;
        [apply Forall_app; split; [exact A1|apply Forall_app; split; [exact A2|exact A3]]| |].
      * intros info partition In. rewrite !app_assoc. rewrite last_snoc.
        apply elem_of_app in In as [In|In]; [by apply No in In|].
        apply elem_of_app in In as [In|In]; [by apply No in In|].
        apply elem_of_app in In as [In|In]; [by apply No in In|].
        apply list_elem_of_singleton in In. by rewrite In.
      * specialize (Cnt [] eq_refl). by rewrite app_nil_r in Cnt.
    + destruct R3 as (NR3 & _).
      destruct Run as (done4 & tr4 & E4 & -> & _).
      pose proof (modifyTraffic_outcome _ _ _ _ _ _ _ E4) as (T4 & _ & _ & _ & _).
      assert (N4 : existsb notReady tr4 = false)
        by (eapply existsb_other; [|exact T4]; by_class).
      split_and!.
      * rewrite !Forall_app. split_and!; auto.
        eapply asksOwnReplicas_other; [|exact T4]; by_class.
      * intros info partition In. exfalso. eapply No; [|exact In].
        by rewrite !existsb_app, N1, N2, NR3, N4.
      * apply Cnt. eapply filter_others; [|exact T4]; by_class.
Qed.

(** An event of a sound trace agrees with its call where the events
    before it have left the replay. *)
Lemma sound_at ctx (pre post : list Event) e c :
  sound ctx (pre ++ e :: post) c -> agrees ctx e (replay ctx pre c).
Proof. rewrite sound_app. simpl. tauto. Qed.

Lemma head_app_some {A : Type} (l l' : list A) (x : A) :
  head l = Some x -> head (l ++ l') = Some x.
Proof. by destruct l. Qed.

(** A fatal call of [doRecycle] is its last call. *)
Lemma doRecycle_fatal_last ctx st (r : HandlerResult) st' tr :
  doRecycle ctx st = (r, st', tr) ->
  ∀ pre e post, tr = pre ++ e :: post -> isFatalEvent e = true -> post = [].
Proof.
  intros Run pre e post Eq Fe.
  destruct (doRecycle_fatal_shape _ _ _ _ _ Run) as [N|(body & lst & item & -> & N & _)].
  - exfalso. eapply no_fatal_split; eauto.
  - by destruct (fatal_only_last _ _ N _ _ _ Eq Fe).
Qed.

(** A fatal call of [doCanary] is its last call, and the result is the
    structured error that belongs to the call. *)
Lemma doCanary_fatal ctx st (r : HandlerResult) st' tr :
  doCanary ctx st = (r, st', tr) ->
  (∀ pre e post, tr = pre ++ e :: post -> isFatalEvent e = true -> post = []) ∧
  (∀ item, EvGet item false ∈ tr ->
     r = (false, retryStop,
          Some (StructuredError {| Code := "DoCanaryError";
                                   Reason := ReasonWorkloadInterfaceNotExist;
                                   Message := notExistMessage item |}))) ∧
  (∀ item err, EvCanaryStrategy item (Some err) ∈ tr ->
     r = (false, retryStop,
          Some (StructuredError {| Code := "DoCanaryError";
                                   Reason := "InternalError";
                                   Message := strategyFailedMessage err |}))) ∧
  (∀ item replicas patch seen result err,
     EvCreateOrUpdate item replicas patch seen result (Some err) ∈ tr ->
     r = (false, retryStop,
          Some (StructuredError {| Code := "DoCanaryError";
                                   Reason := "CreateOrUpdateFailed";
                                   Message := createOrUpdateFailedMessage item err |}))).
Proof.
  intros Run.
  destruct (doCanary_fatal_shape _ _ _ _ _ Run) as [N|(body & lst & item & -> & N & Shape)].
  - split_and!.
    + intros pre e post Eq Fe. exfalso. eapply no_fatal_split; eauto.
    + intros it In. exfalso. by eapply not_fatal_elem; [exact N|exact In|].
    + intros it err In. exfalso. by eapply not_fatal_elem; [exact N|exact In|].
    + intros it replicas patch seen result err In. exfalso.
      by eapply not_fatal_elem; [exact N|exact In|].
  - assert (Last : ∀ e, e ∈ body ++ [lst] -> isFatalEvent e = true -> e = lst).
    { intros e In Fe. apply elem_split in In as (pre & post & Eq).
      by destruct (fatal_only_last _ _ N _ _ _ Eq Fe). }
    split_and!.
    + intros pre e post Eq Fe. by destruct (fatal_only_last _ _ N _ _ _ Eq Fe).
    + intros it In. apply Last in In; [|done]. subst lst.
      by destruct Shape as [[[= ->] ->]|[(err & [=] & _)|(? & ? & ? & ? & ? & [=] & _)]].
    + intros it err In. apply Last in In; [|done]. subst lst.
      by destruct Shape as [[[=] _]|[(err' & [= -> ->] & ->)|(? & ? & ? & ? & ? & [=] & _)]].
    + intros it replicas patch seen result err In. apply Last in In; [|done]. subst lst.
      by destruct Shape
        as [[[=] _]|[(err' & [=] & _)|(? & ? & ? & ? & err' & [= -> _ _ _ _ ->] & ->)]].
Qed.

(** X1. [doInit] makes the calls of its trace, these only and in this
    order: every call is the collaborator's operation, for the target and
    with the arguments the event names, on the world the calls before it
    left, and the world after the run is the one the last call left.  It
    reports done exactly when the trace is, for each target in order, one
    lookup by the target's cluster and name that finds the workload, one
    strategy request on the accessor found that succeeds and one
    [Initialize] on that strategy, with the names of the rollout and of
    the rollout-run, that succeeds, and nothing else; the result then is
    [(true, retryDefault, nil)].  In every case the heap, the step state
    and the pause signal are left as they were. *)
Theorem doInit_done_calls ctx st (r : HandlerResult) st' tr :
  doInit ctx st = (r, st', tr) ->
  madeCalls ctx st tr st' ∧
  (r.1.1 = true ↔ tr = flat_map (initCalls ctx) (Canary_Targets ctx)) ∧
  (r.1.1 = true -> r = (true, retryDefault, None)) ∧
  sameContext st st'.
Proof.
  intros Run. split; [by eapply doInit_replay|by eapply doInit_done_trace].
Qed.

(** C4. [doRecycle] makes the calls of its trace, these only and in
    this order, each one being the collaborator's operation the event
    names: an event of name ["revertCanary"] is a call of the manager's
    [RevertCanary], one of name ["revertStable"] a call of its
    [RevertStable].  The trace is three stretches in a row: the calls of
    reverting canary traffic, then lookups, strategy requests and
    [Delete] calls, then the calls of reverting stable traffic.  With a
    traffic section the first call of the run is [RevertCanary].  The
    canary revert is done exactly when none of its calls showed a traffic
    problem; when it is not done the result is
    [(false, retryDefault, nil)] and the two later stretches are empty:
    no [Delete] is made.  A lookup that finds nothing or a [Delete] that
    fails is the last call of the run and gives [(false, retryStop, err)]
    with a structured error.  The third stretch is empty unless the
    [Delete] of every target succeeded.  And [doRecycle] reports done
    only as [(true, retryDefault, nil)], after the canary revert was
    done, every target was deleted and the stable revert was done; with a
    traffic section the first stretch then is [RevertCanary] coming back
    as a no-op and the readiness check saying yes, and the third one the
    same with [RevertStable]. *)
Theorem doRecycle_phases ctx st (r : HandlerResult) st' tr :
  doRecycle ctx st = (r, st', tr) ->
  madeCalls ctx st tr st' ∧
  (∀ pre e post, tr = pre ++ e :: post -> isFatalEvent e = true -> post = []) ∧
  ∃ (done1 : bool) st1 tr1 tr2 tr3,
    modifyTraffic ctx "revertCanary" st
      = ((done1, if done1 then retryImmediately else retryDefault), st1, tr1) ∧
    tr = tr1 ++ tr2 ++ tr3 ∧
    Forall (λ e, isDelete e = false ∧ isTrafficOp "revertStable" e = false) tr1 ∧
    Forall (λ e, isRecycleEvent e = true) tr2 ∧
    Forall (λ e, isTrafficEvent e = true) tr3 ∧
    (done1 = false ->
       r = (false, retryDefault, None) ∧ st' = st1 ∧ tr2 = [] ∧ tr3 = []) ∧
    (∀ item, EvGet item false ∈ tr ->
       r = (false, retryStop,
            Some (StructuredError {| Code := "DoCanaryError";
                                     Reason := ReasonWorkloadInterfaceNotExist;
                                     Message := notExistMessage item |}))) ∧
    (∀ item err, EvDelete item (Some err) ∈ tr ->
       r = (false, retryStop,
            Some (StructuredError {| Code := "DoCanaryError";
                                     Reason := "DeleteFailed";
                                     Message := deleteFailedMessage item err |}))) ∧
    (tr3 ≠ [] -> omap deleteOk tr2 = Canary_Targets ctx) ∧
    (r.1.1 = true ->
       r = (true, retryDefault, None) ∧ done1 = true ∧
       omap deleteOk tr2 = Canary_Targets ctx ∧
       ∃ st2, doRecycle_loop (Canary_Targets ctx) st1 = (None, st2, tr2) ∧
              modifyTraffic ctx "revertStable" st2 = ((true, retryImmediately), st', tr3)) ∧
    done1 = negb (existsb trafficProblem tr1) ∧
    (∀ t, Canary_Traffic ctx = Some t ->
       (∃ result err, head tr = Some (EvTraffic "revertCanary" result err)) ∧
       (r.1.1 = true ->
          tr1 = [EvTraffic "revertCanary" OperationResultNone None; EvCheckReady true] ∧
          tr3 = [EvTraffic "revertStable" OperationResultNone None; EvCheckReady true])).
Proof.
  intros Run.
  split; [by eapply doRecycle_replay|]. split; [by eapply doRecycle_fatal_last|].
  destruct (doRecycle_stretches _ _ _ _ _ Run)
    as (done1 & st1 & tr1 & tr2 & tr3 & E1 & Tr & C1 & C2 & C3 & ND & NE & DF & T3 & Done).
  exists done1, st1, tr1, tr2, tr3.
  do 10 (split; [assumption|]).
  pose proof (modifyTraffic_outcome _ _ _ _ _ _ _ E1) as (_ & _ & _ & D1 & _).
  split; [exact D1|].
  intros t T.
  assert (Sh1 : (∃ result err, head tr1 = Some (EvTraffic "revertCanary" result err)) ∧
                (done1 = true ->
                 tr1 = [EvTraffic "revertCanary" OperationResultNone None; EvCheckReady true]))
    by (eapply modifyTraffic_shape; [exact T|reflexivity|exact E1]).
  destruct Sh1 as [(res & err & Hd) Sh1].
  split.
  - exists res, err. rewrite Tr. by apply head_app_some.
  - intros D. destruct (Done D) as (_ & D1' & _ & st2 & _ & E3).
    split; [by apply Sh1|].
    assert (Sh3 : (∃ result err, head tr3 = Some (EvTraffic "revertStable" result err)) ∧
                  (true = true ->
                   tr3 = [EvTraffic "revertStable" OperationResultNone None;
                          EvCheckReady true]))
      by (eapply modifyTraffic_shape; [exact T|reflexivity|exact E3]).
    by apply Sh3.
Qed.

(** X4. [doRecycle] makes the calls of its trace, these only and in
    this order, each one the collaborator's operation on the object the
    replay obtained for the target the event names.  It calls [Delete]
    for the first targets of the rollout-run spec, in their order, once
    for each; a lookup that finds nothing, a strategy request that fails
    and a [Delete] that fails are the last call of the run, so that no
    target after such a one is touched; and when [doRecycle] reports
    done, its calls on workloads are, for each target in order, exactly
    one lookup, one strategy request and one [Delete], between the calls
    of the two traffic reverts. *)
Theorem doRecycle_delete_order ctx st (r : HandlerResult) st' tr :
  doRecycle ctx st = (r, st', tr) ->
  madeCalls ctx st tr st' ∧
  (∃ k, omap deleteCall tr = take k (Canary_Targets ctx)) ∧
  (∀ pre e post, tr = pre ++ e :: post -> isFatalEvent e = true -> post = []) ∧
  (r.1.1 = true ->
   ∃ tr1 tr3,
     tr = tr1 ++ flat_map deleteCalls (Canary_Targets ctx) ++ tr3 ∧
     Forall (λ e, isTrafficEvent e = true) tr1 ∧
     Forall (λ e, isTrafficEvent e = true) tr3).
Proof.
  intros Run. destruct (doRecycle_delete_trace _ _ _ _ _ Run) as [Pre Done].
  split_and!; [by eapply doRecycle_replay|exact Pre|by eapply doRecycle_fatal_last|exact Done].
Qed.

(** C1, as the code has it.  [doCanary] makes the calls of its trace,
    these only and in this order, each one being the collaborator's
    operation the event names, on the arguments it names: an event of
    name ["forkStable"] is a call of the manager's [ForkStable], one of
    name ["forkCanary"] a call of its [ForkCanary].  A call on a target
    that is fatal (a lookup that finds nothing, a strategy request or a
    [CreateOrUpdate] that fails) is the last call of the run and gives
    [(false, retryStop, err)] with the structured error of that call.
    The partition readiness is asked target by target, in the order of
    the spec, each target at most once and on the info of its own canary
    strategy; a target that is not ready gives
    [(false, retryDefault, nil)], and when [doCanary] is done every target
    was asked and said yes.  The trace is four stretches in a row: the
    calls of forking stable traffic, then lookups, strategy requests and
    [CreateOrUpdate] calls, then readiness checks, then the calls of
    forking canary traffic.  With a traffic section the first call of the
    run is [ForkStable].  The stable fork is done exactly when none of
    its calls showed a traffic problem; when it is not done the result is
    [(false, retryDefault, nil)] and the three later stretches are empty,
    so no workload is touched.  When some [CreateOrUpdate] came back with
    a result other than the no-op, no readiness check and no canary fork
    is made, and the result is [(false, retryDefault, nil)] unless a call
    on a target was fatal.  A readiness check is made only when the
    [CreateOrUpdate] of every target came back as a no-op.  And
    [doCanary] reports done only as [(true, retryImmediately, nil)],
    after the stable fork was done, every target came back as a no-op,
    every target was found ready and the canary fork was done. *)
Theorem doCanary_steps ctx st (r : HandlerResult) st' tr :
  doCanary ctx st = (r, st', tr) ->
  madeCalls ctx st tr st' ∧
  (∀ pre e post, tr = pre ++ e :: post -> isFatalEvent e = true -> post = []) ∧
  (∀ item, EvGet item false ∈ tr ->
     r = (false, retryStop,
          Some (StructuredError {| Code := "DoCanaryError";
                                   Reason := ReasonWorkloadInterfaceNotExist;
                                   Message := notExistMessage item |}))) ∧
  (∀ item err, EvCanaryStrategy item (Some err) ∈ tr ->
     r = (false, retryStop,
          Some (StructuredError {| Code := "DoCanaryError";
                                   Reason := "InternalError";
                                   Message := strategyFailedMessage err |}))) ∧
  (∀ item replicas patch seen result err,
     EvCreateOrUpdate item replicas patch seen result (Some err) ∈ tr ->
     r = (false, retryStop,
          Some (StructuredError {| Code := "DoCanaryError";
                                   Reason := "CreateOrUpdateFailed";
                                   Message := createOrUpdateFailedMessage item err |}))) ∧
  (∃ k, (checkedTargets ctx st tr).*1 = take k (Canary_Targets ctx)) ∧
  (∀ item, (item, false) ∈ checkedTargets ctx st tr -> r = (false, retryDefault, None)) ∧
  (r.1.1 = true ->
   checkedTargets ctx st tr = (λ t, (t, true)) <$> Canary_Targets ctx) ∧
  ∃ (done1 : bool) st1 tr1 tr2 tr3 tr4,
    modifyTraffic ctx "forkStable" st
      = ((done1, if done1 then retryImmediately else retryDefault), st1, tr1) ∧
    tr = tr1 ++ tr2 ++ tr3 ++ tr4 ∧
    Forall (λ e, isWorkloadEvent e = false ∧ isTrafficOp "forkCanary" e = false) tr1 ∧
    Forall (λ e, isUpdateEvent e = true) tr2 ∧
    Forall (λ e, isReadinessCheck e = true) tr3 ∧
    Forall (λ e, isTrafficEvent e = true) tr4 ∧
    (done1 = false ->
       r = (false, retryDefault, None) ∧ st' = st1 ∧ tr2 = [] ∧ tr3 = [] ∧ tr4 = []) ∧
    (existsb isChange tr = true ->
       tr3 = [] ∧ tr4 = [] ∧
       (Forall (λ e, isFatalEvent e = false) tr -> r = (false, retryDefault, None))) ∧
    (tr3 ≠ [] ->
       omap updateNoop tr2 = Canary_Targets ctx ∧ existsb isChange tr2 = false) ∧
    (existsb notReady tr = true -> r = (false, retryDefault, None)) ∧
    (r.1.1 = true ->
       r = (true, retryImmediately, None) ∧ done1 = true ∧
       omap updateNoop tr2 = Canary_Targets ctx ∧
       existsb notReady tr3 = false ∧
       length (filter (λ e, saidReady e = true) tr3) = length (Canary_Targets ctx) ∧
       ∃ st3, modifyTraffic ctx "forkCanary" st3 = ((true, retryImmediately), st', tr4)) ∧
    done1 = negb (existsb trafficProblem tr1) ∧
    (∀ t, Canary_Traffic ctx = Some t ->
       (∃ result err, head tr = Some (EvTraffic "forkStable" result err)) ∧
       (r.1.1 = true ->
          tr1 = [EvTraffic "forkStable" OperationResultNone None; EvCheckReady true] ∧
          tr4 = [EvTraffic "forkCanary" OperationResultNone None; EvCheckReady true])).
Proof.
  intros Run.
  destruct (doCanary_replay _ _ _ _ _ Run) as (Made & Pre & _ & AllReady & NotReady).
  destruct (doCanary_fatal _ _ _ _ _ Run) as (Last & F1 & F2 & F3).
  do 5 (split; [assumption|]).
  split; [exact Pre|]. split; [intros item In; by destruct (NotReady item In)|].
  split; [exact AllReady|].
  destruct (doCanary_stretches _ _ _ _ _ Run)
    as (done1 & st1 & tr1 & tr2 & tr3 & tr4 & E1 & Tr & C1 & C2 & C3 & C4 & ND & Ch & Rd
        & NR & Done).
  exists done1, st1, tr1, tr2, tr3, tr4.
  do 11 (split; [assumption|]).
  pose proof (modifyTraffic_outcome _ _ _ _ _ _ _ E1) as (_ & _ & _ & D1 & _).
  split; [exact D1|].
  intros t T.
  assert (Sh1 : (∃ result err, head tr1 = Some (EvTraffic "forkStable" result err)) ∧
                (done1 = true ->
                 tr1 = [EvTraffic "forkStable" OperationResultNone None; EvCheckReady true]))
    by (eapply modifyTraffic_shape; [exact T|reflexivity|exact E1]).
  destruct Sh1 as [(res & err & Hd) Sh1].
  split.
  - exists res, err. rewrite Tr. by apply head_app_some.
  - intros D. destruct (Done D) as (_ & D1' & _ & _ & _ & st3 & E4).
    split; [by apply Sh1|].
    assert (Sh4 : (∃ result err, head tr4 = Some (EvTraffic "forkCanary" result err)) ∧
                  (true = true ->
                   tr4 = [EvTraffic "forkCanary" OperationResultNone None;
                          EvCheckReady true]))
      by (eapply modifyTraffic_shape; [exact T|reflexivity|exact E4]).
    by apply Sh4.
Qed.

(** C7. Whatever patch the rollout-run spec carries, nil or not, with or
    without labels, the built-in keys bound or not: [doCanary] makes the
    calls of its trace, these only and in this order, and every
    [CreateOrUpdate] among them is the operation of the canary strategy
    obtained for the target, applied to the replica count and to the
    patch the event names, handing back what the event says; that patch
    has a labels map that binds the canary label to ["true"] and the
    pod-revision label to ["canary"], and it is the spec's own patch when
    the spec has one. *)
Theorem doCanary_patch_labels ctx st (r : HandlerResult) st' tr :
  LabelCanary ≠ LabelPodRevision ->
  doCanary ctx st = (r, st', tr) ->
  madeCalls ctx st tr st' ∧
  ∀ pre item replicas patch seen result err post,
    tr = pre ++ EvCreateOrUpdate item replicas patch seen result err :: post ->
    (∃ cw, at_strategy (replay ctx pre (start (world st))) = Some (item, cw) ∧
           (Strategy_CreateOrUpdate cw replicas seen
              (at_world (replay ctx pre (start (world st))))).1 = (result, err)) ∧
    (∀ p, Canary_PodTemplateMetadataPatch ctx = Some p -> patch = p) ∧
    ∃ labels, viewLabels seen = Some labels ∧
              labels !! LabelCanary = Some "true" ∧
              labels !! LabelPodRevision = Some "canary".
Proof.
  intros Ne Run. pose proof (doCanary_replay _ _ _ _ _ Run) as ([Snd Wld] & _).
  split; [by split|].
  intros pre item replicas patch seen result err post ->.
  split; [exact (sound_at _ _ _ _ _ Snd)|].
  eapply (doCanary_patch_given _ _ _ _ _ Ne Run).
  apply elem_of_app. right. by left.
Qed.

(** X6. [doCanary] makes the calls of its trace, these only and in this
    order, each one the collaborator's operation on the object the replay
    obtained for the target the event names, applied to the arguments the
    event names.  It calls [CreateOrUpdate] for the first targets of the
    rollout-run spec, in their order, once for each; a lookup that finds
    nothing, a strategy request that fails and a [CreateOrUpdate] that
    fails are the last call of the run, so that no target after such a
    one is touched; every [CreateOrUpdate] is called with the target's
    own replica count and with one and the same patch, the augmented one;
    and when [doCanary] reports done, [CreateOrUpdate] was called for
    every target. *)
Theorem doCanary_update_order ctx st (r : HandlerResult) st' tr :
  doCanary ctx st = (r, st', tr) ->
  madeCalls ctx st tr st' ∧
  (∃ k, omap updateCall tr = take k (Canary_Targets ctx)) ∧
  (∀ pre e post, tr = pre ++ e :: post -> isFatalEvent e = true -> post = []) ∧
  (∀ pre item replicas patch seen result err post,
     tr = pre ++ EvCreateOrUpdate item replicas patch seen result err :: post ->
     (∃ cw, at_strategy (replay ctx pre (start (world st))) = Some (item, cw) ∧
            (Strategy_CreateOrUpdate cw replicas seen
               (at_world (replay ctx pre (start (world st))))).1 = (result, err)) ∧
     replicas = Replicas item ∧
     patch = (appendBuiltinPodTemplateMetadataPatch
                (Canary_PodTemplateMetadataPatch ctx) (heap st)).1 ∧
     seen = readPatch (appendBuiltinPodTemplateMetadataPatch
                         (Canary_PodTemplateMetadataPatch ctx) (heap st)).2 patch) ∧
  (r.1.1 = true -> omap updateCall tr = Canary_Targets ctx).
Proof.
  intros Run. pose proof (doCanary_replay _ _ _ _ _ Run) as ([Snd Wld] & _).
  destruct (doCanary_update_trace _ _ _ _ _ Run) as (Pre & Given & Done).
  destruct (doCanary_fatal _ _ _ _ _ Run) as (Last & _).
  split; [by split|]. split_and!; [exact Pre|exact Last| |exact Done].
  intros pre item replicas patch seen result err post ->.
  split; [exact (sound_at _ _ _ _ _ Snd)|].
  apply (Given item replicas patch seen result err).
  apply elem_of_app. right. by left.
Qed.

(** X8. [doCanary] makes the calls of its trace, these only and in this
    order.  Its readiness calls come in pairs, one pair for each target
    asked: the request for the canary info, made on the canary strategy
    whose [CreateOrUpdate] went through for that target, and the
    partition check, made on the info that request handed back and asked
    with the replica count that info reports.  The targets asked are the
    first targets of the rollout-run spec, in their order, each one once;
    a target that says no is the last one asked and gives
    [(false, retryDefault, nil)]; a check that says no is the last call
    of the run. *)
Theorem doCanary_readiness_checks ctx st (r : HandlerResult) st' tr :
  doCanary ctx st = (r, st', tr) ->
  madeCalls ctx st tr st' ∧
  (∃ k, (checkedTargets ctx st tr).*1 = take k (Canary_Targets ctx)) ∧
  (∃ asked,
     filter (λ e, isReadinessCheck e = true) tr = flat_map askCalls asked ∧
     asked.*2 = (checkedTargets ctx st tr).*2) ∧
  (∀ item, (item, false) ∈ checkedTargets ctx st tr ->
     last (checkedTargets ctx st tr) = Some (item, false) ∧
     r = (false, retryDefault, None)) ∧
  (∀ info partition,
     EvCheckPartitionReady info partition false ∈ tr ->
     last tr = Some (EvCheckPartitionReady info partition false)) ∧
  Forall asksOwnReplicas tr.
Proof.
  intros Run.
  destruct (doCanary_replay _ _ _ _ _ Run) as (Made & Pre & Asked & _ & NotReady).
  destruct (doCanary_readiness_trace _ _ _ _ _ Run) as (Own & Last & _).
  by split_and!.
Qed.

End Properties.

(** * Runs on the simulated fleet *)

Lemma triple_eta {A B C : Type} (x : A * B * C) : x = (x.1.1, x.1.2, x.2).
Proof. by destruct x as [[? ?] ?]. Qed.

Ltac by_run := vm_compute; repeat constructor.

(** A target's [CreateOrUpdate] comes back as created and the next target
    is unknown to the registry: the result is the fatal error, not
    [(false, retryDefault, nil)]. *)
Lemma doCanary_change_then_fatal :
  existsb isChange (doCanary Sim.ctxGhost Sim.stRunning).2 = true ∧
  (doCanary Sim.ctxGhost Sim.stRunning).1.1
    = (false, retryStop,
       Some (StructuredError {| Code := "DoCanaryError";
                                Reason := ReasonWorkloadInterfaceNotExist;
                                Message := "the workload (c1/ghost) does not exists" |})) ∧
  (doCanary Sim.ctxGhost Sim.stRunning).1.1 ≠ (false, retryDefault, None).
Proof. split_and!; [by vm_compute | by vm_compute | vm_compute; discriminate]. Qed.

(** The second of two targets is unknown to the registry; and two targets
    that both resolve and initialize. *)
Lemma doInit_fail_fast_witness :
  (EvGet (Sim.target "ghost") false ∈ (doInit Sim.ctxGhost Sim.stInit).2 ∧
   (doInit Sim.ctxGhost Sim.stInit).1.1
     = (false, retryStop,
        Some (StructuredError {| Code := "DoCanaryError";
                                 Reason := ReasonWorkloadInterfaceNotExist;
                                 Message := notExistMessage (Sim.target "ghost") |}))) ∧
  (omap resolved (doInit Sim.ctxBoth Sim.stInit).2 = Canary_Targets Sim.ctxBoth ∧
   omap initOk (doInit Sim.ctxBoth Sim.stInit).2 = Canary_Targets Sim.ctxBoth ∧
   (doInit Sim.ctxBoth Sim.stInit).1.1 = (true, retryDefault, None)).
Proof.
  split.
  - assert (In : EvGet (Sim.target "ghost") false ∈ (doInit Sim.ctxGhost Sim.stInit).2)
      by (apply list_elem_of_In; vm_compute; tauto).
    split; [exact In|].
    destruct (doInit_fail_fast _ _ _ _ _ (triple_eta (doInit Sim.ctxGhost Sim.stInit)))
      as [Missing _].
    destruct (Missing _ In) as [R _]. exact R.
  - assert (R1 : omap resolved (doInit Sim.ctxBoth Sim.stInit).2 = Canary_Targets Sim.ctxBoth)
      by (by vm_compute).
    assert (R2 : omap initOk (doInit Sim.ctxBoth Sim.stInit).2 = Canary_Targets Sim.ctxBoth)
      by (by vm_compute).
    split_and!; [exact R1 | exact R2 |].
    destruct (doInit_fail_fast _ _ _ _ _ (triple_eta (doInit Sim.ctxBoth Sim.stInit)))
      as [_ Ok].
    exact (Ok R1 R2).
Defined.

(** Outside the canary phase. *)
Lemma Do_pass_through_witness :
  inCanary Sim.ctxBoth (Sim.state Sim.fleetIdle Sim.emptyHeap StepPending) = false ∧
  Do newCanaryExecutor Sim.ctxBoth (Sim.state Sim.fleetIdle Sim.emptyHeap StepPending)
    = ((true, {| Requeue := true; RequeueAfter := 0 |}, None),
       Sim.state Sim.fleetIdle Sim.emptyHeap StepPending, []).
Proof.
  split; [reflexivity|]. apply Do_pass_through. reflexivity.
Defined.

(** From [StepPending] one call of [Do] moves on; at [StepSucceeded] a
    call of [Do] stays. *)
Lemma canary_state_machine_forward_witness :
  later (canaryState Sim.stInit)
        (canaryState (Do newCanaryExecutor Sim.ctxBoth Sim.stInit).1.2) ∧
  (canaryState Sim.stSucceeded = StepSucceeded ∧
   canaryState (Do newCanaryExecutor Sim.ctxBoth Sim.stSucceeded).1.2 = StepSucceeded).
Proof.
  split.
  - destruct (canary_state_machine_forward Sim.ctxBoth Sim.stInit) as (_ & _ & Fwd & _).
    destruct (Fwd _ _ _ (triple_eta (Do newCanaryExecutor Sim.ctxBoth Sim.stInit)))
      as [[Same|Later] _]; [|exact Later].
    vm_compute in Same. discriminate.
  - split; [reflexivity|].
    destruct (canary_state_machine_forward Sim.ctxBoth Sim.stSucceeded) as (_ & _ & _ & Stay).
    destruct (Stay eq_refl _ _ _
                (triple_eta (Do newCanaryExecutor Sim.ctxBoth Sim.stSucceeded)))
      as [Same _].
    exact Same.
Defined.

(** The stable fork changes the routes: not done, default delay, and
    [doCanary] hands that on with a nil error; without traffic management
    nothing is called. *)
Lemma modifyTraffic_transient_witness :
  "forkStable" ∈ ["forkStable"; "forkCanary"; "revertStable"; "revertCanary"] ∧
  modifyTraffic Sim.ctxTraffic "forkStable" Sim.stRunningPatch
    = ((false, retryDefault),
       setWorld (Sim.withForks true false Sim.fleet0) Sim.stRunningPatch,
       [EvTraffic "forkStable" OperationResultUpdated None]) ∧
  modifyTraffic Sim.ctxBoth "forkStable" Sim.stRunningPatch
    = ((true, retryImmediately), Sim.stRunningPatch, []) ∧
  (existsb trafficProblem (doCanary Sim.ctxTraffic Sim.stRunningPatch).2 = true ∧
   (doCanary Sim.ctxTraffic Sim.stRunningPatch).1.1 = (false, retryDefault, None)).
Proof.
  assert (Op : "forkStable" ∈ ["forkStable"; "forkCanary"; "revertStable"; "revertCanary"])
    by apply list_elem_of_here.
  split; [exact Op|].
  split; [|split].
  - destruct (modifyTraffic_transient Sim.ctxTraffic "forkStable" Sim.stRunningPatch Op)
      as ((method & M & Calls) & _).
    injection M as <-.
    destruct (Calls tt eq_refl OperationResultUpdated None
                (Sim.withForks true false Sim.fleet0) eq_refl) as [Changed _].
    apply Changed. right. discriminate.
  - destruct (modifyTraffic_transient Sim.ctxBoth "forkStable" Sim.stRunningPatch Op)
      as (_ & NoTraffic & _).
    apply NoTraffic. reflexivity.
  - assert (P : existsb trafficProblem (doCanary Sim.ctxTraffic Sim.stRunningPatch).2 = true)
      by (by vm_compute).
    split; [exact P|].
    destruct (modifyTraffic_transient Sim.ctxTraffic "forkStable" Sim.stRunningPatch Op)
      as (_ & _ & Canary & _).
    exact (Canary _ _ _ (triple_eta (doCanary Sim.ctxTraffic Sim.stRunningPatch)) P).
Defined.

(** A webhook that is done, with an error, and one that is not done. *)
Lemma doPostStepHook_pauses_once_witness :
  (webhook_Do Sim.ctxBoth PostCanaryStepHook (world Sim.stPostHook)
     = ((true, 0, Some (ForeignError "hook failed")), Sim.fleetDone) ∧
   paused (doPostStepHook Sim.ctxBoth Sim.stPostHook).1.2 = true ∧
   length (filter (λ e, isPause e = true) (doPostStepHook Sim.ctxBoth Sim.stPostHook).2) = 1%nat) ∧
  (webhook_Do Sim.ctxBoth PostCanaryStepHook
     (world (Sim.state Sim.fleetStuck Sim.emptyHeap StepPostCanaryStepHook))
     = ((false, 5000000000, None), Sim.fleetStuck) ∧
   paused (doPostStepHook Sim.ctxBoth
             (Sim.state Sim.fleetStuck Sim.emptyHeap StepPostCanaryStepHook)).1.2 = false).
Proof.
  split.
  - assert (W : webhook_Do Sim.ctxBoth PostCanaryStepHook (world Sim.stPostHook)
                = ((true, 0, Some (ForeignError "hook failed")), Sim.fleetDone))
      by reflexivity.
    split; [exact W|].
    destruct (doPostStepHook_pauses_once _ _ _ _ _ _ W) as (st' & tr & E & Done & _).
    rewrite E. destruct (Done eq_refl) as [Once Raised]. by split.
  - assert (W : webhook_Do Sim.ctxBoth PostCanaryStepHook
                  (world (Sim.state Sim.fleetStuck Sim.emptyHeap StepPostCanaryStepHook))
                = ((false, 5000000000, None), Sim.fleetStuck))
      by reflexivity.
    split; [exact W|].
    destruct (doPostStepHook_pauses_once _ _ _ _ _ _ W) as (st' & tr & E & _ & NotDone).
    rewrite E. destruct (NotDone eq_refl) as [_ Same]. exact Same.
Defined.

(** The webhook is done and hands back an error: the error is surfaced and
    the pause signal is raised. *)
Lemma doPostStepHook_pause_ignores_error_witness :
  webhook_Do Sim.ctxBoth PostCanaryStepHook (world Sim.stPostHook)
    = ((true, 0, Some (ForeignError "hook failed")), Sim.fleetDone) ∧
  (doPostStepHook Sim.ctxBoth Sim.stPostHook).1.1
    = (true, 0, Some (ForeignError "hook failed")) ∧
  paused (doPostStepHook Sim.ctxBoth Sim.stPostHook).1.2 = true.
Proof.
  assert (W : webhook_Do Sim.ctxBoth PostCanaryStepHook (world Sim.stPostHook)
              = ((true, 0, Some (ForeignError "hook failed")), Sim.fleetDone))
    by reflexivity.
  split; [exact W|].
  destruct (doPostStepHook_pause_ignores_error Sim.ctxBoth Sim.stPostHook) as [Both _].
  rewrite (Both _ _ _ W). by split.
Defined.

(** The stable fork is not done yet: [doCanary] returns before it gets to
    the patch, and the spec's own patch still binds the canary key to
    ["false"] and does not bind the pod-revision key. *)
Lemma doCanary_patch_untouched :
  Canary_PodTemplateMetadataPatch Sim.ctxTraffic = Some 1%positive ∧
  ¬ ∃ labels,
      viewLabels (readPatch (heap (doCanary Sim.ctxTraffic Sim.stRunningPatch).1.2) 1%positive)
        = Some labels ∧
      labels !! LabelCanary = Some "true" ∧
      labels !! LabelPodRevision = Some "canary".
Proof.
  split; [reflexivity|].
  intros (labels & V & L & _).
  vm_compute in V. injection V as <-. vm_compute in L. discriminate.
Qed.

(** Without traffic management the stable fork is done at once, and after
    the call the spec's own patch binds the two canary labels. *)
Lemma doCanary_patch_in_place_witness :
  Canary_PodTemplateMetadataPatch Sim.ctxPatch = Some 1%positive ∧
  LabelCanary ≠ LabelPodRevision ∧
  ∃ labels,
    viewLabels (readPatch (heap (doCanary Sim.ctxPatch Sim.stRunningPatch).1.2) 1%positive)
      = Some labels ∧
    labels !! LabelCanary = Some "true" ∧
    labels !! LabelPodRevision = Some "canary".
Proof.
  assert (Ne : LabelCanary ≠ LabelPodRevision) by (vm_compute; discriminate).
  split; [reflexivity|]. split; [exact Ne|].
  destruct (doCanary_patch_in_place Sim.ctxPatch 1%positive eq_refl) as [_ Run].
  destruct (Run _ _ _ _ (triple_eta (doCanary Sim.ctxPatch Sim.stRunningPatch)))
    as (d & s1 & t1 & E & _ & _ & Past).
  assert (D : d = true) by (vm_compute in E; by injection E as <-).
  exact (Past D Ne).
Defined.

(** * The resource builder and the random strings *)

Lemma append_nonempty (a b : string) : b ≠ "" -> a +:+ b ≠ "".
Proof. intros Nb. destruct a; [exact Nb|]. intros [=]. Qed.

Lemma randomName_nonempty uuid prefix : Builder.randomName uuid prefix ≠ "".
Proof. unfold Builder.randomName. apply append_nonempty. intros [=]. Qed.

Lemma buildName_named uuid b : Builder.name (Builder.buildName uuid b) ≠ "".
Proof.
  unfold Builder.buildName.
  destruct (String.eqb_spec (Builder.name b) ""); simpl; [|done].
  destruct (String.eqb (Builder.namePrefix b) ""); simpl; apply randomName_nonempty.
Qed.

Lemma buildName_settled uuid b : Builder.name b ≠ "" -> Builder.buildName uuid b = b.
Proof.
  intros N. unfold Builder.buildName.
  by destruct (String.eqb_spec (Builder.name b) "").
Qed.

(** X15. After [complete] the name, the namespace, the application name
    and the cluster of a builder are all set, and a second [complete]
    changes nothing, whatever UUID it would draw. *)
Theorem builder_complete_settles uuid uuid' b :
  Builder.name (Builder.complete uuid b) ≠ "" ∧
  Builder.namespace (Builder.complete uuid b) ≠ "" ∧
  Builder.appName (Builder.complete uuid b) ≠ "" ∧
  Builder.cluster (Builder.complete uuid b) ≠ "" ∧
  Builder.complete uuid' (Builder.complete uuid b) = Builder.complete uuid b.
Proof.
  assert (Set4 : ∀ u c,
            Builder.name (Builder.complete u c) = Builder.name (Builder.buildName u c) ∧
            Builder.namespace (Builder.complete u c) ≠ "" ∧
            Builder.appName (Builder.complete u c) ≠ "" ∧
            Builder.cluster (Builder.complete u c) ≠ "").
  { intros u c. unfold Builder.complete. cbv zeta.
    destruct (Builder.buildName u c) as [ns n np an cl]. simpl.
    unfold Builder.DefaultNamespace, Builder.DefaultAppName, Builder.DefaultCluster.
    destruct (String.eqb_spec ns ""); simpl;
      (destruct (String.eqb_spec an ""); simpl);
      (destruct (String.eqb_spec cl ""); simpl);
      split_and!; first [done | by intros [=]]. }
  destruct (Set4 uuid b) as (N & NS & AN & CL).
  pose proof (buildName_named uuid b) as Named. rewrite <- N in Named.
  split_and!; auto.
  revert Named NS AN CL. generalize (Builder.complete uuid b). intros c Named NS AN CL.
  unfold Builder.complete. cbv zeta. rewrite (buildName_settled _ _ Named).
  destruct c as [ns n np an cl]. simpl in *.
  destruct (String.eqb_spec ns ""); [done|]; simpl.
  destruct (String.eqb_spec an ""); [done|]; simpl.
  destruct (String.eqb_spec cl ""); [done|]; simpl. reflexivity.
Qed.

(** X16. [complete] keeps what the caller gave and fills in the rest: a
    field that is set stays as it is, an empty namespace, application name
    or cluster becomes its default, the name prefix is never changed, and
    an empty name becomes the prefix, or ["test"] when there is no prefix,
    followed by a dash and the UUID, so that two UUIDs give two names. *)
Theorem builder_complete_fields uuid b :
  Builder.namePrefix (Builder.complete uuid b) = Builder.namePrefix b ∧
  Builder.name (Builder.complete uuid b)
    = (if String.eqb (Builder.name b) ""
       then (if String.eqb (Builder.namePrefix b) ""
             then Builder.DefaultName else Builder.namePrefix b) +:+ "-" +:+ uuid
       else Builder.name b) ∧
  Builder.namespace (Builder.complete uuid b)
    = (if String.eqb (Builder.namespace b) ""
       then Builder.DefaultNamespace else Builder.namespace b) ∧
  Builder.appName (Builder.complete uuid b)
    = (if String.eqb (Builder.appName b) ""
       then Builder.DefaultAppName else Builder.appName b) ∧
  Builder.cluster (Builder.complete uuid b)
    = (if String.eqb (Builder.cluster b) ""
       then Builder.DefaultCluster else Builder.cluster b) ∧
  (∀ uuid2, Builder.name b = "" ->
     Builder.complete uuid b = Builder.complete uuid2 b -> uuid = uuid2).
Proof.
  assert (Fields : ∀ u,
    Builder.namePrefix (Builder.complete u b) = Builder.namePrefix b ∧
    Builder.name (Builder.complete u b)
      = (if String.eqb (Builder.name b) ""
         then (if String.eqb (Builder.namePrefix b) ""
               then Builder.DefaultName else Builder.namePrefix b) +:+ "-" +:+ u
         else Builder.name b) ∧
    Builder.namespace (Builder.complete u b)
      = (if String.eqb (Builder.namespace b) ""
         then Builder.DefaultNamespace else Builder.namespace b) ∧
    Builder.appName (Builder.complete u b)
      = (if String.eqb (Builder.appName b) ""
         then Builder.DefaultAppName else Builder.appName b) ∧
    Builder.cluster (Builder.complete u b)
      = (if String.eqb (Builder.cluster b) ""
         then Builder.DefaultCluster else Builder.cluster b)).
  { intros u. destruct b as [ns n np an cl].
    unfold Builder.complete, Builder.buildName, Builder.randomName, Builder.setName.
    cbn [Builder.name Builder.namePrefix Builder.namespace Builder.appName Builder.cluster].
    destruct (String.eqb n ""), (String.eqb np ""); simpl;
      (destruct (String.eqb ns ""); simpl);
      (destruct (String.eqb an ""); simpl);
      (destruct (String.eqb cl ""); simpl);
      split_and!; reflexivity. }
  destruct (Fields uuid) as (F1 & F2 & F3 & F4 & F5).
  split_and!; auto.
  intros uuid2 Empty Eq.
  destruct (Fields uuid2) as (_ & G2 & _).
  apply (f_equal Builder.name) in Eq. rewrite F2, G2, Empty in Eq. simpl in Eq.
  apply (inj (String.app _)) in Eq. by apply (inj (String.app "-")) in Eq.
Qed.

Lemma string_length_app (a b : string) :
  String.length (a +:+ b) = (String.length a + String.length b)%nat.
Proof.
  induction a as [|c a IH]; [reflexivity|].
  change (String c a +:+ b) with (String c (a +:+ b)). simpl. by rewrite IH.
Qed.

Lemma pretty_three_digits (d : Z) :
  100 <= d < 1000 -> String.length (pretty d) = 3%nat.
Proof.
  intros R.
  assert (All : forallb (λ k, Nat.eqb (String.length (pretty (Z.of_nat k))) 3)
                        (seq 100 900) = true) by (vm_compute; reflexivity).
  rewrite forallb_forall in All.
  specialize (All (Z.to_nat d)). rewrite Z2Nat.id in All by lia.
  apply Nat.eqb_eq, All, in_seq. lia.
Qed.

(** X17. For a number that [rand.Intn(999)] can give, [RandStr] is the
    text of the time followed by a number between 100 and 998, so by three
    decimal digits exactly: the text is three characters longer than the
    time. *)
Theorem RandStr_three_digits now drawn :
  0 <= drawn < 999 ->
  (∃ d, 100 <= d < 999 ∧ Utils.RandStr now drawn = now +:+ pretty d) ∧
  String.length (Utils.RandStr now drawn) = (String.length now + 3)%nat.
Proof.
  intros R. unfold Utils.RandStr. cbv zeta.
  destruct (Z.ltb_spec drawn 100).
  - split; [exists (drawn + 100); split; [lia|done]|].
    rewrite string_length_app, pretty_three_digits; [done|lia].
  - split; [exists drawn; split; [lia|done]|].
    rewrite string_length_app, pretty_three_digits; [done|lia].
Qed.

(** X18. Two draws give the same text at the same time exactly when they
    are equal or when one is below 100 and the other is that one plus
    100: the draws below 100 are folded onto the hundred above them, and
    nothing else collides. *)
Theorem RandStr_collisions now a b :
  0 <= a < 999 -> 0 <= b < 999 ->
  (Utils.RandStr now a = Utils.RandStr now b
   ↔ a = b ∨ (a < 100 ∧ b = a + 100) ∨ (b < 100 ∧ a = b + 100)).
Proof.
  intros Ra Rb. unfold Utils.RandStr. cbv zeta.
  split.
  - intros Eq. apply (inj (String.app now)), (inj pretty) in Eq.
    destruct (Z.ltb_spec a 100), (Z.ltb_spec b 100); lia.
  - intros Cases.
    assert (E : (if a <? 100 then a + 100 else a) = (if b <? 100 then b + 100 else b))
      by (destruct (Z.ltb_spec a 100), (Z.ltb_spec b 100); lia).
    by rewrite E.
Qed.

(** * Further runs on the simulated fleets *)

(** The second of two targets is unknown to the registry. *)
Lemma doInit_failure_witness :
  (doInit Sim.ctxGhost Sim.stInit).1.1.1.1 = false ∧
  ∃ pre item post, Canary_Targets Sim.ctxGhost = pre ++ item :: post.
Proof.
  assert (D : (doInit Sim.ctxGhost Sim.stInit).1.1.1.1 = false) by (by vm_compute).
  split; [exact D|].
  destruct (doInit_failure _ _ _ _ _ (triple_eta (doInit Sim.ctxGhost Sim.stInit)) D)
    as (pre & item & post & Eq & _).
  by exists pre, item, post.
Defined.

(** Recycling with traffic management. *)
Lemma doRecycle_outcomes_witness :
  sameContext Sim.stRecycling (doRecycle Sim.ctxTraffic Sim.stRecycling).1.2.
Proof.
  exact (proj1 (doRecycle_outcomes _ _ _ _ _
                  (triple_eta (doRecycle Sim.ctxTraffic Sim.stRecycling)))).
Defined.

(** A run that ends on a target unknown to the registry. *)
Lemma doCanary_outcomes_witness :
  canaryState (doCanary Sim.ctxGhost Sim.stRunning).1.2 = canaryState Sim.stRunning ∧
  paused (doCanary Sim.ctxGhost Sim.stRunning).1.2 = paused Sim.stRunning.
Proof.
  destruct (doCanary_outcomes _ _ _ _ _ (triple_eta (doCanary Sim.ctxGhost Sim.stRunning)))
    as (C & P & _).
  by split.
Defined.

(** The canary of the first target cannot be written. *)
Lemma doCanary_update_failure_witness :
  EvCreateOrUpdate (Sim.target "web") 1
    (appendBuiltinPodTemplateMetadataPatch None Sim.emptyHeap).1
    (readPatch (appendBuiltinPodTemplateMetadataPatch None Sim.emptyHeap).2
               (appendBuiltinPodTemplateMetadataPatch None Sim.emptyHeap).1)
    OperationResultNone (Some "refused")
    ∈ (doCanary Sim.ctxBoth (Sim.state Sim.fleetStuck Sim.emptyHeap StepRunning)).2 ∧
  (doCanary Sim.ctxBoth (Sim.state Sim.fleetStuck Sim.emptyHeap StepRunning)).1.1
    = (false, retryStop,
       Some (StructuredError
               {| Code := "DoCanaryError";
                  Reason := "CreateOrUpdateFailed";
                  Message := createOrUpdateFailedMessage (Sim.target "web") "refused" |})).
Proof.
  assert (In : EvCreateOrUpdate (Sim.target "web") 1
                 (appendBuiltinPodTemplateMetadataPatch None Sim.emptyHeap).1
                 (readPatch (appendBuiltinPodTemplateMetadataPatch None Sim.emptyHeap).2
                            (appendBuiltinPodTemplateMetadataPatch None Sim.emptyHeap).1)
                 OperationResultNone (Some "refused")
               ∈ (doCanary Sim.ctxBoth
                    (Sim.state Sim.fleetStuck Sim.emptyHeap StepRunning)).2)
    by (apply list_elem_of_In; vm_compute; tauto).
  split; [exact In|].
  exact (proj1 (doCanary_update_failure _ _ _ _ _
                  (triple_eta (doCanary Sim.ctxBoth
                                 (Sim.state Sim.fleetStuck Sim.emptyHeap StepRunning)))
                  _ _ _ _ _ _ In)).
Defined.

(** A rollout-run without targets. *)
Lemma no_targets_witness :
  Canary_Targets (Sim.context [] None None) = [] ∧
  doInit (Sim.context [] None None) Sim.stInit
    = ((true, retryDefault, None), Sim.stInit, []) ∧
  doRecycle (Sim.context [] None None) Sim.stRecycling
    = ((true, retryDefault, None), Sim.stRecycling, []).
Proof.
  assert (T : Canary_Targets (Sim.context [] None None) = []) by reflexivity.
  split; [exact T|]. split.
  - exact (proj1 (no_targets _ Sim.stInit T)).
  - exact (proj1 (proj2 (no_targets _ Sim.stRecycling T) eq_refl)).
Defined.

(** Forking the stable route of a fleet where nothing is forked yet. *)
Lemma modifyTraffic_calls_witness :
  sameContext Sim.stRunningPatch
    (modifyTraffic Sim.ctxTraffic "forkStable" Sim.stRunningPatch).1.2 ∧
  (modifyTraffic Sim.ctxTraffic "forkStable" Sim.stRunningPatch).1.1.2
    = (if (modifyTraffic Sim.ctxTraffic "forkStable" Sim.stRunningPatch).1.1.1
       then retryImmediately else retryDefault).
Proof.
  assert (E : modifyTraffic Sim.ctxTraffic "forkStable" Sim.stRunningPatch
              = (((modifyTraffic Sim.ctxTraffic "forkStable" Sim.stRunningPatch).1.1.1,
                  (modifyTraffic Sim.ctxTraffic "forkStable" Sim.stRunningPatch).1.1.2),
                 (modifyTraffic Sim.ctxTraffic "forkStable" Sim.stRunningPatch).1.2,
                 (modifyTraffic Sim.ctxTraffic "forkStable" Sim.stRunningPatch).2))
    by reflexivity.
  destruct (modifyTraffic_calls _ _ _ _ _ _ _ E) as (S & R & _).
  by split.
Defined.

(** The patch at location 1, whose labels hold one key of the caller's. *)
Lemma appendBuiltin_frame_witness :
  viewLabels (readPatch Sim.heap1 1%positive)
    = Some {[ "rollout.kusionstack.io/canary" := "false"; "app" := "web" ]} ∧
  ∃ labels',
    viewLabels (readPatch (appendBuiltinPodTemplateMetadataPatch (Some 1%positive)
                             Sim.heap1).2 1%positive) = Some labels' ∧
    labels' !! "app" = Some "web".
Proof.
  assert (V : viewLabels (readPatch Sim.heap1 1%positive)
              = Some {[ "rollout.kusionstack.io/canary" := "false"; "app" := "web" ]})
    by reflexivity.
  split; [exact V|].
  destruct (appendBuiltin_frame 1%positive Sim.heap1) as (_ & _ & _ & Keep).
  destruct (Keep _ "app" V) as (labels' & V' & L); [discriminate | discriminate |].
  exists labels'. split; [exact V'|]. by rewrite L.
Defined.

(** A nil patch on a heap that holds a patch already. *)
Lemma appendBuiltin_nil_witness :
  is_Some (patches Sim.heap1 !! 1%positive) ∧
  patches (appendBuiltinPodTemplateMetadataPatch None Sim.heap1).2 !! 1%positive
    = patches Sim.heap1 !! 1%positive.
Proof.
  assert (I : is_Some (patches Sim.heap1 !! 1%positive)) by (by eexists).
  split; [exact I|].
  destruct (appendBuiltin_nil Sim.heap1) as (_ & Keep & _).
  exact (Keep _ I).
Defined.

(** A hook that answers with an error. *)
Lemma hooks_pass_through_witness :
  sameContext Sim.stPostHook (doPreStepHook Sim.ctxBoth Sim.stPostHook).1.2 ∧
  (doPostStepHook Sim.ctxBoth Sim.stPostHook).1.1
    = (webhook_Do Sim.ctxBoth PostCanaryStepHook (world Sim.stPostHook)).1.
Proof.
  destruct (hooks_pass_through Sim.ctxBoth Sim.stPostHook) as [Pre Post].
  split.
  - by destruct (Pre _ _ _ (triple_eta (doPreStepHook Sim.ctxBoth Sim.stPostHook)))
      as (_ & _ & S).
  - by destruct (Post _ _ _ (triple_eta (doPostStepHook Sim.ctxBoth Sim.stPostHook)))
      as (R & _).
Defined.

(** * Runs of the builder and of the random strings *)

(** A builder that only has a prefix. *)
Lemma builder_complete_fields_witness :
  Builder.name (Builder.mkBuilder "" "" "job" "" "") = "" ∧
  Builder.complete "u1" (Builder.mkBuilder "" "" "job" "" "")
    = Builder.mkBuilder "default" "job-u1" "job" "app" "cluster" ∧
  ∀ uuid2,
    Builder.complete "u1" (Builder.mkBuilder "" "" "job" "" "")
      = Builder.complete uuid2 (Builder.mkBuilder "" "" "job" "" "") ->
    "u1" = uuid2.
Proof.
  assert (N : Builder.name (Builder.mkBuilder "" "" "job" "" "") = "") by reflexivity.
  assert (C : Builder.complete "u1" (Builder.mkBuilder "" "" "job" "" "")
              = Builder.mkBuilder "default" "job-u1" "job" "app" "cluster") by reflexivity.
  split; [exact N|]. split; [exact C|].
  destruct (builder_complete_fields "u1" (Builder.mkBuilder "" "" "job" "" ""))
    as (_ & _ & _ & _ & _ & Inj).
  exact (λ uuid2, Inj uuid2 N).
Defined.

(** A draw below 100. *)
Lemma RandStr_three_digits_witness :
  0 <= 7 < 999 ∧
  String.length (Utils.RandStr "20240102030405" 7) = 17%nat.
Proof.
  split; [lia|].
  exact (proj2 (RandStr_three_digits "20240102030405" 7 ltac:(lia))).
Defined.

(** The draws 7 and 107. *)
Lemma RandStr_collisions_witness :
  (0 <= 7 < 999 ∧ 0 <= 107 < 999) ∧
  Utils.RandStr "20240102030405" 7 = Utils.RandStr "20240102030405" 107.
Proof.
  split; [lia|].
  apply (RandStr_collisions "20240102030405" 7 107); lia.
Defined.

(** * Runs for the claims on the calls made *)

(** Two targets, both created by the first call, which therefore is not
    done; the second call finds both unchanged and ready and is done,
    having asked both targets; and a target unknown to the registry is
    fatal. *)
Lemma doCanary_steps_witness :
  (existsb isChange (doCanary Sim.ctxBoth Sim.stRunning).2 = true ∧
   Forall (λ e, isFatalEvent e = false) (doCanary Sim.ctxBoth Sim.stRunning).2 ∧
   (doCanary Sim.ctxBoth Sim.stRunning).1.1 = (false, retryDefault, None)) ∧
  ((doCanary Sim.ctxBoth (doCanary Sim.ctxBoth Sim.stRunning).1.2).1.1.1.1 = true ∧
   (doCanary Sim.ctxBoth (doCanary Sim.ctxBoth Sim.stRunning).1.2).1.1
     = (true, retryImmediately, None) ∧
   checkedTargets Sim.ctxBoth (doCanary Sim.ctxBoth Sim.stRunning).1.2
     (doCanary Sim.ctxBoth (doCanary Sim.ctxBoth Sim.stRunning).1.2).2
     = [(Sim.target "web", true); (Sim.target "api", true)]) ∧
  (EvGet (Sim.target "ghost") false ∈ (doCanary Sim.ctxGhost Sim.stRunning).2 ∧
   (doCanary Sim.ctxGhost Sim.stRunning).1.1
     = (false, retryStop,
        Some (StructuredError {| Code := "DoCanaryError";
                                 Reason := ReasonWorkloadInterfaceNotExist;
                                 Message := notExistMessage (Sim.target "ghost") |}))).
Proof.
  split; [|split].
  - assert (C : existsb isChange (doCanary Sim.ctxBoth Sim.stRunning).2 = true)
      by (by vm_compute).
    assert (F : Forall (λ e, isFatalEvent e = false) (doCanary Sim.ctxBoth Sim.stRunning).2)
      by by_run.
    split; [exact C|]. split; [exact F|].
    destruct (doCanary_steps _ _ _ _ _ (triple_eta (doCanary Sim.ctxBoth Sim.stRunning)))
      as (_ & _ & _ & _ & _ & _ & _ & _ & d & s1 & t1 & t2 & t3 & t4
          & _ & _ & _ & _ & _ & _ & _ & Change & _).
    destruct (Change C) as (_ & _ & R). exact (R F).
  - assert (D : (doCanary Sim.ctxBoth (doCanary Sim.ctxBoth Sim.stRunning).1.2).1.1.1.1 = true)
      by (by vm_compute).
    split; [exact D|].
    destruct (doCanary_steps _ _ _ _ _
                (triple_eta (doCanary Sim.ctxBoth (doCanary Sim.ctxBoth Sim.stRunning).1.2)))
      as (_ & _ & _ & _ & _ & _ & _ & Ready & d & s1 & t1 & t2 & t3 & t4
          & _ & _ & _ & _ & _ & _ & _ & _ & _ & _ & Done & _).
    destruct (Done D) as (R & _). split; [exact R|]. exact (Ready D).
  - assert (In : EvGet (Sim.target "ghost") false ∈ (doCanary Sim.ctxGhost Sim.stRunning).2)
      by (apply list_elem_of_In; vm_compute; tauto).
    split; [exact In|].
    destruct (doCanary_steps _ _ _ _ _ (triple_eta (doCanary Sim.ctxGhost Sim.stRunning)))
      as (_ & _ & Missing & _).
    exact (Missing _ In).
Defined.

(** The canary revert still changes the routes, so nothing is deleted,
    and the first call is the canary revert; without traffic management
    both canaries are deleted and the step is done; a canary that cannot
    be deleted is fatal. *)
Lemma doRecycle_phases_witness :
  ((doRecycle Sim.ctxTraffic Sim.stRecycling).1.1 = (false, retryDefault, None) ∧
   Forall (λ e, isDelete e = false) (doRecycle Sim.ctxTraffic Sim.stRecycling).2 ∧
   (Canary_Traffic Sim.ctxTraffic = Some tt ∧
    ∃ result err,
      head (doRecycle Sim.ctxTraffic Sim.stRecycling).2
        = Some (EvTraffic "revertCanary" result err))) ∧
  ((doRecycle Sim.ctxBoth Sim.stRecycling).1.1.1.1 = true ∧
   (doRecycle Sim.ctxBoth Sim.stRecycling).1.1 = (true, retryDefault, None)) ∧
  (EvDelete (Sim.target "web") (Some "refused")
     ∈ (doRecycle Sim.ctxBoth (Sim.state Sim.fleetStuck Sim.emptyHeap StepResourceRecycling)).2 ∧
   (doRecycle Sim.ctxBoth (Sim.state Sim.fleetStuck Sim.emptyHeap StepResourceRecycling)).1.1
     = (false, retryStop,
        Some (StructuredError
                {| Code := "DoCanaryError"; Reason := "DeleteFailed";
                   Message := deleteFailedMessage (Sim.target "web") "refused" |}))).
Proof.
  split; [|split].
  - destruct (doRecycle_phases _ _ _ _ _
                (triple_eta (doRecycle Sim.ctxTraffic Sim.stRecycling)))
      as (_ & _ & d & s1 & t1 & t2 & t3 & E & Tr & C1 & _ & _ & NotDone
          & _ & _ & _ & _ & _ & First).
    assert (D : d = false) by (vm_compute in E; by injection E as <-).
    assert (T : Canary_Traffic Sim.ctxTraffic = Some tt) by reflexivity.
    destruct (NotDone D) as (R & _ & E2 & E3).
    split; [exact R|]. split.
    + rewrite Tr, E2, E3, !app_nil_r. eapply Forall_impl; [exact C1|]. by intros e [? _].
    + split; [exact T|]. exact (proj1 (First _ T)).
  - assert (D : (doRecycle Sim.ctxBoth Sim.stRecycling).1.1.1.1 = true) by (by vm_compute).
    split; [exact D|].
    destruct (doRecycle_phases _ _ _ _ _
                (triple_eta (doRecycle Sim.ctxBoth Sim.stRecycling)))
      as (_ & _ & d & s1 & t1 & t2 & t3 & _ & _ & _ & _ & _ & _ & _ & _ & _ & Done & _).
    destruct (Done D) as (R & _). exact R.
  - assert (In : EvDelete (Sim.target "web") (Some "refused")
                   ∈ (doRecycle Sim.ctxBoth
                        (Sim.state Sim.fleetStuck Sim.emptyHeap StepResourceRecycling)).2)
      by (apply list_elem_of_In; vm_compute; tauto).
    split; [exact In|].
    destruct (doRecycle_phases _ _ _ _ _
                (triple_eta (doRecycle Sim.ctxBoth
                               (Sim.state Sim.fleetStuck Sim.emptyHeap StepResourceRecycling))))
      as (_ & _ & d & s1 & t1 & t2 & t3 & _ & _ & _ & _ & _ & _ & _ & Failed & _).
    exact (Failed _ _ In).
Defined.

(** The spec's patch binds the canary key to ["false"]; what
    [CreateOrUpdate] is called with binds it to ["true"]. *)
Lemma doCanary_patch_labels_witness :
  LabelCanary ≠ LabelPodRevision ∧
  ∃ seen labels,
    (doCanary Sim.ctxPatch Sim.stRunningPatch).2
      = [EvGet (Sim.target "web") true; EvCanaryStrategy (Sim.target "web") None]
        ++ EvCreateOrUpdate (Sim.target "web") 1 1%positive seen OperationResultCreated None
        :: [] ∧
    (Strategy_CreateOrUpdate "web" 1 seen (world Sim.stRunningPatch)).1
      = (OperationResultCreated, None) ∧
    viewLabels seen = Some labels ∧
    labels !! LabelCanary = Some "true" ∧
    labels !! LabelPodRevision = Some "canary".
Proof.
  assert (Ne : LabelCanary ≠ LabelPodRevision) by (vm_compute; discriminate).
  split; [exact Ne|].
  exists (readPatch (heap (doCanary Sim.ctxPatch Sim.stRunningPatch).1.2) 1%positive).
  assert (Tr : (doCanary Sim.ctxPatch Sim.stRunningPatch).2
               = [EvGet (Sim.target "web") true; EvCanaryStrategy (Sim.target "web") None]
                 ++ EvCreateOrUpdate (Sim.target "web") 1 1%positive
                      (readPatch (heap (doCanary Sim.ctxPatch Sim.stRunningPatch).1.2)
                         1%positive)
                      OperationResultCreated None
                 :: []) by (by vm_compute).
  destruct (doCanary_patch_labels _ _ _ _ _ Ne
              (triple_eta (doCanary Sim.ctxPatch Sim.stRunningPatch)))
    as [_ Calls].
  destruct (Calls _ _ _ _ _ _ _ _ Tr) as ((cw & At & Call) & _ & labels & L).
  exists labels. split; [exact Tr|]. split; [|exact L].
  assert (Cw : cw = "web") by (vm_compute in At; by injection At as <-).
  rewrite <- Cw. exact Call.
Defined.

(** Two targets that both resolve and initialize. *)
Lemma doInit_done_calls_witness :
  (doInit Sim.ctxBoth Sim.stInit).1.1.1.1 = true ∧
  (doInit Sim.ctxBoth Sim.stInit).2
    = flat_map (initCalls Sim.ctxBoth) (Canary_Targets Sim.ctxBoth) ∧
  madeCalls Sim.ctxBoth Sim.stInit (doInit Sim.ctxBoth Sim.stInit).2
    (doInit Sim.ctxBoth Sim.stInit).1.2.
Proof.
  assert (D : (doInit Sim.ctxBoth Sim.stInit).1.1.1.1 = true) by (by vm_compute).
  split; [exact D|].
  destruct (doInit_done_calls _ _ _ _ _ (triple_eta (doInit Sim.ctxBoth Sim.stInit)))
    as (Made & Iff & _).
  split; [exact (proj1 Iff D)|exact Made].
Defined.

(** Recycling two canaries that exist. *)
Lemma doRecycle_delete_order_witness :
  (doRecycle Sim.ctxBoth Sim.stRecycling).1.1.1.1 = true ∧
  ∃ tr1 tr3,
    (doRecycle Sim.ctxBoth Sim.stRecycling).2
      = tr1 ++ flat_map deleteCalls (Canary_Targets Sim.ctxBoth) ++ tr3 ∧
    Forall (λ e, isTrafficEvent e = true) tr1 ∧
    Forall (λ e, isTrafficEvent e = true) tr3.
Proof.
  assert (D : (doRecycle Sim.ctxBoth Sim.stRecycling).1.1.1.1 = true) by (by vm_compute).
  split; [exact D|].
  destruct (doRecycle_delete_order _ _ _ _ _
              (triple_eta (doRecycle Sim.ctxBoth Sim.stRecycling))) as (_ & _ & _ & Done).
  exact (Done D).
Defined.

(** The second call on two targets, which is done. *)
Lemma doCanary_update_order_witness :
  (doCanary Sim.ctxBoth (doCanary Sim.ctxBoth Sim.stRunning).1.2).1.1.1.1 = true ∧
  omap updateCall (doCanary Sim.ctxBoth (doCanary Sim.ctxBoth Sim.stRunning).1.2).2
    = Canary_Targets Sim.ctxBoth.
Proof.
  assert (D : (doCanary Sim.ctxBoth (doCanary Sim.ctxBoth Sim.stRunning).1.2).1.1.1.1 = true)
    by (by vm_compute).
  split; [exact D|].
  destruct (doCanary_update_order _ _ _ _ _
              (triple_eta (doCanary Sim.ctxBoth (doCanary Sim.ctxBoth Sim.stRunning).1.2)))
    as (_ & _ & _ & _ & Done).
  exact (Done D).
Defined.

(** Canaries that exist and are not ready: the first target says no,
    the second one is not asked, and the check is the last call. *)
Lemma doCanary_readiness_checks_witness :
  ((Sim.target "web", false)
     ∈ checkedTargets Slow.ctxTwo Slow.stWaiting (doCanary Slow.ctxTwo Slow.stWaiting).2 ∧
   last (checkedTargets Slow.ctxTwo Slow.stWaiting (doCanary Slow.ctxTwo Slow.stWaiting).2)
     = Some (Sim.target "web", false) ∧
   (doCanary Slow.ctxTwo Slow.stWaiting).1.1 = (false, retryDefault, None)) ∧
  (@EvCheckPartitionReady Slow.types "web" 3 false
     ∈ (doCanary Slow.ctxTwo Slow.stWaiting).2 ∧
   last (doCanary Slow.ctxTwo Slow.stWaiting).2
     = Some (@EvCheckPartitionReady Slow.types "web" 3 false)).
Proof.
  destruct (doCanary_readiness_checks _ _ _ _ _
              (triple_eta (doCanary Slow.ctxTwo Slow.stWaiting)))
    as (_ & _ & _ & NotReady & Last & _).
  split.
  - assert (In : (Sim.target "web", false)
                 ∈ checkedTargets Slow.ctxTwo Slow.stWaiting
                     (doCanary Slow.ctxTwo Slow.stWaiting).2)
      by (apply list_elem_of_In; vm_compute; tauto).
    split; [exact In|]. exact (NotReady _ In).
  - assert (In : @EvCheckPartitionReady Slow.types "web" 3 false
                 ∈ (doCanary Slow.ctxTwo Slow.stWaiting).2)
      by (apply list_elem_of_In; vm_compute; tauto).
    split; [exact In|]. exact (Last _ _ In).
Defined.
